(** * hubba: the physics, collision, animation and registry core

    A shallow embedding of [entities.go], [physics.go] and [animation.go],
    and of the tick, the keys and the resize handling of [main.go].

    The Go code computes on [float64].  The embedding is written once, over
    the interface [Float64] of the float64 operations the code uses, and is
    run at two instances:

    - [binary64]: Rocq's primitive IEEE-754 binary64 numbers (round to
      nearest even), the arithmetic of Go's float64.  Every definition
      evaluates at this instance, NaN and the infinities included.
    - [exact]: the real numbers, the arithmetic without rounding, overflow,
      NaN or infinities.  Algebraic properties of the physics (momentum
      exchange, settling) are stated at this instance.

    Pointers are modelled by value: a method that mutates its receiver
    returns the updated receiver.  Draws from the global [math/rand] source
    are an explicit stream.  The third-party spring integrator
    (harmonica's [Spring.Update]) enters as a function parameter. *)

From Stdlib Require Import ZArith QArith List Bool String Lia.
From Stdlib Require Import Floats Uint63.
From Stdlib Require Import Reals Lra Psatz.
Import ListNotations.

Set Implicit Arguments.
Set Maximal Implicit Insertion.
Set Warnings "-inexact-float".

(** ** The float64 interface *)

Class Float64 (F : Type) : Type := {
  fadd : F -> F -> F;
  fsub : F -> F -> F;
  fmul : F -> F -> F;
  fdiv : F -> F -> F;
  fneg : F -> F;
  flt : F -> F -> bool;        (* x < y *)
  fle : F -> F -> bool;        (* x <= y *)
  feq : F -> F -> bool;        (* x == y *)
  Abs : F -> F;                (* math.Abs *)
  Sqrt : F -> F;               (* math.Sqrt *)
  Copysign : F -> F -> F;      (* math.Copysign *)
  IsNaN : F -> bool;           (* math.IsNaN *)
  IsInf : F -> bool;           (* math.IsInf(x, 0) *)
  ofInt : Z -> F;              (* float64(n) *)
  lit : Q -> F                 (* a decimal constant of the source *)
}.

Arguments lit {F _} q%_Q.

Declare Scope go_scope.
Delimit Scope go_scope with go.
Notation "x + y" := (fadd x y) : go_scope.
Notation "x - y" := (fsub x y) : go_scope.
Notation "x * y" := (fmul x y) : go_scope.
Notation "x / y" := (fdiv x y) : go_scope.
Notation "- x" := (fneg x) : go_scope.
Notation "x <? y" := (flt x y) : go_scope.
Notation "x <=? y" := (fle x y) : go_scope.
Notation "x >? y" := (flt y x) : go_scope.
Notation "x >=? y" := (fle y x) : go_scope.
Notation "x =? y" := (feq x y) : go_scope.

(** *** Instance: IEEE-754 binary64 *)

Module B64.

(** [float64(n)] for a Go [int] [n], [|n| < 2^63]. *)
Definition of_Z (z : Z) : float :=
  match z with
  | Z0 => 0%float
  | Zpos _ => of_uint63 (Uint63.of_Z z)
  | Zneg p => (- of_uint63 (Uint63.of_Z (Zpos p)))%float
  end.

(** A decimal constant [n/10^k] denotes the binary64 number nearest to it;
    the correctly rounded quotient of two exact integers is that number. *)
Definition of_Q (q : Q) : float :=
  (of_Z (Qnum q) / of_Z (Zpos (Qden q)))%float.

(** [math.Copysign(x, y)]: the magnitude of [x] with the sign of [y]
    (negative for [-0]; a NaN [y] counts as positive here). *)
Definition copysign (x y : float) : float :=
  if get_sign y then (- abs x)%float else abs x.

End B64.

#[export] Instance binary64 : Float64 float := {
  fadd := PrimFloat.add;
  fsub := PrimFloat.sub;
  fmul := PrimFloat.mul;
  fdiv := PrimFloat.div;
  fneg := PrimFloat.opp;
  flt := PrimFloat.ltb;
  fle := PrimFloat.leb;
  feq := PrimFloat.eqb;
  Abs := PrimFloat.abs;
  Sqrt := PrimFloat.sqrt;
  Copysign := B64.copysign;
  IsNaN := PrimFloat.is_nan;
  IsInf := PrimFloat.is_infinity;
  ofInt := B64.of_Z;
  lit := B64.of_Q
}.

(** *** Instance: exact real arithmetic *)

Module Exact.

Definition ltb (x y : R) : bool := if Rlt_dec x y then true else false.
Definition leb (x y : R) : bool := if Rle_dec x y then true else false.
Definition eqb (x y : R) : bool := if Req_dec_T x y then true else false.
Definition copysign (x y : R) : R :=
  if Rlt_dec y 0 then (- Rabs x)%R else Rabs x.

End Exact.

#[export] Instance exact : Float64 R := {
  fadd := Rplus;
  fsub := Rminus;
  fmul := Rmult;
  fdiv := Rdiv;
  fneg := Ropp;
  flt := Exact.ltb;
  fle := Exact.leb;
  feq := Exact.eqb;
  Abs := Rabs;
  Sqrt := sqrt;
  Copysign := Exact.copysign;
  IsNaN := fun _ => false;
  IsInf := fun _ => false;
  ofInt := IZR;
  lit := Q2R
}.

(** ** The program *)

Section Program.

Context (F : Type) `{Float64 F}.
Local Open Scope go_scope.

(** *** math/rand *)

(** The stream of values the global source returns to successive
    [rand.Float64()] calls. *)
Definition RandSource := nat -> F.

Definition rand_Float64 (r : RandSource) : F * RandSource :=
  (r 0%nat, fun n => r (S n)).

(** *** animation.go *)

(** [EntityAnimationState].  [SpringX], [SpringY] (harmonica springs, fixed
    at construction) and [LastUpdate] (wall-clock time) are not fields of
    the model: [UpdateAnimation] receives the springs' [Update] functions. *)
Record EntityAnimationState : Type := {
  DisplayX : F; DisplayY : F;
  TargetX : F; TargetY : F;
  VelocityX : F; VelocityY : F;
  IsAnimating : bool
}.

Definition NewEntityAnimationState (x y : F) : EntityAnimationState :=
  {| DisplayX := x; DisplayY := y;
     TargetX := x; TargetY := y;
     VelocityX := lit 0; VelocityY := lit 0;
     IsAnimating := false |}.

Definition SetTarget (x y : F) (eas : EntityAnimationState)
  : EntityAnimationState :=
  let x := if IsNaN x || IsInf x then DisplayX eas else x in
  let y := if IsNaN y || IsInf y then DisplayY eas else y in
  {| DisplayX := DisplayX eas; DisplayY := DisplayY eas;
     TargetX := x; TargetY := y;
     VelocityX := VelocityX eas; VelocityY := VelocityY eas;
     IsAnimating := true |}.

Definition SetInitialPosition (x y : F) (eas : EntityAnimationState)
  : EntityAnimationState :=
  {| DisplayX := x; DisplayY := y;
     TargetX := x; TargetY := y;
     VelocityX := lit 0; VelocityY := lit 0;
     IsAnimating := false |}.

Definition GetDisplayPosition (eas : EntityAnimationState) : F * F :=
  (DisplayX eas, DisplayY eas).

Definition GetTarget (eas : EntityAnimationState) : F * F :=
  (TargetX eas, TargetY eas).

Definition IsStillAnimating (eas : EntityAnimationState) : bool :=
  IsAnimating eas.

(** The helper [abs] of animation.go. *)
Definition abs (x : F) : F := if x <? lit 0 then - x else x.

(** A harmonica spring, seen through its method
    [Update(pos, vel, equilibriumPos) (newPos, newVel)]. *)
Definition Spring := F -> F -> F -> F * F.

Definition UpdateAnimation (SpringX SpringY : Spring)
    (eas : EntityAnimationState) : EntityAnimationState :=
  let '(newX, newVX) := SpringX (DisplayX eas) (VelocityX eas) (TargetX eas) in
  let '(newY, newVY) := SpringY (DisplayY eas) (VelocityY eas) (TargetY eas) in
  let toleranceX := lit 0.01 in
  let toleranceY := lit 0.01 in
  let velocityThreshold := lit 0.01 in
  {| DisplayX := newX; DisplayY := newY;
     TargetX := TargetX eas; TargetY := TargetY eas;
     VelocityX := newVX; VelocityY := newVY;
     IsAnimating :=
       if (abs (newX - TargetX eas) <? toleranceX)
          && (abs (newY - TargetY eas) <? toleranceY)
          && (abs newVX <? velocityThreshold)
          && (abs newVY <? velocityThreshold)
       then false else IsAnimating eas |}.

(** *** entities.go: entities *)

Definition EntityType := string.
Definition SphereType : EntityType := "sphere"%string.
Definition SpriteType : EntityType := "sprite"%string.

Record BaseEntity : Type := {
  ID : string;
  X : F; Y : F;
  VX : F; VY : F;
  Size : Z;
  Color : string;
  Symbol : string;
  Type_ : EntityType;
  Mass : F;
  AnimationState : option EntityAnimationState
}.

Definition BaseEntity_GetPosition (e : BaseEntity) : F * F := (X e, Y e).

Definition BaseEntity_SetPosition (x y : F) (e : BaseEntity) : BaseEntity :=
  {| ID := ID e; X := x; Y := y; VX := VX e; VY := VY e; Size := Size e;
     Color := Color e; Symbol := Symbol e; Type_ := Type_ e; Mass := Mass e;
     AnimationState := AnimationState e |}.

Definition BaseEntity_SetImmediatePosition (x y : F) (e : BaseEntity)
  : BaseEntity :=
  {| ID := ID e; X := x; Y := y; VX := VX e; VY := VY e; Size := Size e;
     Color := Color e; Symbol := Symbol e; Type_ := Type_ e; Mass := Mass e;
     AnimationState := option_map (SetInitialPosition x y) (AnimationState e) |}.

Definition BaseEntity_GetVelocity (e : BaseEntity) : F * F := (VX e, VY e).

Definition BaseEntity_SetVelocity (vx vy : F) (e : BaseEntity) : BaseEntity :=
  let vx := if IsInf vx || IsNaN vx then lit 0 else vx in
  let vy := if IsInf vy || IsNaN vy then lit 0 else vy in
  {| ID := ID e; X := X e; Y := Y e; VX := vx; VY := vy; Size := Size e;
     Color := Color e; Symbol := Symbol e; Type_ := Type_ e; Mass := Mass e;
     AnimationState := AnimationState e |}.

Definition BaseEntity_ApplyForce (fx fy : F) (e : BaseEntity) : BaseEntity :=
  if Mass e >? lit 0 then
    {| ID := ID e; X := X e; Y := Y e;
       VX := VX e + fx / Mass e; VY := VY e + fy / Mass e; Size := Size e;
       Color := Color e; Symbol := Symbol e; Type_ := Type_ e; Mass := Mass e;
       AnimationState := AnimationState e |}
  else e.

Definition BaseEntity_Update (deltaTime : F) (e : BaseEntity) : BaseEntity :=
  let x := X e + VX e * deltaTime in
  let y := Y e + VY e * deltaTime in
  {| ID := ID e; X := x; Y := y; VX := VX e; VY := VY e; Size := Size e;
     Color := Color e; Symbol := Symbol e; Type_ := Type_ e; Mass := Mass e;
     AnimationState := option_map (SetTarget x y) (AnimationState e) |}.

(** The size class to effective extent table, as the [switch] that
    [GetBounds], [NewSphere] and [NewSprite] each repeat. *)
Definition effectiveSize (size : Z) : F :=
  match size with
  | 1%Z => lit 0.8
  | 2%Z => lit 1.0
  | 3%Z => lit 1.3
  | 4%Z => lit 1.6
  | _ => ofInt size * lit 0.8
  end.

(** Bounds are [(x, y, width, height)]. *)
Definition Bounds : Type := F * F * F * F.

Definition BaseEntity_GetBounds (e : BaseEntity) : Bounds :=
  let effectiveSize := effectiveSize (Size e) in
  (X e - effectiveSize / lit 2, Y e - effectiveSize / lit 2,
   effectiveSize, effectiveSize).

Definition BaseEntity_GetDisplayPosition (e : BaseEntity) : F * F :=
  match AnimationState e with
  | Some eas => GetDisplayPosition eas
  | None => (X e, Y e)
  end.

Definition BaseEntity_UpdateAnimation (SpringX SpringY : Spring)
    (e : BaseEntity) : BaseEntity :=
  {| ID := ID e; X := X e; Y := Y e; VX := VX e; VY := VY e; Size := Size e;
     Color := Color e; Symbol := Symbol e; Type_ := Type_ e; Mass := Mass e;
     AnimationState :=
       option_map (UpdateAnimation SpringX SpringY) (AnimationState e) |}.

Record Sphere : Type := {
  Sphere_BaseEntity : BaseEntity;
  Radius : F
}.

Record Sprite : Type := {
  Sprite_BaseEntity : BaseEntity;
  CustomSymbol : string;
  Animation : list string;
  CurrentFrame : Z
}.

(** The two implementations of the [Entity] interface. *)
Inductive Entity : Type :=
| ESphere (s : Sphere)
| ESprite (s : Sprite).

(** The embedded [BaseEntity] of an entity. *)
Definition base (e : Entity) : BaseEntity :=
  match e with
  | ESphere s => Sphere_BaseEntity s
  | ESprite s => Sprite_BaseEntity s
  end.

(** A promoted [BaseEntity] method that mutates its receiver. *)
Definition onBase (f : BaseEntity -> BaseEntity) (e : Entity) : Entity :=
  match e with
  | ESphere s =>
      ESphere {| Sphere_BaseEntity := f (Sphere_BaseEntity s);
                 Radius := Radius s |}
  | ESprite s =>
      ESprite {| Sprite_BaseEntity := f (Sprite_BaseEntity s);
                 CustomSymbol := CustomSymbol s;
                 Animation := Animation s;
                 CurrentFrame := CurrentFrame s |}
  end.

(** [generateID] draws two random integers; [id] stands for its result.
    The glyph of a sphere is written ["o"] here. *)
Definition NewSphere (x y : F) (size : Z) (color : string) (id : string)
  : Sphere :=
  let size := if (size <? 0)%Z then 1%Z else size in
  let animState := NewEntityAnimationState x y in
  let effectiveSize := effectiveSize size in
  {| Sphere_BaseEntity :=
       {| ID := id; X := x; Y := y; VX := lit 0; VY := lit 0; Size := size;
          Color := color; Symbol := "o"%string; Type_ := SphereType;
          Mass := effectiveSize;
          AnimationState := Some animState |};
     Radius := effectiveSize / lit 2.0 |}.

Definition Sphere_GetRadius (s : Sphere) : F := Radius s.

Definition Sphere_SetRadius (radius : F) (s : Sphere) : Sphere :=
  let b := Sphere_BaseEntity s in
  let size :=
    if radius <=? lit 0.4 then 1%Z
    else if radius <=? lit 0.5 then 2%Z
    else if radius <=? lit 0.65 then 3%Z
    else 4%Z in
  {| Sphere_BaseEntity :=
       {| ID := ID b; X := X b; Y := Y b; VX := VX b; VY := VY b;
          Size := size; Color := Color b; Symbol := Symbol b;
          Type_ := Type_ b; Mass := Mass b;
          AnimationState := AnimationState b |};
     Radius := radius |}.

Definition Sphere_GetBounds (s : Sphere) : Bounds :=
  let b := Sphere_BaseEntity s in
  (X b - Radius s, Y b - Radius s, Radius s * lit 2, Radius s * lit 2).

(** The default glyphs of [NewSprite], by their ASCII stand-ins. *)
Definition defaultSymbols : list string :=
  ["<>"; "<.>"; "*"; "+"; "^"; "/\"; "#"; "%"]%string.

(** [pick] stands for [rand.Intn(len(symbols))], used for an empty
    [customSymbol]. *)
Definition NewSprite (x y : F) (size : Z) (color : string)
    (customSymbol : string) (id : string) (pick : nat) : Sprite :=
  let symbol :=
    if String.eqb customSymbol ""%string
    then nth pick defaultSymbols ""%string
    else customSymbol in
  let animState := NewEntityAnimationState x y in
  let effectiveSize := effectiveSize size in
  {| Sprite_BaseEntity :=
       {| ID := id; X := x; Y := y; VX := lit 0; VY := lit 0; Size := size;
          Color := color; Symbol := symbol; Type_ := SpriteType;
          Mass := effectiveSize * lit 0.8;
          AnimationState := Some animState |};
     CustomSymbol := symbol;
     Animation := [symbol];
     CurrentFrame := 0%Z |}.

Definition Sprite_SetAnimation (frames : list string) (s : Sprite) : Sprite :=
  if (0 <? Z.of_nat (List.length frames))%Z then
    let b := Sprite_BaseEntity s in
    {| Sprite_BaseEntity :=
         {| ID := ID b; X := X b; Y := Y b; VX := VX b; VY := VY b;
            Size := Size b; Color := Color b;
            Symbol := nth 0 frames ""%string;
            Type_ := Type_ b; Mass := Mass b;
            AnimationState := AnimationState b |};
       CustomSymbol := CustomSymbol s;
       Animation := frames;
       CurrentFrame := CurrentFrame s |}
  else s.

Definition Sprite_NextFrame (s : Sprite) : Sprite :=
  if (1 <? Z.of_nat (List.length (Animation s)))%Z then
    let frame := ((CurrentFrame s + 1) mod Z.of_nat (List.length (Animation s)))%Z in
    let b := Sprite_BaseEntity s in
    {| Sprite_BaseEntity :=
         {| ID := ID b; X := X b; Y := Y b; VX := VX b; VY := VY b;
            Size := Size b; Color := Color b;
            Symbol := nth (Z.to_nat frame) (Animation s) ""%string;
            Type_ := Type_ b; Mass := Mass b;
            AnimationState := AnimationState b |};
       CustomSymbol := CustomSymbol s;
       Animation := Animation s;
       CurrentFrame := frame |}
  else s.

Definition Sprite_Update (deltaTime : F) (s : Sprite) (r : RandSource)
  : Sprite * RandSource :=
  let s := {| Sprite_BaseEntity := BaseEntity_Update deltaTime (Sprite_BaseEntity s);
              CustomSymbol := CustomSymbol s;
              Animation := Animation s;
              CurrentFrame := CurrentFrame s |} in
  let '(u, r) := rand_Float64 r in
  if u <? lit 0.1 then (Sprite_NextFrame s, r) else (s, r).

(** *** The [Entity] interface, by dynamic dispatch *)

Definition GetPosition (e : Entity) : F * F := BaseEntity_GetPosition (base e).
Definition GetVelocity (e : Entity) : F * F := BaseEntity_GetVelocity (base e).
Definition GetSize (e : Entity) : Z := Size (base e).
Definition GetType (e : Entity) : EntityType := Type_ (base e).
Definition GetID (e : Entity) : string := ID (base e).
Definition GetAnimationState (e : Entity) : option EntityAnimationState :=
  AnimationState (base e).
Definition GetDisplayPositionOf (e : Entity) : F * F :=
  BaseEntity_GetDisplayPosition (base e).

Definition SetPosition (x y : F) : Entity -> Entity :=
  onBase (BaseEntity_SetPosition x y).
Definition SetImmediatePosition (x y : F) : Entity -> Entity :=
  onBase (BaseEntity_SetImmediatePosition x y).
Definition SetVelocity (vx vy : F) : Entity -> Entity :=
  onBase (BaseEntity_SetVelocity vx vy).
Definition ApplyForce (fx fy : F) : Entity -> Entity :=
  onBase (BaseEntity_ApplyForce fx fy).
Definition EntityUpdateAnimation (SpringX SpringY : Spring) : Entity -> Entity :=
  onBase (BaseEntity_UpdateAnimation SpringX SpringY).

(** [Sprite] overrides [Update]; [Sphere] inherits [BaseEntity]'s. *)
Definition Update (deltaTime : F) (e : Entity) (r : RandSource)
  : Entity * RandSource :=
  match e with
  | ESphere _ => (onBase (BaseEntity_Update deltaTime) e, r)
  | ESprite s => let '(s, r) := Sprite_Update deltaTime s r in (ESprite s, r)
  end.

(** [Sphere] overrides [GetBounds]; [Sprite] inherits [BaseEntity]'s. *)
Definition GetBounds (e : Entity) : Bounds :=
  match e with
  | ESphere s => Sphere_GetBounds s
  | ESprite s => BaseEntity_GetBounds (Sprite_BaseEntity s)
  end.

(** [CheckCollision] is declared on [*BaseEntity] only: its receiver's
    bounds are [BaseEntity.GetBounds] for a sphere too, while [other] is an
    interface value and dispatches. *)
Definition BaseEntity_CheckCollision (e : BaseEntity) (other : Entity) : bool :=
  let '(x1, y1, w1, h1) := BaseEntity_GetBounds e in
  let '(x2, y2, w2, h2) := GetBounds other in
  negb ((x1 + w1 <? x2) || (x2 + w2 <? x1) || (y1 + h1 <? y2) || (y2 + h2 <? y1)).

Definition CheckCollision (e other : Entity) : bool :=
  BaseEntity_CheckCollision (base e) other.

(** *** physics.go *)

Record PhysicsEngine : Type := {
  Gravity : F;
  AirResistance : F;
  Restitution : F;
  StaticFriction : F;
  ContactDamping : F;
  MinX : F; MinY : F;
  MaxX : F; MaxY : F;
  DeltaTime : F;
  MaxVelocity : F;
  MinVelocity : F;
  ContactTolerance : F
}.

Definition NewPhysicsEngine (boundsWidth boundsHeight : F) : PhysicsEngine :=
  let boundsWidth := if boundsWidth <=? lit 0 then lit 10.0 else boundsWidth in
  let boundsHeight := if boundsHeight <=? lit 0 then lit 10.0 else boundsHeight in
  {| Gravity := lit 25.0;
     AirResistance := lit 0.05;
     Restitution := lit 0.7;
     StaticFriction := lit 0.8;
     ContactDamping := lit 0.9;
     MinX := lit 1.0;
     MinY := lit 1.0;
     MaxX := boundsWidth - lit 2.0;
     MaxY := boundsHeight - lit 2.0;
     DeltaTime := lit 0.1;
     MaxVelocity := lit 50.0;
     MinVelocity := lit 0.05;
     ContactTolerance := lit 0.1 |}.

Definition UpdateBounds (width height : F) (pe : PhysicsEngine) : PhysicsEngine :=
  {| Gravity := Gravity pe; AirResistance := AirResistance pe;
     Restitution := Restitution pe; StaticFriction := StaticFriction pe;
     ContactDamping := ContactDamping pe;
     MinX := MinX pe; MinY := MinY pe;
     MaxX := width - lit 2.0; MaxY := height - lit 2.0;
     DeltaTime := DeltaTime pe; MaxVelocity := MaxVelocity pe;
     MinVelocity := MinVelocity pe; ContactTolerance := ContactTolerance pe |}.

Definition applyGravity (pe : PhysicsEngine) (entity : Entity) : Entity :=
  ApplyForce (lit 0) (Gravity pe * DeltaTime pe) entity.

Definition applyAirResistance (pe : PhysicsEngine) (entity : Entity) : Entity :=
  let '(vx, vy) := GetVelocity entity in
  let resistanceX := - AirResistance pe * vx in
  let resistanceY := - AirResistance pe * vy in
  ApplyForce resistanceX resistanceY entity.

Definition updatePosition (pe : PhysicsEngine) (entity : Entity) (r : RandSource)
  : Entity * RandSource :=
  Update (DeltaTime pe) entity r.

Definition handleBoundaryCollisions (pe : PhysicsEngine) (entity : Entity)
  : Entity :=
  let '(x, y) := GetPosition entity in
  let '(vx, vy) := GetVelocity entity in
  let size := ofInt (GetSize entity) in
  let entityMinX := x - size / lit 2 in
  let entityMaxX := x + size / lit 2 in
  let entityMinY := y - size / lit 2 in
  let entityMaxY := y + size / lit 2 in
  (* Horizontal boundary collisions *)
  let '(entity, x) :=
    if entityMinX <=? MinX pe then
      let newX := MinX pe + size / lit 2 in
      let entity := SetImmediatePosition newX y entity in
      let entity := SetVelocity (- vx * Restitution pe) vy entity in
      (entity, newX)
    else if entityMaxX >=? MaxX pe then
      let newX := MaxX pe - size / lit 2 in
      let entity := SetImmediatePosition newX y entity in
      let entity := SetVelocity (- vx * Restitution pe) vy entity in
      (entity, newX)
    else (entity, x) in
  (* Vertical boundary collisions: [vx] is still the value read on entry *)
  if entityMinY <=? MinY pe then
    let newY := MinY pe + size / lit 2 in
    let entity := SetImmediatePosition x newY entity in
    SetVelocity vx (- vy * Restitution pe) entity
  else if entityMaxY >=? MaxY pe then
    let newY := MaxY pe - size / lit 2 in
    let entity := SetImmediatePosition x newY entity in
    SetVelocity vx (- vy * Restitution pe) entity
  else entity.

Definition capVelocity (pe : PhysicsEngine) (entity : Entity) : Entity :=
  let '(vx, vy) := GetVelocity entity in
  (* Cap maximum velocity *)
  let vx := if Abs vx >? MaxVelocity pe then Copysign (MaxVelocity pe) vx else vx in
  let vy := if Abs vy >? MaxVelocity pe then Copysign (MaxVelocity pe) vy else vy in
  (* Apply static friction when entities are nearly at rest *)
  let totalSpeed := Sqrt (vx * vx + vy * vy) in
  let '(vx, vy) :=
    if totalSpeed <? MinVelocity pe * lit 3 then
      let frictionFactor := StaticFriction pe in
      (vx * frictionFactor, vy * frictionFactor)
    else (vx, vy) in
  (* Stop very slow movement *)
  let vx := if Abs vx <? MinVelocity pe then lit 0 else vx in
  let vy := if Abs vy <? MinVelocity pe then lit 0 else vy in
  SetVelocity vx vy entity.

(** The body of the loop of [ApplyPhysics]. *)
Definition ApplyPhysics_entity (pe : PhysicsEngine) (entity : Entity)
    (r : RandSource) : Entity * RandSource :=
  let entity := applyGravity pe entity in
  let entity := applyAirResistance pe entity in
  let '(entity, r) := updatePosition pe entity r in
  let entity := handleBoundaryCollisions pe entity in
  (capVelocity pe entity, r).

(** The entities of the slice are taken to be distinct objects. *)
Fixpoint ApplyPhysics (pe : PhysicsEngine) (entities : list Entity)
    (r : RandSource) : list Entity * RandSource :=
  match entities with
  | [] => ([], r)
  | entity :: rest =>
      let '(entity, r) := ApplyPhysics_entity pe entity r in
      let '(rest, r) := ApplyPhysics pe rest r in
      (entity :: rest, r)
  end.

Definition checkEntityCollision (pe : PhysicsEngine) (e1 e2 : Entity) : bool :=
  let '(x1, y1) := GetPosition e1 in
  let '(x2, y2) := GetPosition e2 in
  let '(_, _, w1, _) := GetBounds e1 in
  let '(_, _, w2, _) := GetBounds e2 in
  let radius1 := w1 / lit 2 in
  let radius2 := w2 / lit 2 in
  let dx := x2 - x1 in
  let dy := y2 - y1 in
  let distance := Sqrt (dx * dx + dy * dy) in
  let minDistance := (radius1 + radius2) - ContactTolerance pe in
  distance <? minDistance.

Definition resolveCollision (pe : PhysicsEngine) (e1 e2 : Entity)
    (r : RandSource) : Entity * Entity * RandSource :=
  let '(x1, y1) := GetPosition e1 in
  let '(x2, y2) := GetPosition e2 in
  let '(vx1, vy1) := GetVelocity e1 in
  let '(vx2, vy2) := GetVelocity e2 in
  (* Calculate collision normal *)
  let dx := x2 - x1 in
  let dy := y2 - y1 in
  let distance := Sqrt (dx * dx + dy * dy) in
  let '(dx, dy, distance, r) :=
    if distance =? lit 0 then
      let '(u, r) := rand_Float64 r in
      let dx := lit 0.1 * (u - lit 0.5) in
      let '(u, r) := rand_Float64 r in
      let dy := lit 0.1 * (u - lit 0.5) in
      (dx, dy, Sqrt (dx * dx + dy * dy), r)
    else (dx, dy, distance, r) in
  (* Normalize collision vector *)
  let nx := dx / distance in
  let ny := dy / distance in
  let '(_, _, w1, _) := GetBounds e1 in
  let '(_, _, w2, _) := GetBounds e2 in
  let radius1 := w1 / lit 2 in
  let radius2 := w2 / lit 2 in
  let minDistance := (radius1 + radius2) - ContactTolerance pe in
  let overlap := minDistance - distance in
  let '(e1, e2) :=
    if overlap >? lit 0 then
      let separationFactor := lit 0.5 in
      let separationX := nx * overlap * separationFactor in
      let separationY := ny * overlap * separationFactor in
      (SetImmediatePosition (x1 - separationX) (y1 - separationY) e1,
       SetImmediatePosition (x2 + separationX) (y2 + separationY) e2)
    else (e1, e2) in
  (* Calculate relative velocity in collision normal direction *)
  let dvx := vx2 - vx1 in
  let dvy := vy2 - vy1 in
  let dvn := dvx * nx + dvy * ny in
  (* Do not resolve if velocities are separating *)
  if dvn >? lit 0 then (e1, e2, r) else
  (* Apply contact damping for entities that are barely moving *)
  let relativeSpeed := Sqrt (dvx * dvx + dvy * dvy) in
  let '(e1, e2, returned) :=
    if relativeSpeed <? MinVelocity pe * lit 2 then
      let dampingFactor := ContactDamping pe in
      let e1 := SetVelocity (vx1 * dampingFactor) (vy1 * dampingFactor) e1 in
      let e2 := SetVelocity (vx2 * dampingFactor) (vy2 * dampingFactor) e2 in
      if relativeSpeed <? MinVelocity pe then
        (SetVelocity (lit 0) (lit 0) e1, SetVelocity (lit 0) (lit 0) e2, true)
      else (e1, e2, false)
    else (e1, e2, false) in
  if returned then (e1, e2, r) else
  (* Calculate collision impulse (simplified, assuming equal mass) *)
  let impulse := lit 2 * dvn / lit 2 in
  let impulse := impulse * Restitution pe in
  let energyLoss := lit 0.95 in
  let impulse := impulse * energyLoss in
  (* Apply impulse to velocities *)
  (SetVelocity (vx1 + impulse * nx) (vy1 + impulse * ny) e1,
   SetVelocity (vx2 - impulse * nx) (vy2 - impulse * ny) e2,
   r).

(** A [CollisionPair] holds two references into the entity slice: the
    indices [(i, j)], [i < j], of its two entities. *)
Definition CollisionPair : Type := nat * nat.

Definition findCollisions (pe : PhysicsEngine) (entities : list Entity)
  : list CollisionPair :=
  flat_map (fun i =>
    flat_map (fun j =>
      match nth_error entities i, nth_error entities j with
      | Some ei, Some ej =>
          if checkEntityCollision pe ei ej then [(i, j)] else []
      | _, _ => []
      end)
      (seq (S i) (List.length entities - S i)))
    (seq 0 (List.length entities)).

(** Writing through the pointer held at index [i]. *)
Fixpoint store (i : nat) (e : Entity) (entities : list Entity) : list Entity :=
  match entities, i with
  | [], _ => []
  | _ :: rest, O => e :: rest
  | e0 :: rest, S i => e0 :: store i e rest
  end.

Definition HandleEntityCollisions (pe : PhysicsEngine) (entities : list Entity)
    (r : RandSource) : list Entity * RandSource :=
  fold_left (fun (st : list Entity * RandSource) (collision : CollisionPair) =>
      let '(entities, r) := st in
      let '(i, j) := collision in
      match nth_error entities i, nth_error entities j with
      | Some e1, Some e2 =>
          let '(e1, e2, r) := resolveCollision pe e1 e2 r in
          (store j e2 (store i e1 entities), r)
      | _, _ => st
      end)
    (findCollisions pe entities) (entities, r).

Definition AddRandomVelocity (pe : PhysicsEngine) (entity : Entity)
    (maxVelocity : F) (r : RandSource) : Entity * RandSource :=
  let '(u, r) := rand_Float64 r in
  let vx := (u - lit 0.5) * maxVelocity in
  let '(u, r) := rand_Float64 r in
  let vy := (u - lit 0.5) * maxVelocity in
  let '(currentVX, currentVY) := GetVelocity entity in
  (SetVelocity (currentVX + vx) (currentVY + vy) entity, r).

Definition withGravity (g : F) (pe : PhysicsEngine) : PhysicsEngine :=
  {| Gravity := g; AirResistance := AirResistance pe;
     Restitution := Restitution pe; StaticFriction := StaticFriction pe;
     ContactDamping := ContactDamping pe;
     MinX := MinX pe; MinY := MinY pe; MaxX := MaxX pe; MaxY := MaxY pe;
     DeltaTime := DeltaTime pe; MaxVelocity := MaxVelocity pe;
     MinVelocity := MinVelocity pe; ContactTolerance := ContactTolerance pe |}.

Definition withRestitution (e : F) (pe : PhysicsEngine) : PhysicsEngine :=
  {| Gravity := Gravity pe; AirResistance := AirResistance pe;
     Restitution := e; StaticFriction := StaticFriction pe;
     ContactDamping := ContactDamping pe;
     MinX := MinX pe; MinY := MinY pe; MaxX := MaxX pe; MaxY := MaxY pe;
     DeltaTime := DeltaTime pe; MaxVelocity := MaxVelocity pe;
     MinVelocity := MinVelocity pe; ContactTolerance := ContactTolerance pe |}.

Definition withDeltaTime (dt : F) (pe : PhysicsEngine) : PhysicsEngine :=
  {| Gravity := Gravity pe; AirResistance := AirResistance pe;
     Restitution := Restitution pe; StaticFriction := StaticFriction pe;
     ContactDamping := ContactDamping pe;
     MinX := MinX pe; MinY := MinY pe; MaxX := MaxX pe; MaxY := MaxY pe;
     DeltaTime := dt; MaxVelocity := MaxVelocity pe;
     MinVelocity := MinVelocity pe; ContactTolerance := ContactTolerance pe |}.

Definition SetGravity (gravity : F) (pe : PhysicsEngine) : PhysicsEngine :=
  if IsInf gravity || IsNaN gravity then pe else withGravity gravity pe.

Definition GetGravity (pe : PhysicsEngine) : F := Gravity pe.

Definition SetRestitution (restitution : F) (pe : PhysicsEngine) : PhysicsEngine :=
  if (restitution >=? lit 0) && (restitution <=? lit 1)
  then withRestitution restitution pe else pe.

Definition GetRestitution (pe : PhysicsEngine) : F := Restitution pe.

Definition Pause (pe : PhysicsEngine) : PhysicsEngine := withDeltaTime (lit 0) pe.
Definition Resume (pe : PhysicsEngine) : PhysicsEngine := withDeltaTime (lit 0.1) pe.
Definition IsRunning (pe : PhysicsEngine) : bool := DeltaTime pe >? lit 0.

(** *** entities.go: the registry *)

(** [EntityManager], without its mutex (see [ManagerOp] below for the
    locking of each method). *)
Record EntityManager : Type := {
  entities : list Entity;
  nextID : Z
}.

Definition NewEntityManager : EntityManager :=
  {| entities := []; nextID := 1 |}.

Definition AddEntity (entity : Entity) (em : EntityManager) : EntityManager :=
  {| entities := entities em ++ [entity]; nextID := nextID em |}.

(** The index at which the loop of [RemoveEntity] stops. *)
Fixpoint indexOfID (id : string) (l : list Entity) : option nat :=
  match l with
  | [] => None
  | entity :: rest =>
      if String.eqb (GetID entity) id then Some O
      else option_map S (indexOfID id rest)
  end.

Definition RemoveEntity (id : string) (em : EntityManager)
  : EntityManager * bool :=
  match indexOfID id (entities em) with
  | Some i =>
      ({| entities := firstn i (entities em) ++ skipn (S i) (entities em);
          nextID := nextID em |}, true)
  | None => (em, false)
  end.

Definition GetEntities (em : EntityManager) : list Entity := entities em.

Definition GetEntitiesByType (entityType : EntityType) (em : EntityManager)
  : list Entity :=
  filter (fun entity => String.eqb (GetType entity) entityType) (entities em).

Definition Clear (em : EntityManager) : EntityManager :=
  {| entities := []; nextID := nextID em |}.

Definition Count (em : EntityManager) : Z := Z.of_nat (List.length (entities em)).

Definition CountByType (entityType : EntityType) (em : EntityManager) : Z :=
  fold_left (fun count entity =>
      if String.eqb (GetType entity) entityType then (count + 1)%Z else count)
    (entities em) 0%Z.

Fixpoint EntityManager_Update_loop (deltaTime : F) (l : list Entity)
    (r : RandSource) : list Entity * RandSource :=
  match l with
  | [] => ([], r)
  | entity :: rest =>
      let '(entity, r) := Update deltaTime entity r in
      let '(rest, r) := EntityManager_Update_loop deltaTime rest r in
      (entity :: rest, r)
  end.

(** [EntityManager.Update]. *)
Definition EntityManager_Update (deltaTime : F) (em : EntityManager)
    (r : RandSource) : EntityManager * RandSource :=
  let '(l, r) := EntityManager_Update_loop deltaTime (entities em) r in
  ({| entities := l; nextID := nextID em |}, r).

Definition CheckCollisions (em : EntityManager) : list CollisionPair :=
  flat_map (fun i =>
    flat_map (fun j =>
      match nth_error (entities em) i, nth_error (entities em) j with
      | Some ei, Some ej => if CheckCollision ei ej then [(i, j)] else []
      | _, _ => []
      end)
      (seq (S i) (List.length (entities em) - S i)))
    (seq 0 (List.length (entities em))).

(** *** main.go: the tick *)

(** The simulation fields of [Model]. *)
Record Model : Type := {
  entityManager : EntityManager;
  physicsEngine : PhysicsEngine;
  paused : bool;
  ready : bool
}.

(** The [tickMsg] case of [Model.Update].  The entities are reached through
    the pointers of the snapshot, so their new states are the registry's. *)
Definition Update_tickMsg (SpringX SpringY : Spring) (m : Model) (r : RandSource)
  : Model * RandSource :=
  if ready m then
    let entities := GetEntities (entityManager m) in
    let '(entities, r) :=
      if negb (paused m) then
        let '(entities, r) := ApplyPhysics (physicsEngine m) entities r in
        HandleEntityCollisions (physicsEngine m) entities r
      else (entities, r) in
    let entities := map (EntityUpdateAnimation SpringX SpringY) entities in
    ({| entityManager := {| entities := entities;
                            nextID := nextID (entityManager m) |};
        physicsEngine := physicsEngine m;
        paused := paused m;
        ready := ready m |}, r)
  else (m, r).

(** The ["p"] key of [Model.Update]. *)
Definition Update_key_p (m : Model) : Model :=
  let paused := negb (paused m) in
  {| entityManager := entityManager m;
     physicsEngine := if paused then Pause (physicsEngine m)
                      else Resume (physicsEngine m);
     paused := paused;
     ready := ready m |}.

(** The ["c"] key of [Model.Update]. *)
Definition Update_key_c (m : Model) : Model :=
  {| entityManager := Clear (entityManager m);
     physicsEngine := physicsEngine m;
     paused := paused m;
     ready := ready m |}.

(** The ["r"] key of [Model.Update]. *)
Definition Update_key_r (m : Model) : Model :=
  {| entityManager := Clear (entityManager m);
     physicsEngine := Resume (physicsEngine m);
     paused := false;
     ready := ready m |}.

(** The ["b"] key of [Model.Update]. *)
Definition Update_key_b (m : Model) : Model :=
  let currentBounce := GetRestitution (physicsEngine m) in
  {| entityManager := entityManager m;
     physicsEngine :=
       if currentBounce <=? lit 0.1 then SetRestitution (lit 0.3) (physicsEngine m)
       else if currentBounce <=? lit 0.3 then SetRestitution (lit 0.7) (physicsEngine m)
       else if currentBounce <=? lit 0.7 then SetRestitution (lit 1.0) (physicsEngine m)
       else SetRestitution (lit 0.1) (physicsEngine m);
     paused := paused m;
     ready := ready m |}.

(** *** main.go: resizing *)

(** The body of the loop of [handleBoundaryResize]. *)
Definition handleBoundaryResize_entity (maxWidth maxHeight : F) (entity : Entity)
  : Entity :=
  let '(x, y) := GetPosition entity in
  let '(vx, vy) := GetVelocity entity in
  (* Horizontal boundary changes *)
  let '(newX, newVX) :=
    if x >=? maxWidth - lit 1 then
      (maxWidth - lit 1.5, if vx >? lit 0 then - Abs vx * lit 0.7 else vx)
    else if x <? lit 0 then
      (lit 0.5, if vx <? lit 0 then Abs vx * lit 0.7 else vx)
    else (x, vx) in
  (* Vertical boundary changes *)
  let '(newY, newVY) :=
    if y >=? maxHeight - lit 1 then
      (maxHeight - lit 1.5, if vy >? lit 0 then - Abs vy * lit 0.7 else vy)
    else if y <? lit 0 then
      (lit 0.5, if vy <? lit 0 then Abs vy * lit 0.7 else vy)
    else (y, vy) in
  let entity :=
    if negb (newX =? x) || negb (newY =? y)
    then SetImmediatePosition newX newY entity else entity in
  if negb (newVX =? vx) || negb (newVY =? vy)
  then SetVelocity newVX newVY entity else entity.

Definition handleBoundaryResize (maxWidth maxHeight : F) (m : Model) : Model :=
  {| entityManager :=
       {| entities := map (handleBoundaryResize_entity maxWidth maxHeight)
                          (GetEntities (entityManager m));
          nextID := nextID (entityManager m) |};
     physicsEngine := physicsEngine m;
     paused := paused m;
     ready := ready m |}.

End Program.

(** ** Vocabulary of the properties *)

Section Vocabulary.

Context (F : Type) `{Float64 F}.
Local Abbreviation Entity := (Entity F).
Local Abbreviation EntityManager := (EntityManager F).
Local Abbreviation PhysicsEngine := (PhysicsEngine F).
Local Open Scope go_scope.

(** What the guards of the setters test: neither infinite nor NaN. *)
Definition finite (x : F) : bool := negb (IsInf x || IsNaN x).

(** The physics state of an entity: position and velocity. *)
Definition physicsState (e : Entity) : (F * F) * (F * F) :=
  (GetPosition e, GetVelocity e).

(** *** Registry *)

Inductive RegistryCall : Type :=
| CallAdd (entity : Entity)
| CallRemove (id : string).

(** A sequence of [AddEntity] and [RemoveEntity] calls, with the number of
    adds and the number of removes that returned [true]. *)
Fixpoint runCalls (calls : list RegistryCall) (em : EntityManager)
  : EntityManager * nat * nat :=
  match calls with
  | [] => (em, O, O)
  | CallAdd entity :: rest =>
      let '(em', adds, removes) := runCalls rest (AddEntity entity em) in
      (em', S adds, removes)
  | CallRemove id :: rest =>
      let '(em1, removed) := RemoveEntity id em in
      let '(em', adds, removes) := runCalls rest em1 in
      (em', adds, if removed then S removes else removes)
  end.

(** An entity whose type is one of the two the factories assign. *)
Definition hasFactoryType (e : Entity) : Prop :=
  GetType e = SphereType \/ GetType e = SpriteType.

(** *** Collision detection *)

(** The Euclidean distance between the centres of two entities. *)
Definition centerDistance (e1 e2 : Entity) : F :=
  let '(x1, y1) := GetPosition e1 in
  let '(x2, y2) := GetPosition e2 in
  Sqrt ((x2 - x1) * (x2 - x1) + (y2 - y1) * (y2 - y1)).

(** The collision radius: half the width the entity's [GetBounds] reports. *)
Definition collisionRadius (e : Entity) : F :=
  let '(_, _, width, _) := GetBounds e in width / lit 2.

(** Two boxes [(x, y, width, height)] share at least a boundary point. *)
Definition touchOrOverlap (b1 b2 : Bounds F) : bool :=
  let '(x1, y1, w1, h1) := b1 in
  let '(x2, y2, w2, h2) := b2 in
  (x2 <=? x1 + w1) && (x1 <=? x2 + w2) && (y2 <=? y1 + h1) && (y1 <=? y2 + h2).

(** The box test in the words of the specification, both boxes being what
    the entities' [GetBounds] return. *)
Definition boxTestAsStated : Prop :=
  forall e other : Entity,
    CheckCollision e other = touchOrOverlap (GetBounds e) (GetBounds other).

(** The same, both boxes being the effective-extent boxes of
    [BaseEntity.GetBounds]. *)
Definition effectiveExtentBoxTestAsStated : Prop :=
  forall e other : Entity,
    CheckCollision e other
    = touchOrOverlap (BaseEntity_GetBounds (base e))
                     (BaseEntity_GetBounds (base other)).

(** The four edges of a box are numbers. *)
Definition hasEdges (b : Bounds F) : bool :=
  let '(x, y, w, h) := b in
  negb (IsNaN x) && negb (IsNaN (x + w)) && negb (IsNaN y) && negb (IsNaN (y + h)).

(** *** Boundary reflection *)

(** Which wall of an axis [handleBoundaryCollisions] finds the entity at:
    the box it tests is centre +- size/2, [size] the integer size class. *)
Inductive Hit : Type := HitMin | HitMax | HitNone.

Definition hitX (pe : PhysicsEngine) (e : Entity) : Hit :=
  let size := ofInt (GetSize e) in
  if fst (GetPosition e) - size / lit 2 <=? MinX pe then HitMin
  else if fst (GetPosition e) + size / lit 2 >=? MaxX pe then HitMax
  else HitNone.

Definition hitY (pe : PhysicsEngine) (e : Entity) : Hit :=
  let size := ofInt (GetSize e) in
  if snd (GetPosition e) - size / lit 2 <=? MinY pe then HitMin
  else if snd (GetPosition e) + size / lit 2 >=? MaxY pe then HitMax
  else HitNone.

(** The coordinate that puts the size box flush against the wall hit. *)
Definition clamped (hit : Hit) (lo hi size old : F) : F :=
  match hit with
  | HitMin => lo + size / lit 2
  | HitMax => hi - size / lit 2
  | HitNone => old
  end.

(** Boundary reflection in the words of the specification: the box is
    centre +- effectiveExtent/2; at each wall that box reaches, the position
    is put flush inside the wall and the velocity component normal to the
    wall becomes its negation times restitution. *)
Definition boundaryReflectionAsStated (pe : PhysicsEngine) (e : Entity) : Prop :=
  let extent := effectiveSize (GetSize e) in
  let '(x, y) := GetPosition e in
  let '(vx, vy) := GetVelocity e in
  let e' := handleBoundaryCollisions pe e in
  ((x - extent / lit 2 <=? MinX pe) = true ->
     fst (GetPosition e') = MinX pe + extent / lit 2 /\
     fst (GetVelocity e') = - vx * Restitution pe)
  /\ ((x + extent / lit 2 >=? MaxX pe) = true ->
     fst (GetPosition e') = MaxX pe - extent / lit 2 /\
     fst (GetVelocity e') = - vx * Restitution pe)
  /\ ((y - extent / lit 2 <=? MinY pe) = true ->
     snd (GetPosition e') = MinY pe + extent / lit 2 /\
     snd (GetVelocity e') = - vy * Restitution pe)
  /\ ((y + extent / lit 2 >=? MaxY pe) = true ->
     snd (GetPosition e') = MaxY pe - extent / lit 2 /\
     snd (GetVelocity e') = - vy * Restitution pe).

(** *** Collision resolution *)

(** The unit normal [resolveCollision] works with: along the line of
    centres, or along a random offset when the centres coincide. *)
Definition collisionNormal (e1 e2 : Entity) (r : RandSource F) : F * F :=
  let '(x1, y1) := GetPosition e1 in
  let '(x2, y2) := GetPosition e2 in
  let dx := x2 - x1 in
  let dy := y2 - y1 in
  let distance := Sqrt (dx * dx + dy * dy) in
  let '(dx, dy, distance) :=
    if distance =? lit 0 then
      let dx := lit 0.1 * (r 0%nat - lit 0.5) in
      let dy := lit 0.1 * (r 1%nat - lit 0.5) in
      (dx, dy, Sqrt (dx * dx + dy * dy))
    else (dx, dy, distance) in
  (dx / distance, dy / distance).

(** The velocity of [e2] relative to [e1], along [n]. *)
Definition normalSpeed (n : F * F) (e1 e2 : Entity) : F :=
  let '(vx1, vy1) := GetVelocity e1 in
  let '(vx2, vy2) := GetVelocity e2 in
  (vx2 - vx1) * fst n + (vy2 - vy1) * snd n.

Definition relativeSpeed (e1 e2 : Entity) : F :=
  let '(vx1, vy1) := GetVelocity e1 in
  let '(vx2, vy2) := GetVelocity e2 in
  Sqrt ((vx2 - vx1) * (vx2 - vx1) + (vy2 - vy1) * (vy2 - vy1)).

(** The change of velocity from [e] to [e'], along [n]. *)
Definition normalChange (n : F * F) (e e' : Entity) : F :=
  let '(vx, vy) := GetVelocity e in
  let '(vx', vy') := GetVelocity e' in
  (vx' - vx) * fst n + (vy' - vy) * snd n.

(** Collision symmetry in the words of the specification. *)
Definition collisionSymmetryAsStated (pe : PhysicsEngine) (e1 e2 : Entity)
    (r : RandSource F) : Prop :=
  let n := collisionNormal e1 e2 r in
  checkEntityCollision pe e1 e2 = true ->
  (normalSpeed n e1 e2 <? lit 0) = true ->
  let '(e1', e2', _) := resolveCollision pe e1 e2 r in
  (normalChange n e1 e1' =? - normalChange n e2 e2') = true
  /\ (normalSpeed n e1' e2' <? lit 0) = false.

(** *** Settling *)

Definition speed (e : Entity) : F :=
  let '(vx, vy) := GetVelocity e in Sqrt (vx * vx + vy * vy).

(** [n] successive calls of [capVelocity]. *)
Fixpoint capVelocityTimes (n : nat) (pe : PhysicsEngine) (e : Entity) : Entity :=
  match n with
  | O => e
  | S n => capVelocityTimes n pe (capVelocity pe e)
  end.

(** *** Pause *)

(** A zero timestep freezes the physics state, in the words of the
    specification. *)
Definition zeroTimestepFreezesAsStated (pe : PhysicsEngine)
    (entities : list Entity) (r : RandSource F) : Prop :=
  (DeltaTime pe =? lit 0) = true ->
  map physicsState (fst (ApplyPhysics pe entities r)) = map physicsState entities.

(** *** Invalid inputs *)

(** A restitution in [[0, 1]]. *)
Definition inUnit (e : F) : bool := (e >=? lit 0) && (e <=? lit 1).

(** No setter stores a non-finite number, in the words of the
    specification. *)
Definition neverStoresNonFiniteAsStated : Prop :=
  (forall x y (e : Entity),
      finite (fst (GetPosition (SetPosition x y e))) = true /\
      finite (snd (GetPosition (SetPosition x y e))) = true)
  /\ (forall vx vy (e : Entity),
      finite (fst (GetVelocity (SetVelocity vx vy e))) = true /\
      finite (snd (GetVelocity (SetVelocity vx vy e))) = true)
  /\ (forall g (pe : PhysicsEngine),
      finite (Gravity pe) = true -> finite (Gravity (SetGravity g pe)) = true)
  /\ (forall e (pe : PhysicsEngine),
      finite (Restitution pe) = true ->
      finite (Restitution (SetRestitution e pe)) = true)
  /\ (forall width height (pe : PhysicsEngine),
      finite (MaxX (UpdateBounds width height pe)) = true /\
      finite (MaxY (UpdateBounds width height pe)) = true).

(** *** Identity *)

(** What identifies an entity to the registry and the renderer: its ID, its
    type and its size class. *)
Definition identity (e : Entity) : string * EntityType * Z :=
  (GetID e, GetType e, GetSize e).

(** Whether index [k] is one of the two indices of some pair. *)
Definition involved (k : nat) (pairs : list CollisionPair) : bool :=
  existsb (fun p => Nat.eqb (fst p) k || Nat.eqb (snd p) k) pairs.

(** The body of the loop of [HandleEntityCollisions]: one pair resolved. *)
Definition resolvePair (pe : PhysicsEngine)
    (st : list Entity * RandSource F) (collision : CollisionPair)
  : list Entity * RandSource F :=
  let '(entities, r) := st in
  let '(i, j) := collision in
  match nth_error entities i, nth_error entities j with
  | Some e1, Some e2 =>
      let '(e1, e2, r) := resolveCollision pe e1 e2 r in
      (store j e2 (store i e1 entities), r)
  | _, _ => st
  end.

(** *** Containment *)

(** The size box of [handleBoundaryCollisions] lies within the walls. *)
Definition insideWalls (pe : PhysicsEngine) (e : Entity) : bool :=
  let '(x, y) := GetPosition e in
  let size := ofInt (GetSize e) in
  (MinX pe <=? x - size / lit 2) && (x + size / lit 2 <=? MaxX pe)
  && (MinY pe <=? y - size / lit 2) && (y + size / lit 2 <=? MaxY pe).

(** The field is wide and high enough for the size box. *)
Definition fitsWalls (pe : PhysicsEngine) (e : Entity) : bool :=
  let size := ofInt (GetSize e) in
  (MinX pe + size <=? MaxX pe) && (MinY pe + size <=? MaxY pe).

(** *** Sprite frames *)

(** [CurrentFrame] is an index of [Animation]. *)
Definition validFrame (s : Sprite F) : Prop :=
  (0 <= CurrentFrame s < Z.of_nat (List.length (Animation s)))%Z.

(** The symbol shown is the current frame. *)
Definition showsCurrentFrame (s : Sprite F) : Prop :=
  Symbol (Sprite_BaseEntity s)
  = nth (Z.to_nat (CurrentFrame s)) (Animation s) ""%string.

(** [n] successive calls of [NextFrame]. *)
Fixpoint Sprite_NextFrameTimes (n : nat) (s : Sprite F) : Sprite F :=
  match n with
  | O => s
  | S n => Sprite_NextFrameTimes n (Sprite_NextFrame s)
  end.

(** *** Bounds *)

(** The bounds an entity reports as [other] are those [CheckCollision]
    computes for it as receiver. *)
Definition inheritsBounds (e : Entity) : Prop :=
  GetBounds e = BaseEntity_GetBounds (base e).

End Vocabulary.

Arguments neverStoresNonFiniteAsStated F {_}.
Arguments boxTestAsStated F {_}.
Arguments effectiveExtentBoxTestAsStated F {_}.

(** ** The locking of the registry *)

Module Locking.

(** The public methods of [EntityManager]. *)
Inductive ManagerOp : Type :=
| OpAddEntity | OpRemoveEntity | OpGetEntities | OpGetEntitiesByType
| OpClear | OpCount | OpCountByType | OpUpdate | OpCheckCollisions.

(** What a method does to the mutex [em.mu] and to the field
    [em.entities], in program order. *)
Inductive Action : Type :=
| Lock | Unlock | RLock | RUnlock | ReadEntities | WriteEntities.

(** Each method, as the actions of its body; a deferred unlock comes last. *)
Definition body (op : ManagerOp) : list Action :=
  match op with
  | OpAddEntity => [Lock; ReadEntities; WriteEntities; Unlock]
  | OpRemoveEntity => [Lock; ReadEntities; WriteEntities; Unlock]
  | OpGetEntities => [RLock; ReadEntities; RUnlock]
  | OpGetEntitiesByType => [ReadEntities]
  | OpClear => [Lock; WriteEntities; Unlock]
  | OpCount => [RLock; ReadEntities; RUnlock]
  | OpCountByType => [RLock; ReadEntities; RUnlock]
  | OpUpdate => [RLock; ReadEntities; RUnlock]
  | OpCheckCollisions => [RLock; ReadEntities; RUnlock]
  end.

Definition allOps : list ManagerOp :=
  [OpAddEntity; OpRemoveEntity; OpGetEntities; OpGetEntitiesByType;
   OpClear; OpCount; OpCountByType; OpUpdate; OpCheckCollisions].

(** A [sync.RWMutex]: held by a writer, or by a number of readers. *)
Record RWMutex : Type := { writer : bool; readers : nat }.

Definition unlocked : RWMutex := {| writer := false; readers := 0 |}.

(** Whether an action can proceed (a [Lock] or [RLock] that cannot blocks). *)
Definition enabled (mu : RWMutex) (a : Action) : bool :=
  match a with
  | Lock => negb (writer mu) && Nat.eqb (readers mu) 0
  | RLock => negb (writer mu)
  | _ => true
  end.

Definition fire (mu : RWMutex) (a : Action) : RWMutex :=
  match a with
  | Lock => {| writer := true; readers := readers mu |}
  | Unlock => {| writer := false; readers := readers mu |}
  | RLock => {| writer := writer mu; readers := S (readers mu) |}
  | RUnlock => {| writer := writer mu; readers := Nat.pred (readers mu) |}
  | ReadEntities | WriteEntities => mu
  end.

(** Two accesses to [em.entities] conflict when one of them writes. *)
Definition conflict (a b : Action) : bool :=
  match a, b with
  | WriteEntities, ReadEntities | WriteEntities, WriteEntities
  | ReadEntities, WriteEntities => true
  | _, _ => false
  end.

(** One step of two goroutines running [t1] and [t2] under interleaving. *)
Inductive step : RWMutex * list Action * list Action ->
                 RWMutex * list Action * list Action -> Prop :=
| step_left mu a t1 t2 :
    enabled mu a = true -> step (mu, a :: t1, t2) (fire mu a, t1, t2)
| step_right mu a t1 t2 :
    enabled mu a = true -> step (mu, t1, a :: t2) (fire mu a, t1, t2).

Inductive reachable : RWMutex * list Action * list Action ->
                      RWMutex * list Action * list Action -> Prop :=
| reach_here s : reachable s s
| reach_step s s1 s2 : step s s1 -> reachable s1 s2 -> reachable s s2.

(** A data race: both goroutines are at conflicting accesses. *)
Definition racing (s : RWMutex * list Action * list Action) : Prop :=
  match s with
  | (_, a :: _, b :: _) => conflict a b = true
  | _ => False
  end.

Definition racingb (t1 t2 : list Action) : bool :=
  match t1, t2 with
  | a :: _, b :: _ => conflict a b
  | _, _ => false
  end.

(** Whether some interleaving of [t1] and [t2] reaches a data race. *)
Fixpoint canRace (fuel : nat) (mu : RWMutex) (t1 t2 : list Action) : bool :=
  racingb t1 t2 ||
  match fuel with
  | O => false
  | S fuel =>
      match t1 with
      | a :: t1' => enabled mu a && canRace fuel (fire mu a) t1' t2
      | [] => false
      end
      ||
      match t2 with
      | b :: t2' => enabled mu b && canRace fuel (fire mu b) t1 t2'
      | [] => false
      end
  end.

(** Two calls running concurrently on one manager can race. *)
Definition races (op1 op2 : ManagerOp) : bool :=
  canRace (List.length (body op1) + List.length (body op2)) unlocked
    (body op1) (body op2).

Definition isGetEntitiesByType (op : ManagerOp) : bool :=
  match op with OpGetEntitiesByType => true | _ => false end.

Definition writes (op : ManagerOp) : bool :=
  existsb (fun a => match a with WriteEntities => true | _ => false end) (body op).

End Locking.

(** ** Scenarios on binary64 *)

Module Scenario.

(** [NewPhysicsEngine(width, height)]. *)
Definition engine (width height : Q) : PhysicsEngine float :=
  NewPhysicsEngine (lit width) (lit height).

(** [NewSphere(x, y, size, ...)] followed by [SetVelocity(vx, vy)]. *)
Definition sphere (x y : Q) (size : Z) (vx vy : Q) : Entity float :=
  SetVelocity (lit vx) (lit vy)
    (ESphere (NewSphere (lit x) (lit y) size "#00FF00" "sphere_17_4242")).

(** [NewSprite(x, y, size, ..., "*")] followed by [SetVelocity(vx, vy)]. *)
Definition sprite (x y : Q) (size : Z) (vx vy : Q) : Entity float :=
  SetVelocity (lit vx) (lit vy)
    (ESprite (NewSprite (lit x) (lit y) size "#FF00FF" "*" "sprite_9_77" 0)).

(** [NewSphere(10, 10, 1, ...)] followed by [SetRadius(2)]. *)
Definition enlarged : Entity float :=
  ESphere (Sphere_SetRadius (lit 2)
             (NewSphere (lit 10) (lit 10) 1 "#00FF00" "sphere_17_4242")).

(** A size-1 sphere whose x coordinate is NaN, at y = 10. *)
Definition adrift : Entity float :=
  SetPosition PrimFloat.nan (lit 10) (sphere 10 10 1 0 0).

(** A random source; no scenario below draws from it. *)
Definition source : RandSource float := fun _ => lit 0.25.

(** A stand-in for the harmonica spring: it jumps to the target. *)
Definition snap : Spring float := fun _ _ target => (target, lit 0).

(** A ready model holding two entities, before and after the ["p"] key. *)
Definition running : Model float :=
  {| entityManager :=
       AddEntity (sprite 30 12 2 (-3) 1)
         (AddEntity (sphere 10 10 1 10 0) (NewEntityManager float));
     physicsEngine := engine 80 24;
     paused := false;
     ready := true |}.

End Scenario.

(** ** Scenarios in exact arithmetic *)

Module ExactScenario.

Definition engine (width height : Q) : PhysicsEngine R :=
  NewPhysicsEngine (lit width) (lit height).

Definition sphere (x y : Q) (size : Z) (vx vy : Q) : Entity R :=
  SetVelocity (lit vx) (lit vy)
    (ESphere (NewSphere (lit x) (lit y) size "#00FF00" "sphere_17_4242")).

Definition source : RandSource R := fun _ => lit 0.25.

End ExactScenario.

(** ** Properties *)

(** *** Registry *)

Section RegistryProperties.

Context (F : Type) `{Float64 F}.
Local Abbreviation Entity := (Entity F).
Local Abbreviation EntityManager := (EntityManager F).
Local Abbreviation RegistryCall := (RegistryCall F).

Lemma indexOfID_Some (id : string) (l : list Entity) (i : nat) :
  indexOfID id l = Some i ->
  exists l1 e l2,
    l = l1 ++ e :: l2 /\ List.length l1 = i /\ GetID e = id /\
    (forall e', In e' l1 -> GetID e' <> id).
Proof.
  revert i; induction l as [|a l IH]; intros i Hi; simpl in Hi.
  - discriminate.
  - destruct (String.eqb (GetID a) id) eqn:Ha.
    + injection Hi as <-. apply String.eqb_eq in Ha.
      exists [], a, l. repeat split; auto.
    + destruct (indexOfID id l) as [k|] eqn:Hk; simpl in Hi; [|discriminate].
      injection Hi as <-.
      destruct (IH k eq_refl) as (l1 & e & l2 & -> & Hlen & He & Hl1).
      exists (a :: l1), e, l2. repeat split; simpl; auto.
      intros e' [<-|Hin]; [|now apply Hl1].
      now apply String.eqb_neq.
Qed.

Lemma indexOfID_None (id : string) (l : list Entity) :
  indexOfID id l = None <-> (forall e, In e l -> GetID e <> id).
Proof.
  induction l as [|a l IH]; simpl.
  - split; [intros _ e [] | reflexivity].
  - destruct (String.eqb (GetID a) id) eqn:Ha.
    + split; [discriminate|]. intros Hall. apply String.eqb_eq in Ha.
      exfalso. apply (Hall a); auto.
    + apply String.eqb_neq in Ha.
      destruct (indexOfID id l) as [k|]; simpl.
      * split; [discriminate|]. intros Hall.
        exfalso. destruct IH as [_ IH2].
        discriminate IH2. intros e He. apply Hall. now right.
      * split; [|reflexivity]. intros _ e [<-|Hin]; auto.
        now apply IH.
Qed.

Lemma remove_at_app (l1 l2 : list Entity) (e : Entity) :
  firstn (List.length l1) (l1 ++ e :: l2)
    ++ skipn (S (List.length l1)) (l1 ++ e :: l2) = l1 ++ l2.
Proof.
  induction l1 as [|a l1 IH]; simpl; [reflexivity|].
  now f_equal.
Qed.

Lemma RemoveEntity_true (id : string) (em : EntityManager) :
  snd (RemoveEntity id em) = true ->
  exists l1 e l2,
    entities em = l1 ++ e :: l2 /\ GetID e = id /\
    (forall e', In e' l1 -> GetID e' <> id) /\
    fst (RemoveEntity id em) = {| entities := l1 ++ l2; nextID := nextID em |}.
Proof.
  unfold RemoveEntity.
  destruct (indexOfID id (entities em)) as [i|] eqn:Hi; simpl; [|discriminate].
  intros _. destruct (indexOfID_Some _ _ Hi) as (l1 & e & l2 & Hl & Hlen & He & Hl1).
  exists l1, e, l2. repeat split; auto.
  rewrite Hl, <- Hlen. now rewrite remove_at_app.
Qed.

Lemma RemoveEntity_present (id : string) (em : EntityManager) :
  snd (RemoveEntity id em) = true <->
  exists e, In e (entities em) /\ GetID e = id.
Proof.
  split.
  - intros Hr. destruct (RemoveEntity_true _ _ Hr) as (l1 & e & l2 & Hl & He & _).
    exists e. split; auto. rewrite Hl. apply in_or_app. right. now left.
  - intros (e & Hin & He). unfold RemoveEntity.
    destruct (indexOfID id (entities em)) eqn:Hi; simpl; [reflexivity|].
    exfalso. rewrite indexOfID_None in Hi. exact (Hi e Hin He).
Qed.

Lemma RemoveEntity_false (id : string) (em : EntityManager) :
  snd (RemoveEntity id em) = false -> fst (RemoveEntity id em) = em.
Proof.
  unfold RemoveEntity.
  destruct (indexOfID id (entities em)); simpl; [discriminate|reflexivity].
Qed.

Lemma Count_AddEntity (e : Entity) (em : EntityManager) :
  Count (AddEntity e em) = (Count em + 1)%Z.
Proof.
  unfold Count, AddEntity; simpl. rewrite length_app; simpl. lia.
Qed.

Lemma Count_RemoveEntity (id : string) (em : EntityManager) :
  Count (fst (RemoveEntity id em))
  = (Count em - if snd (RemoveEntity id em) then 1 else 0)%Z.
Proof.
  destruct (snd (RemoveEntity id em)) eqn:Hr.
  - destruct (RemoveEntity_true _ _ Hr) as (l1 & e & l2 & Hl & _ & _ & ->).
    unfold Count; simpl. rewrite Hl, !length_app; simpl. lia.
  - rewrite (RemoveEntity_false _ _ Hr). lia.
Qed.

Lemma runCalls_Count (calls : list RegistryCall) (em : EntityManager) :
  Count (fst (fst (runCalls calls em)))
  = (Count em + Z.of_nat (snd (fst (runCalls calls em)))
     - Z.of_nat (snd (runCalls calls em)))%Z.
Proof.
  revert em; induction calls as [|c calls IH]; intros em; simpl.
  - lia.
  - destruct c as [e|id].
    + specialize (IH (AddEntity e em)).
      destruct (runCalls calls (AddEntity e em)) as [[em' a] m]; simpl in *.
      rewrite IH, Count_AddEntity. lia.
    + pose proof (Count_RemoveEntity id em) as Hc.
      destruct (RemoveEntity id em) as [em1 ok]; simpl in Hc.
      specialize (IH em1).
      destruct (runCalls calls em1) as [[em' a] m]; simpl in *.
      rewrite IH, Hc. destruct ok; lia.
Qed.

Lemma CountByType_fold (t : EntityType) (l : list Entity) (a : Z) :
  fold_left (fun count entity =>
      if String.eqb (GetType entity) t then (count + 1)%Z else count) l a
  = (a + Z.of_nat (List.length
           (filter (fun entity => String.eqb (GetType entity) t) l)))%Z.
Proof.
  revert a; induction l as [|e l IH]; intros a; simpl; [lia|].
  rewrite IH. destruct (String.eqb (GetType e) t); simpl; lia.
Qed.

Lemma CountByType_GetEntitiesByType (t : EntityType) (em : EntityManager) :
  CountByType t em = Z.of_nat (List.length (GetEntitiesByType t em)).
Proof. unfold CountByType, GetEntitiesByType. now rewrite CountByType_fold. Qed.

Lemma factory_types_partition (l : list Entity) :
  Forall hasFactoryType l ->
  (List.length (filter (fun e => String.eqb (GetType e) SphereType) l)
   + List.length (filter (fun e => String.eqb (GetType e) SpriteType) l)
   = List.length l)%nat.
Proof.
  induction 1 as [|e l He _ IH]; simpl; [reflexivity|].
  destruct He as [He|He]; rewrite He; simpl; lia.
Qed.

(** C8.  [RemoveEntity id] returns [true] exactly when an entity with that
    ID is registered; it then removes the first such entity and nothing
    else, and otherwise leaves the registry as it was.  After any sequence
    of calls with N adds and M removes that returned [true], [Count] is
    N - M.  The factories assign the types sphere and sprite, and over a
    registry of entities of these types the two [CountByType] add up to
    [Count]. *)
Theorem EntityManager_count_invariants :
  (forall id (em : EntityManager),
      snd (RemoveEntity id em) = true <->
      exists e, In e (entities em) /\ GetID e = id)
  /\ (forall id (em : EntityManager),
      snd (RemoveEntity id em) = true ->
      exists l1 e l2,
        entities em = l1 ++ e :: l2 /\ GetID e = id /\
        (forall e', In e' l1 -> GetID e' <> id) /\
        fst (RemoveEntity id em)
        = {| entities := l1 ++ l2; nextID := nextID em |})
  /\ (forall id (em : EntityManager),
      snd (RemoveEntity id em) = false -> fst (RemoveEntity id em) = em)
  /\ (forall calls : list RegistryCall,
      Count (fst (fst (runCalls calls (NewEntityManager F))))
      = (Z.of_nat (snd (fst (runCalls calls (NewEntityManager F))))
         - Z.of_nat (snd (runCalls calls (NewEntityManager F))))%Z)
  /\ (forall x y size color id,
      hasFactoryType (ESphere (NewSphere x y size color id)))
  /\ (forall x y size color symbol id pick,
      hasFactoryType (ESprite (NewSprite x y size color symbol id pick)))
  /\ (forall em : EntityManager,
      Forall hasFactoryType (entities em) ->
      (CountByType SphereType em + CountByType SpriteType em)%Z = Count em).
Proof.
  split; [exact RemoveEntity_present|].
  split; [exact RemoveEntity_true|].
  split; [exact RemoveEntity_false|].
  split; [intros calls; rewrite runCalls_Count; reflexivity|].
  split; [intros; left; reflexivity|].
  split; [intros; right; reflexivity|].
  intros em Hall. rewrite !CountByType_GetEntitiesByType.
  unfold GetEntitiesByType, Count.
  rewrite <- (factory_types_partition Hall). lia.
Qed.

End RegistryProperties.

Section RegistryScenario.

Import Scenario.
Local Open Scope float_scope.

(** C8 at a registry holding the sphere [sphere_17_4242] and the sprite
    [sprite_9_77]. *)
Lemma EntityManager_count_invariants_two_entities :
  snd (RemoveEntity "sprite_9_77" (entityManager running)) = true
  /\ fst (RemoveEntity "no_such_id" (entityManager running))
     = entityManager running
  /\ (CountByType SphereType (entityManager running)
      + CountByType SpriteType (entityManager running))%Z
     = Count (entityManager running).
Proof.
  destruct (@EntityManager_count_invariants float binary64)
    as (Hpresent & _ & Habsent & _ & _ & _ & Htypes).
  split; [|split].
  - apply Hpresent. exists (sprite 30 12 2 (-3) 1).
    split; [right; left; reflexivity|reflexivity].
  - apply Habsent. reflexivity.
  - apply Htypes.
    change (entities (entityManager running))
      with [sphere 10 10 1 10 0; sprite 30 12 2 (-3) 1].
    constructor; [left; reflexivity|].
    constructor; [right; reflexivity|constructor].
Defined.

End RegistryScenario.

(** *** Numbers *)

Section Binary64Order.

Local Open Scope float_scope.

Lemma SFcompare_swap (x y : spec_float) :
  SFcompare y x = option_map CompOpp (SFcompare x y).
Proof.
  destruct x as [sx|sx| |sx mx ex], y as [sy|sy| |sy my ey]; simpl;
    try reflexivity;
    try (destruct sx; reflexivity); try (destruct sy; reflexivity);
    try (destruct sx, sy; reflexivity).
  change (Pos.compare_cont Eq my mx) with (Pos.compare my mx).
  change (Pos.compare_cont Eq mx my) with (Pos.compare mx my).
  rewrite (Z.compare_antisym ex ey), (Pos.compare_antisym mx my).
  destruct sx, sy; simpl; try reflexivity;
    destruct (ex ?= ey)%Z; simpl; try reflexivity;
    destruct (mx ?= my)%positive; reflexivity.
Qed.

Lemma SFcompare_number (x y : spec_float) :
  SFeqb x x = true -> SFeqb y y = true -> exists c, SFcompare x y = Some c.
Proof.
  unfold SFeqb.
  destruct x as [sx|sx| |sx mx ex], y as [sy|sy| |sy my ey]; simpl;
    try discriminate; intros _ _; eexists; reflexivity.
Qed.

(** On numbers, [x < y] fails exactly when [y <= x]. *)
Lemma ltb_false_leb (x y : float) :
  is_nan x = false -> is_nan y = false -> (x <? y) = negb (y <=? x).
Proof.
  unfold is_nan. rewrite !FloatAxioms.eqb_spec, FloatAxioms.ltb_spec, FloatAxioms.leb_spec.
  intros Hx Hy. apply negb_false_iff in Hx, Hy.
  destruct (SFcompare_number _ _ Hx Hy) as [c Hc].
  unfold SFltb, SFleb. rewrite (SFcompare_swap (Prim2SF x) (Prim2SF y)), Hc.
  destruct c; reflexivity.
Qed.

End Binary64Order.

Section ExactOrder.

Lemma Exact_ltb_lt (x y : R) : Exact.ltb x y = true <-> (x < y)%R.
Proof. unfold Exact.ltb. destruct (Rlt_dec x y); split; auto; discriminate. Qed.

Lemma Exact_ltb_ge (x y : R) : Exact.ltb x y = false <-> (y <= x)%R.
Proof.
  unfold Exact.ltb. destruct (Rlt_dec x y); split; auto; try discriminate; lra.
Qed.

Lemma Exact_leb_le (x y : R) : Exact.leb x y = true <-> (x <= y)%R.
Proof. unfold Exact.leb. destruct (Rle_dec x y); split; auto; discriminate. Qed.

Lemma Exact_leb_gt (x y : R) : Exact.leb x y = false <-> (y < x)%R.
Proof.
  unfold Exact.leb. destruct (Rle_dec x y); split; auto; try discriminate; lra.
Qed.

Lemma Exact_eqb_eq (x y : R) : Exact.eqb x y = true <-> x = y.
Proof. unfold Exact.eqb. destruct (Req_dec_T x y); split; auto; discriminate. Qed.

End ExactOrder.

(** *** Collision detection *)

Section Detection.

Import Scenario.

Lemma checkEntityCollision_unfold (F : Type) `{Float64 F}
    (pe : PhysicsEngine F) (e1 e2 : Entity F) :
  checkEntityCollision pe e1 e2
  = flt (centerDistance e1 e2)
        (fsub (fadd (collisionRadius e1) (collisionRadius e2))
              (ContactTolerance pe)).
Proof. destruct e1, e2; reflexivity. Qed.

(** [findCollisions] tests every unordered pair once: it returns the pairs
    of indices [i < j] whose entities [checkEntityCollision] accepts. *)
Lemma findCollisions_pairs (F : Type) `{Float64 F}
    (pe : PhysicsEngine F) (entities : list (Entity F)) (i j : nat) :
  In (i, j) (findCollisions pe entities) <->
  (i < j)%nat /\
  exists ei ej,
    nth_error entities i = Some ei /\ nth_error entities j = Some ej /\
    checkEntityCollision pe ei ej = true.
Proof.
  unfold findCollisions. rewrite in_flat_map. split.
  - intros (i0 & Hi0 & Hin). apply in_flat_map in Hin.
    destruct Hin as (j0 & Hj0 & Hin). apply in_seq in Hj0.
    destruct (nth_error entities i0) as [ei|] eqn:Hei; [|destruct Hin].
    destruct (nth_error entities j0) as [ej|] eqn:Hej; [|destruct Hin].
    destruct (checkEntityCollision pe ei ej) eqn:Hc; [|destruct Hin].
    destruct Hin as [Heq|[]]. injection Heq as <- <-.
    split; [lia|]. exists ei, ej. auto.
  - intros (Hlt & ei & ej & Hei & Hej & Hc).
    assert (Hj : (j < List.length entities)%nat)
      by (apply nth_error_Some; congruence).
    exists i. split; [apply in_seq; lia|].
    apply in_flat_map. exists j. split; [apply in_seq; lia|].
    rewrite Hei, Hej, Hc. now left.
Qed.

(** Decimal constants denote the same binary64 numbers as Rocq's float
    literals. *)
Lemma binary64_literals :
  (lit 0.8 : float) = 0.8%float /\ (lit 1.3 : float) = 1.3%float
  /\ (lit 0.05 : float) = 0.05%float /\ (lit 0.7 : float) = 0.7%float
  /\ (lit 0.95 : float) = 0.95%float /\ (lit 0.1 : float) = 0.1%float
  /\ (lit 25.0 : float) = 25%float /\ (lit 0.01 : float) = 0.01%float.
Proof. repeat split; vm_compute; reflexivity. Qed.

(** C2, as the code has it.  [findCollisions] applies
    [checkEntityCollision] to every unordered pair, and
    [checkEntityCollision] reports a collision
    exactly when the distance between the centres is below
    (r1 + r2) - ContactTolerance, each radius half the width of the entity's
    [GetBounds]: the sphere's own [Radius * 2] for a sphere, the size table
    for a sprite.  On binary64 and with the default tolerance 0.1, size-2
    spheres (extent 1.0) at (10,10) and (10.5,10.5) collide, and so do
    size-1 spheres (extent 0.8) at (10,10) and (10.6,10); size-1 spheres at
    (10,10) and (10.5,10.5) do not (their distance 0.7071 is not below
    0.8 - 0.1), nor do those at (10,10) and (20,20). *)
Theorem checkEntityCollision_distance_test :
  (forall (F : Type) (H : Float64 F) (pe : PhysicsEngine F)
          (entities : list (Entity F)) (i j : nat),
      In (i, j) (findCollisions pe entities) <->
      (i < j)%nat /\
      exists ei ej,
        nth_error entities i = Some ei /\ nth_error entities j = Some ej /\
        checkEntityCollision pe ei ej = true)
  /\ (forall (F : Type) (H : Float64 F) (pe : PhysicsEngine F) (e1 e2 : Entity F),
      checkEntityCollision pe e1 e2
      = flt (centerDistance e1 e2)
            (fsub (fadd (collisionRadius e1) (collisionRadius e2))
                  (ContactTolerance pe)))
  /\ (forall (pe : PhysicsEngine R) (e1 e2 : Entity R),
      checkEntityCollision pe e1 e2 = true <->
      (centerDistance e1 e2
       < collisionRadius e1 + collisionRadius e2 - ContactTolerance pe)%R)
  /\ (forall (F : Type) (H : Float64 F) (s : Sphere F),
      collisionRadius (ESphere s) = fdiv (fmul (Radius s) (lit 2)) (lit 2))
  /\ (forall (F : Type) (H : Float64 F) (s : Sprite F),
      collisionRadius (ESprite s)
      = fdiv (effectiveSize (Size (Sprite_BaseEntity s))) (lit 2))
  /\ checkEntityCollision (engine 100 50)
       (sphere 10 10 2 0 0) (sphere 10.5 10.5 2 0 0) = true
  /\ checkEntityCollision (engine 100 50)
       (sphere 10 10 1 0 0) (sphere 10.6 10 1 0 0) = true
  /\ checkEntityCollision (engine 100 50)
       (sphere 10 10 1 0 0) (sphere 10.5 10.5 1 0 0) = false
  /\ checkEntityCollision (engine 100 50)
       (sphere 10 10 1 0 0) (sphere 20 20 1 0 0) = false.
Proof.
  split; [intros; apply findCollisions_pairs|].
  split; [intros; apply checkEntityCollision_unfold|].
  split; [intros; rewrite checkEntityCollision_unfold; apply Exact_ltb_lt|].
  split; [reflexivity|].
  split; [reflexivity|].
  repeat split; vm_compute; reflexivity.
Qed.

(** C2, the scenario of the specification: the two size-1 spheres centred
    at (10,10) and (10.5,10.5) are not detected as colliding. *)
Lemma checkEntityCollision_scenario_not_colliding :
  checkEntityCollision (engine 100 50)
    (sphere 10 10 1 0 0) (sphere 10.5 10.5 1 0 0) <> true.
Proof. vm_compute. discriminate. Qed.

Lemma CheckCollision_unfold (F : Type) `{Float64 F} (e other : Entity F) :
  CheckCollision e other
  = (let '(x1, y1, w1, h1) := BaseEntity_GetBounds (base e) in
     let '(x2, y2, w2, h2) := GetBounds other in
     negb (flt (fadd x1 w1) x2 || flt (fadd x2 w2) x1
           || flt (fadd y1 h1) y2 || flt (fadd y2 h2) y1)).
Proof. reflexivity. Qed.




End Detection.

(** *** Setters and getters *)

Section Accessors.

Context (F : Type) `{Float64 F}.
Local Abbreviation Entity := (Entity F).

Lemma GetPosition_SetVelocity (vx vy : F) (e : Entity) :
  GetPosition (SetVelocity vx vy e) = GetPosition e.
Proof. destruct e; reflexivity. Qed.

Lemma GetPosition_SetImmediatePosition (x y : F) (e : Entity) :
  GetPosition (SetImmediatePosition x y e) = (x, y).
Proof. destruct e; reflexivity. Qed.

Lemma GetVelocity_SetImmediatePosition (x y : F) (e : Entity) :
  GetVelocity (SetImmediatePosition x y e) = GetVelocity e.
Proof. destruct e; reflexivity. Qed.

Lemma GetPosition_SetPosition (x y : F) (e : Entity) :
  GetPosition (SetPosition x y e) = (x, y).
Proof. destruct e; reflexivity. Qed.

Lemma GetVelocity_SetVelocity_raw (vx vy : F) (e : Entity) :
  GetVelocity (SetVelocity vx vy e)
  = (if IsInf vx || IsNaN vx then lit 0 else vx,
     if IsInf vy || IsNaN vy then lit 0 else vy).
Proof. destruct e; reflexivity. Qed.

Lemma finite_keeps (v : F) :
  finite v = true -> (if IsInf v || IsNaN v then lit 0 else v) = v.
Proof.
  unfold finite. intros Hv. apply negb_true_iff in Hv. now rewrite Hv.
Qed.

Lemma GetVelocity_SetVelocity (vx vy : F) (e : Entity) :
  finite vx = true -> finite vy = true ->
  GetVelocity (SetVelocity vx vy e) = (vx, vy).
Proof.
  intros Hx Hy. rewrite GetVelocity_SetVelocity_raw.
  now rewrite (finite_keeps _ Hx), (finite_keeps _ Hy).
Qed.

Lemma GetSize_SetVelocity (vx vy : F) (e : Entity) :
  GetSize (SetVelocity vx vy e) = GetSize e.
Proof. destruct e; reflexivity. Qed.

Lemma GetType_onBase (f : BaseEntity F -> BaseEntity F) (e : Entity) :
  (forall b, Type_ (f b) = Type_ b) -> GetType (onBase f e) = GetType e.
Proof. intros Hf. destruct e; simpl; apply Hf. Qed.

End Accessors.

(** *** Boundary reflection *)

Section Boundary.

Context (F : Type) `{Float64 F}.
Local Abbreviation Entity := (Entity F).
Local Abbreviation PhysicsEngine := (PhysicsEngine F).
Local Open Scope go_scope.

(** [handleBoundaryCollisions], by the wall found on each axis. *)
Lemma handleBoundaryCollisions_by_hit (pe : PhysicsEngine) (e : Entity)
    (x y vx vy : F) :
  GetPosition e = (x, y) -> GetVelocity e = (vx, vy) ->
  let size := ofInt (GetSize e) in
  let newX := clamped (hitX pe e) (MinX pe) (MaxX pe) size x in
  let newY := clamped (hitY pe e) (MinY pe) (MaxY pe) size y in
  let e1 :=
    match hitX pe e with
    | HitNone => e
    | _ => SetVelocity (- vx * Restitution pe) vy (SetImmediatePosition newX y e)
    end in
  handleBoundaryCollisions pe e
  = match hitY pe e with
    | HitNone => e1
    | _ => SetVelocity vx (- vy * Restitution pe) (SetImmediatePosition newX newY e1)
    end.
Proof.
  intros Hp Hv. unfold handleBoundaryCollisions, hitX, hitY, clamped.
  rewrite Hp, Hv; simpl.
  destruct (x - ofInt (GetSize e) / lit 2 <=? MinX pe);
    [|destruct (x + ofInt (GetSize e) / lit 2 >=? MaxX pe)];
    (destruct (y - ofInt (GetSize e) / lit 2 <=? MinY pe);
     [|destruct (y + ofInt (GetSize e) / lit 2 >=? MaxY pe)]);
    reflexivity.
Qed.

(** C1, as the code has it.  The box [handleBoundaryCollisions] tests is
    centre +- size/2, with [size] the integer size class (not the effective
    extent).  On each axis where that box reaches a wall, the coordinate
    becomes wall +- size/2, the X axis first and the Y correction keeping
    the corrected X.  When a wall of one axis only is reached, the velocity
    component normal to it becomes its negation times restitution and the
    other component is unchanged.  When walls of both axes are reached the
    Y component becomes its negation times restitution; nothing is said
    here of the X component in that case.  Velocities are taken finite, as
    [SetVelocity] resets any other to zero. *)
Theorem handleBoundaryCollisions_reflects (pe : PhysicsEngine) (e : Entity)
    (x y vx vy : F) :
  GetPosition e = (x, y) -> GetVelocity e = (vx, vy) ->
  finite vx = true -> finite vy = true ->
  finite (- vx * Restitution pe) = true ->
  finite (- vy * Restitution pe) = true ->
  let size := ofInt (GetSize e) in
  let e' := handleBoundaryCollisions pe e in
  GetPosition e'
  = (clamped (hitX pe e) (MinX pe) (MaxX pe) size x,
     clamped (hitY pe e) (MinY pe) (MaxY pe) size y)
  /\ (hitX pe e = HitNone -> hitY pe e = HitNone -> e' = e)
  /\ (hitX pe e <> HitNone -> hitY pe e = HitNone ->
      GetVelocity e' = (- vx * Restitution pe, vy))
  /\ (hitX pe e = HitNone -> hitY pe e <> HitNone ->
      GetVelocity e' = (vx, - vy * Restitution pe))
  /\ (hitY pe e <> HitNone ->
      snd (GetVelocity e') = - vy * Restitution pe).
Proof.
  intros Hp Hv Fx Fy Frx Fry size e'. subst e'.
  rewrite (@handleBoundaryCollisions_by_hit pe e x y vx vy Hp Hv). fold size.
  destruct (hitX pe e), (hitY pe e); unfold clamped;
    repeat split;
    try (intros; congruence);
    intros;
    rewrite ?GetPosition_SetVelocity, ?GetPosition_SetImmediatePosition;
    rewrite ?GetVelocity_SetVelocity by assumption;
    auto.
Qed.

(** In a corner the call of [SetVelocity] on the Y axis passes the X
    velocity read on entry: the reflection made on the X axis is undone. *)
Lemma handleBoundaryCollisions_corner_keeps_vx (pe : PhysicsEngine) (e : Entity)
    (x y vx vy : F) :
  GetPosition e = (x, y) -> GetVelocity e = (vx, vy) ->
  finite vx = true ->
  hitX pe e <> HitNone -> hitY pe e <> HitNone ->
  fst (GetVelocity (handleBoundaryCollisions pe e)) = vx.
Proof.
  intros Hp Hv Fx Hx Hy.
  rewrite (@handleBoundaryCollisions_by_hit pe e x y vx vy Hp Hv).
  destruct (hitX pe e), (hitY pe e); try congruence;
    rewrite GetVelocity_SetVelocity_raw; cbn [fst];
    apply finite_keeps; exact Fx.
Qed.

End Boundary.

Section BoundaryScenarios.

Import Scenario.
Local Open Scope float_scope.

(** C1 at the scenario of the specification: a size-2 sphere at (0.5, 10)
    moving left at 5 in the 20 x 20 engine is put at x = 2 and leaves the
    wall at 3.5. *)
Lemma handleBoundaryCollisions_reflects_left_wall :
  GetPosition (handleBoundaryCollisions (engine 20 20) (sphere 0.5 10 2 (-5) 0))
  = (2, 10)
  /\ GetVelocity (handleBoundaryCollisions (engine 20 20) (sphere 0.5 10 2 (-5) 0))
     = (3.5, 0).
Proof.
  destruct (@handleBoundaryCollisions_reflects float binary64
              (engine 20 20) (sphere 0.5 10 2 (-5) 0) 0.5 10 (-5) 0
              eq_refl eq_refl eq_refl eq_refl eq_refl eq_refl)
    as (Hpos & _ & Hvel & _).
  split; [exact Hpos|].
  apply Hvel; [vm_compute; discriminate | vm_compute; reflexivity].
Defined.

(** C1, as stated, fails on a size-1 sphere at (1.2, 1.2) moving at
    (-5, -5) towards the corner of the 20 x 20 engine: it is put at
    (1.5, 1.5), not at (1.4, 1.4), and its X velocity is still -5. *)
Lemma handleBoundaryCollisions_corner_not_as_stated :
  ~ boundaryReflectionAsStated (engine 20 20) (sphere 1.2 1.2 1 (-5) (-5))
  /\ GetPosition (handleBoundaryCollisions (engine 20 20)
                    (sphere 1.2 1.2 1 (-5) (-5))) = (1.5, 1.5)
  /\ GetVelocity (handleBoundaryCollisions (engine 20 20)
                    (sphere 1.2 1.2 1 (-5) (-5))) = (-5, 3.5).
Proof.
  split; [|split; vm_compute; reflexivity].
  intros [Hleft _].
  assert (Hc : (fsub (fst (GetPosition (sphere 1.2 1.2 1 (-5) (-5))))
                  (fdiv (effectiveSize (GetSize (sphere 1.2 1.2 1 (-5) (-5))))
                        (lit 2)) <=? MinX (engine 20 20)) = true)
    by (vm_compute; reflexivity).
  destruct (Hleft Hc) as [_ Hvx].
  apply (f_equal (fun v => v =? 3.5)) in Hvx.
  vm_compute in Hvx. discriminate.
Qed.

End BoundaryScenarios.

(** *** Pause *)

Section ZeroTimestep.

Context (F : Type) `{Float64 F}.
Local Open Scope go_scope.

Lemma GetPosition_ApplyForce (fx fy : F) (e : Entity F) :
  GetPosition (ApplyForce fx fy e) = GetPosition e.
Proof.
  destruct e as [s|s]; unfold ApplyForce, onBase, BaseEntity_ApplyForce, GetPosition; cbn [base Sphere_BaseEntity Sprite_BaseEntity];
  match goal with |- context [if ?c then _ else _] => destruct c end; reflexivity.
Qed.

Lemma GetSize_ApplyForce (fx fy : F) (e : Entity F) :
  GetSize (ApplyForce fx fy e) = GetSize e.
Proof.
  destruct e as [s|s]; unfold ApplyForce, onBase, BaseEntity_ApplyForce, GetSize; cbn [base Sphere_BaseEntity Sprite_BaseEntity];
  match goal with |- context [if ?c then _ else _] => destruct c end; reflexivity.
Qed.

Lemma GetVelocity_Update (dt : F) (e : Entity F) (r : RandSource F) :
  GetVelocity (fst (Update dt e r)) = GetVelocity e.
Proof.
  destruct e as [s|s]; [reflexivity|].
  unfold Update, Sprite_Update, rand_Float64.
  destruct (r 0%nat <? lit 0.1); [|reflexivity].
  unfold Sprite_NextFrame. cbn [Animation Sprite_BaseEntity].
  destruct (1 <? Z.of_nat (List.length (Animation s)))%Z; reflexivity.
Qed.

Lemma GetSize_Update (dt : F) (e : Entity F) (r : RandSource F) :
  GetSize (fst (Update dt e r)) = GetSize e.
Proof.
  destruct e as [s|s]; [reflexivity|].
  unfold Update, Sprite_Update, rand_Float64.
  destruct (r 0%nat <? lit 0.1); [|reflexivity].
  unfold Sprite_NextFrame. cbn [Animation Sprite_BaseEntity].
  destruct (1 <? Z.of_nat (List.length (Animation s)))%Z; reflexivity.
Qed.

Lemma GetPosition_Update (dt : F) (e : Entity F) (r : RandSource F) :
  GetPosition (fst (Update dt e r))
  = (fst (GetPosition e) + fst (GetVelocity e) * dt,
     snd (GetPosition e) + snd (GetVelocity e) * dt).
Proof.
  destruct e as [s|s]; [reflexivity|].
  unfold Update, Sprite_Update, rand_Float64.
  destruct (r 0%nat <? lit 0.1); [|reflexivity].
  unfold Sprite_NextFrame. cbn [Animation Sprite_BaseEntity].
  destruct (1 <? Z.of_nat (List.length (Animation s)))%Z; reflexivity.
Qed.

Lemma hitX_ext (pe : PhysicsEngine F) (e e' : Entity F) :
  GetPosition e' = GetPosition e -> GetSize e' = GetSize e ->
  hitX pe e' = hitX pe e.
Proof. unfold hitX. now intros -> ->. Qed.

Lemma hitY_ext (pe : PhysicsEngine F) (e e' : Entity F) :
  GetPosition e' = GetPosition e -> GetSize e' = GetSize e ->
  hitY pe e' = hitY pe e.
Proof. unfold hitY. now intros -> ->. Qed.

Lemma handleBoundaryCollisions_clear (pe : PhysicsEngine F) (e : Entity F) :
  hitX pe e = HitNone -> hitY pe e = HitNone ->
  handleBoundaryCollisions pe e = e.
Proof.
  intros Hx Hy.
  rewrite (@handleBoundaryCollisions_by_hit F _ pe e _ _ _ _
             (surjective_pairing _) (surjective_pairing _)).
  now rewrite Hx, Hy.
Qed.

Lemma GetPosition_capVelocity (pe : PhysicsEngine F) (e : Entity F) :
  GetPosition (capVelocity pe e) = GetPosition e.
Proof.
  unfold capVelocity. destruct (GetVelocity e) as [vx vy].
  cbv zeta.
  match goal with |- context [if ?c then (_, _) else _] => destruct c end;
  apply GetPosition_SetVelocity.
Qed.

Lemma GetVelocity_capVelocity_ext (pe : PhysicsEngine F) (e e' : Entity F) :
  GetVelocity e' = GetVelocity e ->
  GetVelocity (capVelocity pe e') = GetVelocity (capVelocity pe e).
Proof.
  intros Hv. unfold capVelocity. rewrite Hv. destruct (GetVelocity e) as [vx vy].
  cbv zeta.
  match goal with |- context [if ?c then (_, _) else _] => destruct c end;
  now rewrite !GetVelocity_SetVelocity_raw.
Qed.

End ZeroTimestep.

Section ExactZero.
Local Open Scope R_scope.

Lemma applyGravity_zero_timestep (pe : PhysicsEngine R) (e : Entity R) :
  DeltaTime pe = 0 -> physicsState (applyGravity pe e) = physicsState e.
Proof.
  intros Hdt. unfold physicsState, applyGravity. rewrite GetPosition_ApplyForce.
  f_equal. rewrite Hdt.
  destruct e as [s|s]; unfold ApplyForce, onBase, BaseEntity_ApplyForce, GetVelocity, BaseEntity_GetVelocity;
    cbn [base Sphere_BaseEntity Sprite_BaseEntity];
    cbn [flt fadd fmul fdiv exact lit]; unfold Exact.ltb;
    match goal with |- context [Rlt_dec ?a ?b] => destruct (Rlt_dec a b) as [Hm|Hm] end;
    try reflexivity; cbn [VX VY]; unfold Q2R in *; simpl in Hm |- *;
    apply pair_equal_spec; split; field; lra.
Qed.

Lemma Mass_ApplyForce (fx fy : R) (e : Entity R) :
  Mass (base (ApplyForce fx fy e)) = Mass (base e).
Proof.
  destruct e as [s|s]; unfold ApplyForce, onBase, BaseEntity_ApplyForce;
    cbn [base Sphere_BaseEntity Sprite_BaseEntity];
    match goal with |- context [if ?c then _ else _] => destruct c end;
    reflexivity.
Qed.

Lemma GetVelocity_applyAirResistance_ext (pe : PhysicsEngine R) (e e' : Entity R) :
  GetVelocity e' = GetVelocity e -> Mass (base e') = Mass (base e) ->
  GetVelocity (applyAirResistance pe e') = GetVelocity (applyAirResistance pe e).
Proof.
  intros Hv Hm. unfold applyAirResistance. rewrite Hv.
  destruct (GetVelocity e) as [vx vy] eqn:Hve.
  destruct e as [s|s], e' as [s'|s'];
    unfold ApplyForce, onBase, BaseEntity_ApplyForce, GetVelocity,
      BaseEntity_GetVelocity in *;
    cbn [base Sphere_BaseEntity Sprite_BaseEntity] in *;
    rewrite Hm;
    match goal with |- context [if ?c then _ else _] => destruct c end;
    cbn [VX VY]; congruence.
Qed.

(** With a zero timestep and away from the walls, [ApplyPhysics] keeps the
    position and adds no gravity; the velocity is the one air resistance
    and [capVelocity] leave. *)
Lemma ApplyPhysics_entity_zero_timestep (pe : PhysicsEngine R) (e : Entity R)
    (r : RandSource R) :
  DeltaTime pe = 0 -> hitX pe e = HitNone -> hitY pe e = HitNone ->
  GetPosition (fst (ApplyPhysics_entity pe e r)) = GetPosition e
  /\ GetVelocity (fst (ApplyPhysics_entity pe e r))
     = GetVelocity (capVelocity pe (applyAirResistance pe e)).
Proof.
  intros Hdt Hx Hy. unfold ApplyPhysics_entity, updatePosition.
  pose proof (applyGravity_zero_timestep pe e Hdt) as Hg.
  apply pair_equal_spec in Hg. destruct Hg as [Hgp Hgv].
  set (e1 := applyGravity pe e) in *.
  set (e2 := applyAirResistance pe e1).
  assert (Hp2 : GetPosition e2 = GetPosition e).
  { unfold e2, applyAirResistance. destruct (GetVelocity e1).
    now rewrite GetPosition_ApplyForce. }
  assert (Hs2 : GetSize e2 = GetSize e).
  { unfold e2, applyAirResistance. destruct (GetVelocity e1).
    rewrite GetSize_ApplyForce. apply GetSize_ApplyForce. }
  assert (Hv2 : GetVelocity e2 = GetVelocity (applyAirResistance pe e)).
  { apply GetVelocity_applyAirResistance_ext; [exact Hgv|].
    apply Mass_ApplyForce. }
  pose proof (@GetPosition_Update R exact (DeltaTime pe) e2 r) as Hp3.
  pose proof (@GetVelocity_Update R exact (DeltaTime pe) e2 r) as Hv3.
  pose proof (@GetSize_Update R exact (DeltaTime pe) e2 r) as Hs3.
  destruct (Update (DeltaTime pe) e2 r) as [e3 r3]. cbn [fst] in *.
  assert (Hp3' : GetPosition e3 = GetPosition e).
  { rewrite Hp3, Hdt, Hp2. destruct (GetPosition e) as [x y].
    cbn [fst snd fadd fmul exact]. apply pair_equal_spec; split; ring. }
  rewrite (@handleBoundaryCollisions_clear R exact pe e3).
  - split.
    + now rewrite GetPosition_capVelocity.
    + rewrite <- (@GetVelocity_capVelocity_ext R exact pe (applyAirResistance pe e) e3);
        [reflexivity|]. congruence.
  - rewrite <- Hx. apply hitX_ext; congruence.
  - rewrite <- Hy. apply hitY_ext; congruence.
Qed.

End ExactZero.


Section Pause.

Context (F : Type) `{Float64 F}.
Local Abbreviation Entity := (Entity F).

Lemma physicsState_EntityUpdateAnimation (SpringX SpringY : Spring F) (e : Entity) :
  physicsState (EntityUpdateAnimation SpringX SpringY e) = physicsState e.
Proof. destruct e; reflexivity. Qed.

Lemma physicsState_map_EntityUpdateAnimation (SpringX SpringY : Spring F)
    (l : list Entity) :
  map physicsState (map (EntityUpdateAnimation SpringX SpringY) l)
  = map physicsState l.
Proof.
  induction l as [|e l IH]; simpl; [reflexivity|].
  now rewrite physicsState_EntityUpdateAnimation, IH.
Qed.

End Pause.

(** C4, as the code has it.  The ["p"] key toggles the model's [paused]
    flag and zeroes the engine's timestep with it.  While the flag is set
    the tick calls neither [ApplyPhysics] nor [HandleEntityCollisions]:
    the position and the velocity of every entity are unchanged by the
    tick, no random number is drawn, and only the animation advances.
    [ApplyPhysics] itself, run with a zero timestep in exact arithmetic on
    an entity away from the walls, keeps the position and adds no gravity,
    and leaves the velocity that air resistance and [capVelocity] produce. *)
Theorem paused_tick_keeps_physics_state :
  (forall (F : Type) (H : Float64 F) (m : Model F),
      paused (Update_key_p m) = negb (paused m) /\
      (paused (Update_key_p m) = true ->
       DeltaTime (physicsEngine (Update_key_p m)) = lit 0))
  /\ (forall (F : Type) (H : Float64 F) (SpringX SpringY : Spring F)
            (m : Model F) (r : RandSource F),
      paused m = true ->
      map physicsState
          (entities (entityManager (fst (Update_tickMsg SpringX SpringY m r))))
      = map physicsState (entities (entityManager m))
      /\ snd (Update_tickMsg SpringX SpringY m r) = r
      /\ (ready m = true ->
          entities (entityManager (fst (Update_tickMsg SpringX SpringY m r)))
          = map (EntityUpdateAnimation SpringX SpringY)
                (entities (entityManager m))))
  /\ (forall (pe : PhysicsEngine R) (e : Entity R) (r : RandSource R),
      DeltaTime pe = 0%R -> hitX pe e = HitNone -> hitY pe e = HitNone ->
      GetPosition (fst (ApplyPhysics_entity pe e r)) = GetPosition e
      /\ GetVelocity (fst (ApplyPhysics_entity pe e r))
         = GetVelocity (capVelocity pe (applyAirResistance pe e))).
Proof.
  split; [|split].
  - intros F H m. split; [reflexivity|]. unfold Update_key_p; simpl.
    intros ->. reflexivity.
  - intros F H SpringX SpringY m r Hp. unfold Update_tickMsg.
    destruct (ready m); rewrite ?Hp; simpl.
    + rewrite physicsState_map_EntityUpdateAnimation. repeat split.
    + repeat split. discriminate.
  - apply ApplyPhysics_entity_zero_timestep.
Qed.

Section PauseScenarios.

Import Scenario.
Local Open Scope float_scope.

Lemma clear_of_walls_exact :
  hitX (Pause (ExactScenario.engine 100 50))
       (ExactScenario.sphere 10 10 1 10 0) = HitNone
  /\ hitY (Pause (ExactScenario.engine 100 50))
          (ExactScenario.sphere 10 10 1 10 0) = HitNone.
Proof.
  unfold hitX, hitY, ExactScenario.sphere, ExactScenario.engine.
  rewrite !GetPosition_SetVelocity, !GetSize_SetVelocity.
  cbn [GetPosition GetSize base BaseEntity_GetPosition NewSphere
       Sphere_BaseEntity X Y Size Z.ltb Z.compare fst snd Pause withDeltaTime
       NewPhysicsEngine MinX MinY MaxX MaxY].
  cbn [fle fsub fadd fdiv ofInt lit exact].
  unfold Q2R; cbn [Qnum Qden].
  replace (Exact.leb (100 * / 1) (0 * / 1)) with false
    by (symmetry; apply Exact_leb_gt; lra).
  replace (Exact.leb (50 * / 1) (0 * / 1)) with false
    by (symmetry; apply Exact_leb_gt; lra).
  replace (Exact.leb (10 * / 1 - 1 / (2 * / 1)) (10 * / 10)) with false
    by (symmetry; apply Exact_leb_gt; lra).
  replace (Exact.leb (100 * / 1 - 20 * / 10) (10 * / 1 + 1 / (2 * / 1)))
    with false by (symmetry; apply Exact_leb_gt; lra).
  replace (Exact.leb (50 * / 1 - 20 * / 10) (10 * / 1 + 1 / (2 * / 1)))
    with false by (symmetry; apply Exact_leb_gt; lra).
  split; reflexivity.
Qed.

(** C4 at a model paused by the ["p"] key, and at a paused engine with a
    sphere in the middle of the field. *)
Lemma paused_tick_keeps_physics_state_after_key_p :
  DeltaTime (physicsEngine (Update_key_p running)) = lit 0
  /\ map physicsState
       (entities (entityManager
          (fst (Update_tickMsg snap snap (Update_key_p running) source))))
     = map physicsState (entities (entityManager (Update_key_p running)))
  /\ GetPosition (fst (ApplyPhysics_entity (Pause (ExactScenario.engine 100 50))
                         (ExactScenario.sphere 10 10 1 10 0)
                         ExactScenario.source))
     = GetPosition (ExactScenario.sphere 10 10 1 10 0).
Proof.
  destruct paused_tick_keeps_physics_state as (Hkey & Htick & Hzero).
  split; [|split].
  - apply (proj2 (Hkey float binary64 running)). reflexivity.
  - apply (Htick float binary64 snap snap (Update_key_p running) source).
    reflexivity.
  - apply (Hzero (Pause (ExactScenario.engine 100 50))
             (ExactScenario.sphere 10 10 1 10 0) ExactScenario.source).
    + cbn [DeltaTime Pause withDeltaTime lit exact]. unfold Q2R; simpl. lra.
    + apply clear_of_walls_exact.
    + apply clear_of_walls_exact.
Defined.

(** C4, as stated, fails: with the timestep at zero, [ApplyPhysics] leaves a
    size-1 sphere at (10, 10) in place but slows it from 10 to 9.375 by air
    resistance. *)
Lemma ApplyPhysics_zero_timestep_not_as_stated :
  ~ zeroTimestepFreezesAsStated (Pause (engine 100 50))
      [sphere 10 10 1 10 0] source
  /\ map physicsState [sphere 10 10 1 10 0] = [((10, 10), (10, 0))]
  /\ map physicsState
       (fst (ApplyPhysics (Pause (engine 100 50)) [sphere 10 10 1 10 0] source))
     = [((10, 10), (9.375, 0))].
Proof.
  split; [|split; vm_compute; reflexivity].
  intros Hfreeze.
  assert (Hz : (DeltaTime (Pause (engine 100 50)) =? lit 0)%go = true)
    by (vm_compute; reflexivity).
  specialize (Hfreeze Hz).
  apply (f_equal (fun l =>
     match l with
     | [(_, (vx, _))] => vx =? 10
     | _ => false
     end)) in Hfreeze.
  vm_compute in Hfreeze. discriminate.
Qed.

End PauseScenarios.

(** *** Invalid inputs *)

Section InvalidInputs.

Import Scenario.
Local Open Scope float_scope.

Lemma finite_zero : finite (lit 0 : float) = true.
Proof. vm_compute. reflexivity. Qed.

Lemma finite_sanitized (v : float) :
  finite (if IsInf v || IsNaN v then lit 0 else v) = true.
Proof.
  destruct (IsInf v || IsNaN v) eqn:Hv; [apply finite_zero|].
  unfold finite. now rewrite Hv.
Qed.

Lemma finite_fallback (v d : float) :
  finite d = true -> finite (if IsNaN v || IsInf v then d else v) = true.
Proof.
  intros Hd. destruct (IsNaN v || IsInf v) eqn:Hv; [exact Hd|].
  unfold finite. rewrite orb_comm. now rewrite Hv.
Qed.

(** C5, as the code has it, on binary64.  [SetVelocity] never stores a
    non-finite component: it stores zero in its place.  [SetGravity] keeps
    the previous gravity when given an infinite or NaN one, so a finite
    gravity stays finite.  [SetRestitution] keeps the previous restitution
    when given one outside [[0, 1]], NaN included.  [SetTarget] replaces
    an infinite or NaN target coordinate by the display coordinate, so
    that a finite display position keeps the target finite.
    [NewPhysicsEngine] replaces a non-positive width by 10, and a
    non-positive height by 10, each whatever the other dimension (the
    wall is then at 10 - 2 = 8).  [SetPosition] and [UpdateBounds]
    validate nothing: they store the position given, and width - 2 and
    height - 2. *)
Theorem setters_degrade_on_invalid_input :
  (forall vx vy (e : Entity float),
      finite (fst (GetVelocity (SetVelocity vx vy e))) = true /\
      finite (snd (GetVelocity (SetVelocity vx vy e))) = true)
  /\ (forall vx vy (e : Entity float),
      finite vx = false ->
      fst (GetVelocity (SetVelocity vx vy e)) = 0)
  /\ (forall vx vy (e : Entity float),
      finite vy = false ->
      snd (GetVelocity (SetVelocity vx vy e)) = 0)
  /\ (forall g (pe : PhysicsEngine float),
      finite g = false -> SetGravity g pe = pe)
  /\ (forall g (pe : PhysicsEngine float),
      finite (Gravity pe) = true -> finite (Gravity (SetGravity g pe)) = true)
  /\ (forall e (pe : PhysicsEngine float),
      inUnit e = false -> SetRestitution e pe = pe)
  /\ (forall e (pe : PhysicsEngine float),
      inUnit (Restitution pe) = true ->
      inUnit (Restitution (SetRestitution e pe)) = true)
  /\ (forall x y (eas : EntityAnimationState float),
      finite x = false -> TargetX (SetTarget x y eas) = DisplayX eas)
  /\ (forall x y (eas : EntityAnimationState float),
      finite y = false -> TargetY (SetTarget x y eas) = DisplayY eas)
  /\ (forall x y (eas : EntityAnimationState float),
      finite (DisplayX eas) = true -> finite (DisplayY eas) = true ->
      finite (TargetX (SetTarget x y eas)) = true /\
      finite (TargetY (SetTarget x y eas)) = true)
  /\ (forall width height : float,
      (width <=? lit 0)%go = true ->
      MaxX (NewPhysicsEngine width height) = 8)
  /\ (forall width height : float,
      (height <=? lit 0)%go = true ->
      MaxY (NewPhysicsEngine width height) = 8)
  /\ (forall x y (e : Entity float), GetPosition (SetPosition x y e) = (x, y))
  /\ (forall width height (pe : PhysicsEngine float),
      MaxX (UpdateBounds width height pe) = width - 2 /\
      MaxY (UpdateBounds width height pe) = height - 2).
Proof.
  split.
  { intros vx vy e. rewrite GetVelocity_SetVelocity_raw; cbn [fst snd].
    split; apply finite_sanitized. }
  split.
  { intros vx vy e Hv. rewrite GetVelocity_SetVelocity_raw; cbn [fst snd].
    unfold finite in Hv. apply negb_false_iff in Hv. now rewrite Hv. }
  split.
  { intros vx vy e Hv. rewrite GetVelocity_SetVelocity_raw; cbn [fst snd].
    unfold finite in Hv. apply negb_false_iff in Hv. now rewrite Hv. }
  split.
  { intros g pe Hg. unfold SetGravity, finite in *.
    apply negb_false_iff in Hg. now rewrite Hg. }
  split.
  { intros g pe Hpe. unfold SetGravity.
    destruct (IsInf g || IsNaN g) eqn:Hg; [exact Hpe|].
    unfold finite, withGravity; cbn [Gravity]. now rewrite Hg. }
  split.
  { intros e pe He. unfold SetRestitution, inUnit in *. now rewrite He. }
  split.
  { intros e pe Hpe. unfold SetRestitution.
    destruct ((e >=? lit 0)%go && (e <=? lit 1)%go) eqn:He; [|exact Hpe].
    exact He. }
  split.
  { intros x y eas Hx. unfold SetTarget; cbn [TargetX].
    unfold finite in Hx. apply negb_false_iff in Hx.
    rewrite orb_comm in Hx. now rewrite Hx. }
  split.
  { intros x y eas Hy. unfold SetTarget; cbn [TargetY].
    unfold finite in Hy. apply negb_false_iff in Hy.
    rewrite orb_comm in Hy. now rewrite Hy. }
  split.
  { intros x y eas Hx Hy. unfold SetTarget; cbn [TargetX TargetY].
    split; apply finite_fallback; assumption. }
  split.
  { intros width height Hw. unfold NewPhysicsEngine; cbn [MaxX].
    rewrite Hw. vm_compute; reflexivity. }
  split.
  { intros width height Hh. unfold NewPhysicsEngine; cbn [MaxY].
    rewrite Hh. vm_compute; reflexivity. }
  split; [intros; apply GetPosition_SetPosition|].
  intros width height pe. split; reflexivity.
Qed.

(** C5 at a NaN and an infinite velocity, a NaN gravity, a restitution of
    1.5, a NaN and an infinite target for a display position (3, 4), and
    engines made with one non-positive dimension. *)
Lemma setters_degrade_on_nan_and_infinity :
  fst (GetVelocity (SetVelocity nan infinity (sphere 10 10 1 0 0))) = 0
  /\ snd (GetVelocity (SetVelocity nan infinity (sphere 10 10 1 0 0))) = 0
  /\ SetGravity nan (engine 100 50) = engine 100 50
  /\ finite (Gravity (SetGravity nan (engine 100 50))) = true
  /\ SetRestitution 1.5 (engine 100 50) = engine 100 50
  /\ inUnit (Restitution (SetRestitution 1.5 (engine 100 50))) = true
  /\ TargetX (SetTarget nan neg_infinity (NewEntityAnimationState 3 4)) = 3
  /\ TargetY (SetTarget nan neg_infinity (NewEntityAnimationState 3 4)) = 4
  /\ MaxX (NewPhysicsEngine (-10) 50) = 8
  /\ MaxY (NewPhysicsEngine 100 0) = 8.
Proof.
  destruct setters_degrade_on_invalid_input
    as (_ & Hvx & Hvy & Hg & Hgf & Hr & Hrf & Htx & Hty & _ & Hnewx & Hnewy & _).
  split; [apply Hvx; vm_compute; reflexivity|].
  split; [apply Hvy; vm_compute; reflexivity|].
  split; [apply Hg; vm_compute; reflexivity|].
  split; [apply Hgf; vm_compute; reflexivity|].
  split; [apply Hr; vm_compute; reflexivity|].
  split; [apply Hrf; vm_compute; reflexivity|].
  split; [apply (Htx nan neg_infinity (NewEntityAnimationState 3 4));
          vm_compute; reflexivity|].
  split; [apply (Hty nan neg_infinity (NewEntityAnimationState 3 4));
          vm_compute; reflexivity|].
  split; [apply (Hnewx (-10) 50); vm_compute; reflexivity|].
  apply (Hnewy 100 0); vm_compute; reflexivity.
Defined.

(** C5, as stated, fails: [SetPosition] stores a NaN position, and
    [UpdateBounds] stores an infinite bound, and the bound -2 for a zero
    width. *)
Lemma setters_store_non_finite :
  ~ neverStoresNonFiniteAsStated float
  /\ IsNaN (fst (GetPosition (SetPosition nan nan (sphere 10 10 1 0 0)))) = true
  /\ IsInf (MaxX (UpdateBounds infinity infinity (engine 100 50))) = true
  /\ MaxX (UpdateBounds 0 0 (engine 100 50)) = -2.
Proof.
  split; [|repeat split; vm_compute; reflexivity].
  intros [Hpos _].
  destruct (Hpos nan nan (sphere 10 10 1 0 0)) as [Hx _].
  vm_compute in Hx. discriminate.
Qed.

End InvalidInputs.

(** *** Collision resolution *)

Section Resolution.

Context (F : Type) `{Float64 F}.
Local Open Scope go_scope.

(** The velocities [resolveCollision] leaves, branch by branch. *)
Lemma resolveCollision_velocities (pe : PhysicsEngine F) (e1 e2 : Entity F)
    (r : RandSource F) :
  let n := collisionNormal e1 e2 r in
  let dvn := normalSpeed n e1 e2 in
  let impulse := lit 2 * dvn / lit 2 * Restitution pe * lit 0.95 in
  let vx1 := fst (GetVelocity e1) in
  let vy1 := snd (GetVelocity e1) in
  let vx2 := fst (GetVelocity e2) in
  let vy2 := snd (GetVelocity e2) in
  let out := resolveCollision pe e1 e2 r in
  (GetVelocity (fst (fst out)), GetVelocity (snd (fst out)))
  = if dvn >? lit 0 then (GetVelocity e1, GetVelocity e2)
    else if (relativeSpeed e1 e2 <? MinVelocity pe * lit 2)
            && (relativeSpeed e1 e2 <? MinVelocity pe)
    then (GetVelocity (SetVelocity (lit 0) (lit 0) e1),
          GetVelocity (SetVelocity (lit 0) (lit 0) e2))
    else (GetVelocity (SetVelocity (vx1 + impulse * fst n)
                                   (vy1 + impulse * snd n) e1),
          GetVelocity (SetVelocity (vx2 - impulse * fst n)
                                   (vy2 - impulse * snd n) e2)).
Proof.
  unfold resolveCollision, collisionNormal, normalSpeed, relativeSpeed,
    rand_Float64.
  destruct e1 as [s1|s1], e2 as [s2|s2];
    cbn [GetPosition GetVelocity base BaseEntity_GetPosition
         BaseEntity_GetVelocity fst snd GetBounds Sphere_GetBounds
         BaseEntity_GetBounds].
  all: cbv zeta.
  all: match goal with
       | |- context [if (?d =? lit 0) then _ else _] => destruct (d =? lit 0)
       end.
  all: cbn beta iota zeta.
  all: cbn [fst snd].
  all: match goal with
       | |- context [if (lit 0 <? ?d)
                     then (SetImmediatePosition _ _ _, _) else _] =>
           destruct (lit 0 <? d)
       end.
  all: match goal with
       | |- context [if (lit 0 <? ?d) then (_, _, _) else _] =>
           destruct (lit 0 <? d)
       end.
  all: try reflexivity.
  all: match goal with
       | |- context [if (?a <? ?b * lit 2) then _ else _] =>
           destruct (a <? b * lit 2); [destruct (a <? b)|]
       end.
  all: cbn [andb].
  all: try reflexivity.
  all: cbn beta iota zeta.
  all: rewrite ?GetVelocity_SetVelocity_raw; try reflexivity.
Qed.

End Resolution.

Section ExactResolution.

Local Open Scope R_scope.

Lemma GetVelocity_SetVelocity_exact (vx vy : R) (e : Entity R) :
  GetVelocity (SetVelocity vx vy e) = (vx, vy).
Proof. destruct e; reflexivity. Qed.

Lemma sum_squares_nonneg (a b : R) : 0 <= a * a + b * b.
Proof. nra. Qed.

(** Between distinct centres the collision normal has length one. *)
Lemma collisionNormal_unit (e1 e2 : Entity R) (r : RandSource R) :
  centerDistance e1 e2 <> 0 ->
  fst (collisionNormal e1 e2 r) * fst (collisionNormal e1 e2 r)
  + snd (collisionNormal e1 e2 r) * snd (collisionNormal e1 e2 r) = 1.
Proof.
  unfold centerDistance, collisionNormal.
  destruct (GetPosition e1) as [x1 y1], (GetPosition e2) as [x2 y2].
  cbn [fsub fmul fadd fdiv feq Sqrt exact lit].
  set (d2 := (x2 - x1) * (x2 - x1) + (y2 - y1) * (y2 - y1)).
  assert (H0 : 0 <= d2) by apply sum_squares_nonneg.
  intros Hd.
  destruct (Exact.eqb (sqrt d2) (Q2R 0)) eqn:Hz.
  - apply Exact_eqb_eq in Hz. unfold Q2R in Hz; simpl in Hz. lra.
  - cbn [fst snd].
    pose proof (sqrt_sqrt d2 H0) as Hs.
    set (d := sqrt d2) in *.
    assert (E : (x2 - x1) / d * ((x2 - x1) / d) + (y2 - y1) / d * ((y2 - y1) / d)
                = d2 / (d * d)) by (unfold d2; field; exact Hd).
    rewrite E, <- Hs. field. exact Hd.
Qed.

(** C3, as the code has it, in exact arithmetic.  Take a pair whose
    velocities are not separating along the unit collision normal n (their
    relative velocity along n is dvn <= 0).  If their relative speed is at
    least MinVelocity, [resolveCollision] adds j n to the velocity of the
    first entity and subtracts j n from that of the second, with
    j = dvn * restitution * 0.95: the two changes along n are j and -j.
    The relative velocity along n becomes (1 - 1.9 * restitution) * dvn, so
    the pair is no longer approaching when 1.9 * restitution >= 1, as with
    the default 0.7.  If their relative speed is below MinVelocity, both
    velocities are set to zero instead. *)
Theorem resolveCollision_exchanges_impulse (pe : PhysicsEngine R)
    (e1 e2 : Entity R) (r : RandSource R) (vx1 vy1 vx2 vy2 nx ny : R) :
  GetVelocity e1 = (vx1, vy1) -> GetVelocity e2 = (vx2, vy2) ->
  collisionNormal e1 e2 r = (nx, ny) ->
  nx * nx + ny * ny = 1 ->
  normalSpeed (nx, ny) e1 e2 <= 0 ->
  let dvn := normalSpeed (nx, ny) e1 e2 in
  let j := dvn * Restitution pe * 0.95 in
  let e1' := fst (fst (resolveCollision pe e1 e2 r)) in
  let e2' := snd (fst (resolveCollision pe e1 e2 r)) in
  (MinVelocity pe <= relativeSpeed e1 e2 ->
     GetVelocity e1' = (vx1 + j * nx, vy1 + j * ny)
     /\ GetVelocity e2' = (vx2 - j * nx, vy2 - j * ny)
     /\ normalChange (nx, ny) e1 e1' = j
     /\ normalChange (nx, ny) e2 e2' = - j
     /\ normalSpeed (nx, ny) e1' e2' = (1 - 1.9 * Restitution pe) * dvn
     /\ (1 <= 1.9 * Restitution pe -> 0 <= normalSpeed (nx, ny) e1' e2'))
  /\ (relativeSpeed e1 e2 < MinVelocity pe ->
     GetVelocity e1' = (0, 0) /\ GetVelocity e2' = (0, 0)).
Proof.
  intros Hv1 Hv2 Hn Hunit Hdvn dvn j e1' e2'.
  pose proof (@resolveCollision_velocities R exact pe e1 e2 r) as Hres.
  cbv zeta in Hres. rewrite Hn, Hv1, Hv2 in Hres. cbn [fst snd] in Hres.
  fold e1' e2' in Hres.
  assert (Hdvn' : dvn = (vx2 - vx1) * nx + (vy2 - vy1) * ny).
  { unfold dvn, normalSpeed. rewrite Hv1, Hv2. reflexivity. }
  assert (Hsep : Exact.ltb (Q2R 0) (normalSpeed (nx, ny) e1 e2) = false).
  { apply Exact_ltb_ge. unfold Q2R; simpl. lra. }
  cbn [flt exact lit] in Hres. rewrite Hsep in Hres.
  rewrite !GetVelocity_SetVelocity_exact in Hres.
  assert (Hrel : 0 <= relativeSpeed e1 e2).
  { unfold relativeSpeed. destruct (GetVelocity e1), (GetVelocity e2).
    apply sqrt_pos. }
  cbn [fadd fsub fmul fdiv exact lit] in Hres.
  unfold Q2R in Hres; cbn [Qnum Qden] in Hres.
  assert (H95 : 0.95 = 95 / 100) by lra.
  assert (H19 : 1.9 = 19 / 10) by lra.
  split.
  - intros Hfast.
    assert (Hb : Exact.ltb (relativeSpeed e1 e2) (MinVelocity pe) = false)
      by (apply Exact_ltb_ge; exact Hfast).
    rewrite Hb, andb_false_r in Hres.
    apply pair_equal_spec in Hres. destruct Hres as [He1 He2].
    assert (He1' : GetVelocity e1' = (vx1 + j * nx, vy1 + j * ny))
      by (rewrite He1; unfold j, dvn; rewrite H95;
          apply pair_equal_spec; split; field).
    assert (He2' : GetVelocity e2' = (vx2 - j * nx, vy2 - j * ny))
      by (rewrite He2; unfold j, dvn; rewrite H95;
          apply pair_equal_spec; split; field).
    assert (Hc1 : normalChange (nx, ny) e1 e1' = j).
    { unfold normalChange. rewrite Hv1, He1'.
      cbn [fst snd fsub fmul fadd exact].
      transitivity (j * (nx * nx + ny * ny)); [ring|].
      rewrite Hunit. ring. }
    assert (Hc2 : normalChange (nx, ny) e2 e2' = - j).
    { unfold normalChange. rewrite Hv2, He2'.
      cbn [fst snd fsub fmul fadd exact].
      transitivity (- j * (nx * nx + ny * ny)); [ring|].
      rewrite Hunit. ring. }
    assert (Hs : normalSpeed (nx, ny) e1' e2' = (1 - 1.9 * Restitution pe) * dvn).
    { unfold normalSpeed at 1. rewrite He1', He2'.
      cbn [fst snd fsub fmul fadd exact].
      transitivity ((vx2 - vx1) * nx + (vy2 - vy1) * ny
                    - 2 * j * (nx * nx + ny * ny)); [ring|].
      rewrite Hunit, <- Hdvn'. unfold j. rewrite H95, H19. field. }
    repeat split; try assumption.
    intros Hrest. rewrite Hs. fold dvn in Hdvn. nra.
  - intros Hslow.
    assert (Hb : Exact.ltb (relativeSpeed e1 e2) (MinVelocity pe) = true)
      by (apply Exact_ltb_lt; exact Hslow).
    assert (Hb2 : Exact.ltb (relativeSpeed e1 e2)
                    (MinVelocity pe * (2 * / 1)) = true)
      by (apply Exact_ltb_lt; lra).
    rewrite Hb, Hb2 in Hres. cbn [andb] in Hres.
    apply pair_equal_spec in Hres. destruct Hres as [He1 He2]. rewrite He1, He2.
    split; f_equal; lra.
Qed.

End ExactResolution.

Section ExactResolutionScenario.

Import ExactScenario.
Local Open Scope R_scope.

Lemma Exact_sqrt_square_sum (a : R) : 0 <= a -> sqrt (a * a + 0 * 0) = a.
Proof. intros Ha. replace (a * a + 0 * 0) with (a * a) by ring. now apply sqrt_square. Qed.

(** The normal between spheres at (10, 10) and (10.6, 10) is (1, 0). *)
Lemma collisionNormal_head_on :
  collisionNormal (sphere 10 10 1 5 0) (sphere 10.6 10 1 (-5) 0) source = (1, 0).
Proof.
  unfold collisionNormal, sphere.
  rewrite !GetPosition_SetVelocity.
  cbn [GetPosition base BaseEntity_GetPosition NewSphere Sphere_BaseEntity X Y].
  cbn [fsub fmul fadd fdiv feq Sqrt exact lit].
  unfold Q2R; cbn [Qnum Qden].
  replace ((106 * / 10 - 10 * / 1) * (106 * / 10 - 10 * / 1)
           + (10 * / 1 - 10 * / 1) * (10 * / 1 - 10 * / 1))
    with ((6 / 10) * (6 / 10)) by field.
  rewrite sqrt_square by lra.
  replace (Exact.eqb (6 / 10) (0 * / 1)) with false
    by (symmetry; unfold Exact.eqb;
        destruct (Req_dec_T (6 / 10) (0 * / 1)); [lra|reflexivity]).
  apply pair_equal_spec; split; field.
Qed.

(** The normal between the same spheres in slow contact. *)
Lemma collisionNormal_slow_contact :
  collisionNormal (sphere 10 10 1 0.03 0) (sphere 10.6 10 1 0 0) source = (1, 0).
Proof.
  unfold collisionNormal, sphere.
  rewrite !GetPosition_SetVelocity.
  cbn [GetPosition base BaseEntity_GetPosition NewSphere Sphere_BaseEntity X Y].
  cbn [fsub fmul fadd fdiv feq Sqrt exact lit].
  unfold Q2R; cbn [Qnum Qden].
  replace ((106 * / 10 - 10 * / 1) * (106 * / 10 - 10 * / 1)
           + (10 * / 1 - 10 * / 1) * (10 * / 1 - 10 * / 1))
    with ((6 / 10) * (6 / 10)) by field.
  rewrite sqrt_square by lra.
  replace (Exact.eqb (6 / 10) (0 * / 1)) with false
    by (symmetry; unfold Exact.eqb;
        destruct (Req_dec_T (6 / 10) (0 * / 1)); [lra|reflexivity]).
  apply pair_equal_spec; split; field.
Qed.

(** C3 at the head-on pair of the test suite: size-1 spheres at (10, 10)
    and (10.6, 10) with velocities (5, 0) and (-5, 0), default engine.  They
    leave with velocities (-1.65, 0) and (1.65, 0), no longer approaching.
    With velocities (0.03, 0) and (0, 0) both come to rest. *)
Lemma resolveCollision_exchanges_impulse_head_on :
  GetVelocity (fst (fst (resolveCollision (engine 100 50)
     (sphere 10 10 1 5 0) (sphere 10.6 10 1 (-5) 0) source))) = (-1.65, 0)
  /\ GetVelocity (snd (fst (resolveCollision (engine 100 50)
     (sphere 10 10 1 5 0) (sphere 10.6 10 1 (-5) 0) source))) = (1.65, 0)
  /\ 0 <= normalSpeed (1, 0)
       (fst (fst (resolveCollision (engine 100 50)
          (sphere 10 10 1 5 0) (sphere 10.6 10 1 (-5) 0) source)))
       (snd (fst (resolveCollision (engine 100 50)
          (sphere 10 10 1 5 0) (sphere 10.6 10 1 (-5) 0) source)))
  /\ GetVelocity (fst (fst (resolveCollision (engine 100 50)
     (sphere 10 10 1 0.03 0) (sphere 10.6 10 1 0 0) source))) = (0, 0)
  /\ GetVelocity (snd (fst (resolveCollision (engine 100 50)
     (sphere 10 10 1 0.03 0) (sphere 10.6 10 1 0 0) source))) = (0, 0).
Proof.
  assert (Hdvn : normalSpeed (1, 0) (sphere 10 10 1 5 0)
                   (sphere 10.6 10 1 (-5) 0) = -10).
  { unfold normalSpeed, sphere. rewrite !GetVelocity_SetVelocity_exact.
    cbn [fst snd fsub fmul fadd exact lit]. unfold Q2R; cbn [Qnum Qden]. field. }
  assert (Hrel : relativeSpeed (sphere 10 10 1 5 0)
                   (sphere 10.6 10 1 (-5) 0) = 10).
  { unfold relativeSpeed, sphere. rewrite !GetVelocity_SetVelocity_exact.
    cbn [fst snd fsub fmul fadd Sqrt exact lit]. unfold Q2R; cbn [Qnum Qden].
    replace (-5 * / 1 - 5 * / 1) with (-10) by field.
    replace (0 * / 1 - 0 * / 1) with 0 by field.
    replace (-10 * -10 + 0 * 0) with (10 * 10) by ring.
    apply sqrt_square. lra. }
  assert (Hdvn' : normalSpeed (1, 0) (sphere 10 10 1 0.03 0)
                    (sphere 10.6 10 1 0 0) = -0.03).
  { unfold normalSpeed, sphere. rewrite !GetVelocity_SetVelocity_exact.
    cbn [fst snd fsub fmul fadd exact lit]. unfold Q2R; cbn [Qnum Qden]. lra. }
  assert (Hrel' : relativeSpeed (sphere 10 10 1 0.03 0)
                    (sphere 10.6 10 1 0 0) = 0.03).
  { unfold relativeSpeed, sphere. rewrite !GetVelocity_SetVelocity_exact.
    cbn [fst snd fsub fmul fadd Sqrt exact lit]. unfold Q2R; cbn [Qnum Qden].
    replace ((0 * / 1 - 3 * / 100) * (0 * / 1 - 3 * / 100)
             + (0 * / 1 - 0 * / 1) * (0 * / 1 - 0 * / 1))
      with (0.03 * 0.03) by lra.
    apply sqrt_square. lra. }
  assert (Hmin : MinVelocity (engine 100 50) = 0.05).
  { cbn [MinVelocity engine NewPhysicsEngine lit exact].
    unfold Q2R; cbn [Qnum Qden]. lra. }
  assert (Hr : Restitution (engine 100 50) = 7 / 10).
  { cbn [Restitution engine NewPhysicsEngine lit exact].
    unfold Q2R; cbn [Qnum Qden]. field. }
  destruct (@resolveCollision_exchanges_impulse (engine 100 50)
              (sphere 10 10 1 5 0) (sphere 10.6 10 1 (-5) 0) source
              (Q2R 5) (Q2R 0) (Q2R (-5)) (Q2R 0) 1 0
              (GetVelocity_SetVelocity_exact _ _ _)
              (GetVelocity_SetVelocity_exact _ _ _)
              collisionNormal_head_on
              ltac:(lra) ltac:(rewrite Hdvn; lra))
    as [Hfast _].
  destruct Hfast as (He1 & He2 & _ & _ & _ & Hapart);
    [rewrite Hrel, Hmin; lra|].
  destruct (@resolveCollision_exchanges_impulse (engine 100 50)
              (sphere 10 10 1 0.03 0) (sphere 10.6 10 1 0 0) source
              (Q2R 0.03) (Q2R 0) (Q2R 0) (Q2R 0) 1 0
              (GetVelocity_SetVelocity_exact _ _ _)
              (GetVelocity_SetVelocity_exact _ _ _)
              collisionNormal_slow_contact
              ltac:(lra) ltac:(rewrite Hdvn'; lra))
    as [_ Hslow].
  destruct Hslow as (Hz1 & Hz2); [rewrite Hrel', Hmin; lra|].
  split; [|split; [|split; [|split]]].
  - rewrite He1, Hdvn, Hr. unfold Q2R; cbn [Qnum Qden].
    apply pair_equal_spec; split; lra.
  - rewrite He2, Hdvn, Hr. unfold Q2R; cbn [Qnum Qden].
    apply pair_equal_spec; split; lra.
  - apply Hapart. rewrite Hr. lra.
  - exact Hz1.
  - exact Hz2.
Defined.

End ExactResolutionScenario.

Section ResolutionScenarios.

Import Scenario.
Local Open Scope float_scope.

(** C3, as stated, fails twice on size-1 spheres at (10, 10) and
    (10.6, 10).  With the default engine and velocities (0.03, 0) and (0, 0)
    the pair is in slow contact: both velocities become zero, a change of
    0.03 against a change of 0.  With restitution 0.5 and velocities (5, 0)
    and (-5, 0) the pair leaves at (0.25, 0) and (-0.25, 0), still
    approaching. *)
Lemma resolveCollision_not_as_stated :
  ~ collisionSymmetryAsStated (engine 100 50)
      (sphere 10 10 1 0.03 0) (sphere 10.6 10 1 0 0) source
  /\ GetVelocity (fst (fst (resolveCollision (engine 100 50)
       (sphere 10 10 1 0.03 0) (sphere 10.6 10 1 0 0) source)))
     = (0, 0)
  /\ ~ collisionSymmetryAsStated (SetRestitution 0.5 (engine 100 50))
      (sphere 10 10 1 5 0) (sphere 10.6 10 1 (-5) 0) source
  /\ GetVelocity (fst (fst (resolveCollision (SetRestitution 0.5 (engine 100 50))
       (sphere 10 10 1 5 0) (sphere 10.6 10 1 (-5) 0) source)))
     = (0.25, 0)
  /\ GetVelocity (snd (fst (resolveCollision (SetRestitution 0.5 (engine 100 50))
       (sphere 10 10 1 5 0) (sphere 10.6 10 1 (-5) 0) source)))
     = (-0.25, 0).
Proof.
  split; [|split; [|split; [|split]]]; try (vm_compute; reflexivity).
  - unfold collisionSymmetryAsStated. intros Hc.
    assert (H1 : checkEntityCollision (engine 100 50)
                   (sphere 10 10 1 0.03 0) (sphere 10.6 10 1 0 0) = true)
      by (vm_compute; reflexivity).
    assert (H2 : (normalSpeed
                    (collisionNormal (sphere 10 10 1 0.03 0)
                       (sphere 10.6 10 1 0 0) source)
                    (sphere 10 10 1 0.03 0) (sphere 10.6 10 1 0 0)
                  <? lit 0)%go = true)
      by (vm_compute; reflexivity).
    specialize (Hc H1 H2).
    destruct (resolveCollision (engine 100 50) (sphere 10 10 1 0.03 0)
                (sphere 10.6 10 1 0 0) source) as [[e1' e2'] r'] eqn:Hr.
    destruct Hc as [Hc _].
    assert (He1 : e1' = fst (fst (resolveCollision (engine 100 50)
              (sphere 10 10 1 0.03 0) (sphere 10.6 10 1 0 0) source)))
      by (rewrite Hr; reflexivity).
    assert (He2 : e2' = snd (fst (resolveCollision (engine 100 50)
              (sphere 10 10 1 0.03 0) (sphere 10.6 10 1 0 0) source)))
      by (rewrite Hr; reflexivity).
    rewrite He1, He2 in Hc. vm_compute in Hc. discriminate.
  - unfold collisionSymmetryAsStated. intros Hc.
    assert (H1 : checkEntityCollision (SetRestitution 0.5 (engine 100 50))
                   (sphere 10 10 1 5 0) (sphere 10.6 10 1 (-5) 0) = true)
      by (vm_compute; reflexivity).
    assert (H2 : (normalSpeed
                    (collisionNormal (sphere 10 10 1 5 0)
                       (sphere 10.6 10 1 (-5) 0) source)
                    (sphere 10 10 1 5 0) (sphere 10.6 10 1 (-5) 0)
                  <? lit 0)%go = true)
      by (vm_compute; reflexivity).
    specialize (Hc H1 H2).
    destruct (resolveCollision (SetRestitution 0.5 (engine 100 50))
                (sphere 10 10 1 5 0) (sphere 10.6 10 1 (-5) 0) source)
      as [[e1' e2'] r'] eqn:Hr.
    destruct Hc as [_ Hc].
    assert (He1 : e1' = fst (fst (resolveCollision
              (SetRestitution 0.5 (engine 100 50))
              (sphere 10 10 1 5 0) (sphere 10.6 10 1 (-5) 0) source)))
      by (rewrite Hr; reflexivity).
    assert (He2 : e2' = snd (fst (resolveCollision
              (SetRestitution 0.5 (engine 100 50))
              (sphere 10 10 1 5 0) (sphere 10.6 10 1 (-5) 0) source)))
      by (rewrite Hr; reflexivity).
    rewrite He1, He2 in Hc. vm_compute in Hc. discriminate.
Qed.

End ResolutionScenarios.

(** *** Settling *)

Section Settling.

Local Open Scope R_scope.

Variable pe : PhysicsEngine R.
Hypothesis Hmax : MaxVelocity pe = lit 50.0.
Hypothesis Hmin : MinVelocity pe = lit 0.05.
Hypothesis Hfriction : StaticFriction pe = lit 0.8.

Lemma speed_lt_square (vx vy b : R) :
  0 < b -> (sqrt (vx * vx + vy * vy) < b <-> vx * vx + vy * vy < b * b).
Proof.
  intros Hb. pose proof (sum_squares_nonneg vx vy) as H0.
  split; intros Hlt.
  - destruct (Rlt_le_dec (vx * vx + vy * vy) (b * b)) as [|Hge]; [assumption|].
    apply sqrt_le_1_alt in Hge. rewrite sqrt_square in Hge by lra. lra.
  - rewrite <- (sqrt_square b) by lra. apply sqrt_lt_1_alt. lra.
Qed.

Lemma Rabs_lt_square (v b : R) : 0 <= b -> v * v < b * b -> Rabs v < b.
Proof. intros Hb Hv. unfold Rabs. destruct (Rcase_abs v); nra. Qed.

(** One call, on a velocity of length below [b <= 0.15]: the length falls
    below [0.8 * b], and the velocity is zero once [0.8 * b < 0.05]. *)
Lemma capVelocity_step (e : Entity R) (vx vy b : R) :
  GetVelocity e = (vx, vy) ->
  0 < b <= 0.15 ->
  vx * vx + vy * vy < b * b ->
  exists vx' vy',
    GetVelocity (capVelocity pe e) = (vx', vy') /\
    vx' * vx' + vy' * vy' < (0.8 * b) * (0.8 * b) /\
    (0.8 * b < 0.05 -> vx' = 0 /\ vy' = 0).
Proof.
  intros Hv Hb Hs.
  pose proof (sum_squares_nonneg vx vy) as H0.
  assert (Hax : Rabs vx < b).
  { apply Rabs_lt_square; [lra|]. pose proof (Rle_0_sqr vy) as Hq.
    unfold Rsqr in Hq. lra. }
  assert (Hay : Rabs vy < b).
  { apply Rabs_lt_square; [lra|]. pose proof (Rle_0_sqr vx) as Hq.
    unfold Rsqr in Hq. lra. }
  unfold capVelocity. rewrite Hv. cbn beta iota zeta.
  rewrite Hmax, Hmin, Hfriction. unfold lit, exact, Abs, Sqrt, flt, fmul, fadd.
  unfold Q2R; cbn [Qnum Qden].
  replace (Exact.ltb (500 * / 10) (Rabs vx)) with false
    by (symmetry; apply Exact_ltb_ge; lra).
  replace (Exact.ltb (500 * / 10) (Rabs vy)) with false
    by (symmetry; apply Exact_ltb_ge; lra).
  replace (Exact.ltb (sqrt (vx * vx + vy * vy)) (5 * / 100 * (3 * / 1))) with true
    by (symmetry; apply Exact_ltb_lt; apply speed_lt_square; nra).
  cbn beta iota.
  rewrite GetVelocity_SetVelocity_raw. cbn [IsInf IsNaN exact orb lit].
  do 2 eexists. split; [reflexivity|].
  assert (Hx : Rabs (vx * (8 * / 10)) = 0.8 * Rabs vx)
    by (rewrite Rabs_mult, (Rabs_pos_eq (8 * / 10)); lra).
  assert (Hy : Rabs (vy * (8 * / 10)) = 0.8 * Rabs vy)
    by (rewrite Rabs_mult, (Rabs_pos_eq (8 * / 10)); lra).
  split.
  - destruct (Exact.ltb (Rabs (vx * (8 * / 10))) (5 * / 100));
      destruct (Exact.ltb (Rabs (vy * (8 * / 10))) (5 * / 100)); nra.
  - intros Hsmall.
    replace (Exact.ltb (Rabs (vx * (8 * / 10))) (5 * / 100)) with true
      by (symmetry; apply Exact_ltb_lt; lra).
    replace (Exact.ltb (Rabs (vy * (8 * / 10))) (5 * / 100)) with true
      by (symmetry; apply Exact_ltb_lt; lra).
    split; lra.
Qed.

Lemma pow_08_bounds (k : nat) : 0 < 0.8 ^ k <= 1.
Proof. induction k as [|k IH]; simpl; lra. Qed.

Lemma capVelocity_steps (k : nat) : forall (e : Entity R) (vx vy b : R),
  GetVelocity e = (vx, vy) ->
  0 < b <= 0.15 ->
  vx * vx + vy * vy < b * b ->
  exists vx' vy',
    GetVelocity (capVelocityTimes k pe e) = (vx', vy') /\
    vx' * vx' + vy' * vy' < (0.8 ^ k * b) * (0.8 ^ k * b) /\
    ((1 <= k)%nat -> 0.8 ^ k * b < 0.05 -> vx' = 0 /\ vy' = 0).
Proof.
  induction k as [|k IH]; intros e vx vy b Hv Hb Hs.
  - exists vx, vy. simpl. split; [exact Hv|split; [nra|intros; lia]].
  - destruct (@capVelocity_step e vx vy b Hv Hb Hs)
      as (vx1 & vy1 & Hv1 & Hs1 & Hz1).
    assert (Hb1 : 0 < 0.8 * b <= 0.15) by lra.
    destruct (IH (capVelocity pe e) vx1 vy1 (0.8 * b) Hv1 Hb1 Hs1)
      as (vx' & vy' & Hv' & Hs' & Hz').
    exists vx', vy'. simpl.
    replace (0.8 * 0.8 ^ k * b) with (0.8 ^ k * (0.8 * b)) by ring.
    split; [exact Hv'|split; [exact Hs'|]].
    intros _ Hsmall. destruct k as [|k].
    + simpl in Hv'. rewrite Hv1 in Hv'.
      apply pair_equal_spec in Hv'. destruct Hv' as [<- <-].
      apply Hz1. simpl in Hsmall. lra.
    + apply Hz'; [lia|exact Hsmall].
Qed.

Lemma pow_08_from_5 (n : nat) : (5 <= n)%nat -> 0.8 ^ n * 0.15 < 0.05.
Proof.
  intros Hn. replace n with (5 + (n - 5))%nat by lia.
  rewrite pow_add. pose proof (pow_08_bounds (n - 5)) as Hp.
  assert (H5 : 0.8 ^ 5 = 0.32768) by (simpl; lra).
  rewrite H5. nra.
Qed.

Lemma capVelocity_settles_in_5 (e : Entity R) (n : nat) :
  speed e < MinVelocity pe * 3 -> (5 <= n)%nat ->
  GetVelocity (capVelocityTimes n pe e) = (0, 0).
Proof.
  unfold speed. destruct (GetVelocity e) as [vx vy] eqn:Hv.
  rewrite Hmin. cbn [Sqrt fmul fadd exact lit]. unfold Q2R; cbn [Qnum Qden].
  intros Hs Hn.
  assert (Hs' : vx * vx + vy * vy < 0.15 * 0.15)
    by (apply speed_lt_square; lra).
  destruct (@capVelocity_steps n e vx vy 0.15 Hv ltac:(lra) Hs')
    as (vx' & vy' & Hv' & _ & Hz).
  destruct Hz as [-> ->]; [lia|now apply pow_08_from_5|exact Hv'].
Qed.

Lemma capVelocity_rest (e : Entity R) (n : nat) :
  GetVelocity e = (0, 0) -> GetVelocity (capVelocityTimes n pe e) = (0, 0).
Proof.
  revert e; induction n as [|n IH]; intros e Hv; simpl; [exact Hv|].
  apply IH.
  destruct (@capVelocity_step e 0 0 0.05 Hv ltac:(lra) ltac:(lra))
    as (vx' & vy' & Hv' & _ & Hz).
  destruct Hz as [-> ->]; [lra|exact Hv'].
Qed.

End Settling.

Section SettlingToRest.

Local Open Scope R_scope.


Import ExactScenario.


End SettlingToRest.

Section SettlingRuns.

Import Scenario.
Local Open Scope float_scope.

(** On binary64, the velocities of two slow spheres call after call. *)
Lemma capVelocity_settles_binary64_runs :
  map (fun n => GetVelocity
         (capVelocityTimes n (engine 100 50) (sphere 10 10 1 0.1 0.1)))
      [3; 4; 5; 6]%nat
  = [(0.051200000000000016, 0.051200000000000016); (0, 0); (0, 0); (0, 0)]
  /\ map (fun n => GetVelocity
         (capVelocityTimes n (engine 100 50) (sphere 10 10 1 0.149 (-0.01))))
      [4; 5; 6]%nat
  = [(0.061030400000000012, 0); (0, 0); (0, 0)].
Proof. split; vm_compute; reflexivity. Qed.

End SettlingRuns.

(** *** The locking of the registry *)

Module LockingProperties.

Import Locking.

Lemma racingb_racing (mu : RWMutex) (t1 t2 : list Action) :
  racingb t1 t2 = true <-> racing (mu, t1, t2).
Proof. destruct t1, t2; simpl; split; auto; discriminate. Qed.

(** [canRace] finds only races that an interleaving reaches. *)
Lemma canRace_sound (fuel : nat) : forall mu t1 t2,
  canRace fuel mu t1 t2 = true ->
  exists s, reachable (mu, t1, t2) s /\ racing s.
Proof.
  induction fuel as [|fuel IH]; intros mu t1 t2; simpl;
    rewrite orb_true_iff; intros [Hr|Hs].
  - exists (mu, t1, t2). split; [constructor|now apply racingb_racing].
  - discriminate.
  - exists (mu, t1, t2). split; [constructor|now apply racingb_racing].
  - apply orb_true_iff in Hs. destruct Hs as [Hs|Hs].
    + destruct t1 as [|a t1]; [discriminate|].
      apply andb_true_iff in Hs. destruct Hs as [Ha Hs].
      destruct (IH _ _ _ Hs) as (s & Hreach & Hrace).
      exists s. split; [|exact Hrace].
      eapply reach_step; [apply step_left; exact Ha|exact Hreach].
    + destruct t2 as [|b t2]; [discriminate|].
      apply andb_true_iff in Hs. destruct Hs as [Hb Hs].
      destruct (IH _ _ _ Hs) as (s & Hreach & Hrace).
      exists s. split; [|exact Hrace].
      eapply reach_step; [apply step_right; exact Hb|exact Hreach].
Qed.

(** [canRace] finds every race that an interleaving reaches. *)
Lemma canRace_complete (s s' : RWMutex * list Action * list Action) :
  reachable s s' -> racing s' ->
  forall fuel,
    (List.length (snd (fst s)) + List.length (snd s) <= fuel)%nat ->
    canRace fuel (fst (fst s)) (snd (fst s)) (snd s) = true.
Proof.
  induction 1 as [[[mu t1] t2]|s s1 s2 Hstep Hreach IH]; intros Hrace fuel Hfuel.
  - simpl. apply (racingb_racing mu) in Hrace.
    destruct fuel; simpl; now rewrite Hrace.
  - specialize (IH Hrace).
    destruct Hstep as [mu a t1 t2 Ha|mu a t1 t2 Ha]; simpl in *.
    + destruct fuel as [|fuel]; [lia|]. simpl.
      rewrite Ha, (IH fuel) by lia. simpl. apply orb_true_r.
    + destruct fuel as [|fuel]; [lia|]. simpl.
      rewrite Ha, (IH fuel) by lia. simpl.
      rewrite !orb_true_r. reflexivity.
Qed.

(** C9 on the code.  Two calls on one manager can reach a data race on
    [em.entities] exactly when [races] says so, and [races] holds exactly
    for [GetEntitiesByType] against a method that writes the slice
    ([AddEntity], [RemoveEntity], [Clear]): [GetEntitiesByType] reads
    [em.entities] without taking the read lock.  Every other pair of calls
    is race free. *)
Theorem GetEntitiesByType_races_with_writers :
  (forall op1 op2,
      races op1 op2 = true <->
      exists s, reachable (unlocked, body op1, body op2) s /\ racing s)
  /\ (forall op1 op2,
      races op1 op2
      = (isGetEntitiesByType op1 && writes op2)
        || (writes op1 && isGetEntitiesByType op2))
  /\ races OpAddEntity OpGetEntitiesByType = true
  /\ reachable (unlocked, body OpAddEntity, body OpGetEntitiesByType)
       ({| writer := true; readers := 0 |},
        [WriteEntities; Unlock], [ReadEntities])
  /\ races OpAddEntity OpCountByType = false.
Proof.
  split.
  { intros op1 op2. split.
    - apply canRace_sound.
    - intros (s & Hreach & Hrace).
      apply (canRace_complete Hreach Hrace). simpl. lia. }
  split; [intros op1 op2; destruct op1, op2; reflexivity|].
  split; [reflexivity|].
  split; [|reflexivity].
  eapply reach_step; [apply step_left; reflexivity|]. simpl.
  eapply reach_step; [apply step_left; reflexivity|]. simpl.
  apply reach_here.
Qed.

End LockingProperties.

(** *** Animation *)

Section Animation.

Local Open Scope R_scope.

Lemma abs_Rabs (x : R) : abs x = Rabs x.
Proof.
  unfold abs. cbn [flt fneg exact lit]. unfold Exact.ltb, Rabs, Q2R; simpl.
  destruct (Rlt_dec x (0 * / 1)), (Rcase_abs x); try reflexivity; lra.
Qed.

(** Whatever the springs, [UpdateAnimation] ends an animation exactly when
    the new display position is within 0.01 of the target and the new
    spring velocity is below 0.01, on both axes; it never starts one. *)
Lemma UpdateAnimation_convergence_test (SpringX SpringY : Spring R)
    (eas : EntityAnimationState R) :
  let eas' := UpdateAnimation SpringX SpringY eas in
  IsAnimating eas' = false <->
  (IsAnimating eas = false \/
   (Rabs (DisplayX eas' - TargetX eas') < 0.01 /\
    Rabs (DisplayY eas' - TargetY eas') < 0.01 /\
    Rabs (VelocityX eas') < 0.01 /\
    Rabs (VelocityY eas') < 0.01)).
Proof.
  unfold UpdateAnimation.
  destruct (SpringX (DisplayX eas) (VelocityX eas) (TargetX eas)) as [newX newVX].
  destruct (SpringY (DisplayY eas) (VelocityY eas) (TargetY eas)) as [newY newVY].
  cbn [IsAnimating DisplayX DisplayY TargetX TargetY VelocityX VelocityY].
  rewrite !abs_Rabs. cbn [flt fsub exact lit]. unfold Q2R; cbn [Qnum Qden].
  assert (H1 : 1 * / 100 = 0.01) by lra. rewrite !H1.
  destruct (Exact.ltb (Rabs (newX - TargetX eas)) 0.01) eqn:Hx;
  destruct (Exact.ltb (Rabs (newY - TargetY eas)) 0.01) eqn:Hy;
  destruct (Exact.ltb (Rabs newVX) 0.01) eqn:Hvx;
  destruct (Exact.ltb (Rabs newVY) 0.01) eqn:Hvy;
  cbn [andb];
  rewrite ?Exact_ltb_lt in *; rewrite ?Exact_ltb_ge in *;
  split; intros Hc; try tauto;
  destruct Hc as [Hc|(? & ? & ? & ?)]; try assumption; lra.
Qed.

End Animation.

(** *** Registry: types, round trips, pair enumeration *)

Section RegistryMore.

Context (F : Type) `{Float64 F}.
Local Abbreviation Entity := (Entity F).
Local Abbreviation EntityManager := (EntityManager F).
Local Open Scope go_scope.

Lemma indexOfID_app_fresh (e : Entity) (l : list Entity) :
  (forall e', In e' l -> GetID e' <> GetID e) ->
  indexOfID (GetID e) (l ++ [e]) = Some (List.length l).
Proof.
  induction l as [|a l IH]; intros Hfresh; simpl.
  - now rewrite String.eqb_refl.
  - destruct (String.eqb (GetID a) (GetID e)) eqn:Ha.
    + apply String.eqb_eq in Ha. exfalso. apply (Hfresh a); [now left|exact Ha].
    + rewrite IH; [reflexivity|]. intros e' He'. apply Hfresh. now right.
Qed.

(** X1.  [CountByType t] is the length of [GetEntitiesByType t].
    [AddEntity] appends the entity to the result of [GetEntitiesByType] for
    the entity's own type and raises that type's count by one; the results
    for every other type are unchanged. *)
Theorem CountByType_AddEntity (t : EntityType) (e : Entity) (em : EntityManager) :
  CountByType t em = Z.of_nat (List.length (GetEntitiesByType t em))
  /\ GetEntitiesByType t (AddEntity e em)
     = GetEntitiesByType t em ++ (if String.eqb (GetType e) t then [e] else [])
  /\ CountByType t (AddEntity e em)
     = (CountByType t em + (if String.eqb (GetType e) t then 1 else 0))%Z.
Proof.
  assert (Hget : GetEntitiesByType t (AddEntity e em)
     = GetEntitiesByType t em ++ (if String.eqb (GetType e) t then [e] else [])).
  { unfold GetEntitiesByType, AddEntity. cbn [entities].
    rewrite filter_app. cbn [filter].
    destruct (String.eqb (GetType e) t); reflexivity. }
  split; [apply CountByType_GetEntitiesByType|].
  split; [exact Hget|].
  rewrite !CountByType_GetEntitiesByType, Hget, length_app.
  destruct (String.eqb (GetType e) t); cbn [List.length]; lia.
Qed.

(** X2.  Adding an entity whose ID no registered entity has, and removing
    that ID again, gives back the registry as it was, and [RemoveEntity]
    reports success. *)
Theorem RemoveEntity_AddEntity_fresh (e : Entity) (em : EntityManager) :
  (forall e', In e' (GetEntities em) -> GetID e' <> GetID e) ->
  RemoveEntity (GetID e) (AddEntity e em) = (em, true).
Proof.
  intros Hfresh. unfold RemoveEntity, AddEntity. cbn [entities nextID].
  rewrite (indexOfID_app_fresh e (entities em) Hfresh).
  rewrite remove_at_app, app_nil_r. destruct em; reflexivity.
Qed.

(** X3.  [CheckCollisions] tests every unordered pair of registered entities
    once: it returns exactly the index pairs [(i, j)], [i < j], for which
    the entity at [i], as receiver of [CheckCollision], accepts the entity
    at [j]; no pair is returned twice. *)
Theorem CheckCollisions_pairs (em : EntityManager) :
  (forall i j,
      In (i, j) (CheckCollisions em) <->
      (i < j)%nat /\
      exists ei ej,
        nth_error (GetEntities em) i = Some ei /\
        nth_error (GetEntities em) j = Some ej /\
        CheckCollision ei ej = true)
  /\ NoDup (CheckCollisions em).
Proof.
  split.
  - intros i j. unfold CheckCollisions, GetEntities. rewrite in_flat_map. split.
    + intros (i0 & Hi0 & Hin). apply in_flat_map in Hin.
      destruct Hin as (j0 & Hj0 & Hin). apply in_seq in Hj0.
      destruct (nth_error (entities em) i0) as [ei|] eqn:Hei; [|destruct Hin].
      destruct (nth_error (entities em) j0) as [ej|] eqn:Hej; [|destruct Hin].
      destruct (CheckCollision ei ej) eqn:Hc; [|destruct Hin].
      destruct Hin as [Heq|[]]. injection Heq as <- <-.
      split; [lia|]. exists ei, ej. auto.
    + intros (Hlt & ei & ej & Hei & Hej & Hc).
      assert (Hj : (j < List.length (entities em))%nat)
        by (apply nth_error_Some; congruence).
      exists i. split; [apply in_seq; lia|].
      apply in_flat_map. exists j. split; [apply in_seq; lia|].
      rewrite Hei, Hej, Hc. now left.
  - unfold CheckCollisions.
    set (l := entities em).
    set (inner := fun i j =>
      match nth_error l i, nth_error l j with
      | Some ei, Some ej => if CheckCollision ei ej then [(i, j)] else []
      | _, _ => []
      end).
    assert (Hinner : forall i j p, In p (inner i j) -> p = (i, j)).
    { intros i j p. unfold inner.
      destruct (nth_error l i); [|intros []].
      destruct (nth_error l j); [|intros []].
      destruct (CheckCollision _ _); [|intros []].
      intros [<-|[]]; reflexivity. }
    assert (Hnd_inner : forall i j, NoDup (inner i j)).
    { intros i j. unfold inner.
      destruct (nth_error l i); [|constructor].
      destruct (nth_error l j); [|constructor].
      destruct (CheckCollision _ _); [|constructor].
      constructor; [intros []|constructor]. }
    assert (Hrow : forall i (js : list nat), NoDup js ->
              NoDup (flat_map (inner i) js)).
    { intros i js. induction 1 as [|j js Hj _ IH]; cbn [flat_map]; [constructor|].
      apply NoDup_app; [apply Hnd_inner|exact IH|].
      intros p Hp Hq. apply Hinner in Hp. subst p.
      apply in_flat_map in Hq. destruct Hq as (j' & Hj' & Hq).
      apply Hinner in Hq. injection Hq as <-. contradiction. }
    assert (Hall : forall (f : nat -> list nat) (rows : list nat),
              (forall i, NoDup (f i)) -> NoDup rows ->
              NoDup (flat_map (fun i => flat_map (inner i) (f i)) rows)).
    { intros f rows Hf. induction 1 as [|i rows Hi _ IH]; cbn [flat_map]; [constructor|].
      apply NoDup_app; [apply Hrow, Hf|exact IH|].
      intros p Hp Hq.
      apply in_flat_map in Hp. destruct Hp as (j & _ & Hp).
      apply Hinner in Hp. subst p.
      apply in_flat_map in Hq. destruct Hq as (i' & Hi' & Hq).
      apply in_flat_map in Hq. destruct Hq as (j' & _ & Hq).
      apply Hinner in Hq. injection Hq as <- _. contradiction. }
    apply (Hall (fun i => seq (S i) (List.length l - S i))).
    + intros i. apply seq_NoDup.
    + apply seq_NoDup.
Qed.

End RegistryMore.

Section RegistryMoreScenario.

Import Scenario.
Local Open Scope float_scope.

(** X2 at the registry holding the sphere [sphere_17_4242], for the sprite
    [sprite_9_77]. *)
Lemma RemoveEntity_AddEntity_fresh_sprite :
  RemoveEntity "sprite_9_77"
    (AddEntity (sprite 30 12 2 (-3) 1)
       (AddEntity (sphere 10 10 1 10 0) (NewEntityManager float)))
  = (AddEntity (sphere 10 10 1 10 0) (NewEntityManager float), true).
Proof.
  apply (@RemoveEntity_AddEntity_fresh float (sprite 30 12 2 (-3) 1)).
  intros e' [<-|[]]. discriminate.
Defined.

End RegistryMoreScenario.

(** *** What a physics step never changes *)

Section Frame.

Context (F : Type) `{Float64 F}.
Local Abbreviation Entity := (Entity F).
Local Abbreviation PhysicsEngine := (PhysicsEngine F).
Local Open Scope go_scope.

Lemma identity_onBase (f : BaseEntity F -> BaseEntity F) (e : Entity) :
  (forall b, ID (f b) = ID b /\ Type_ (f b) = Type_ b /\ Size (f b) = Size b) ->
  identity (onBase f e) = identity e.
Proof.
  intros Hf. unfold identity, GetID, GetType, GetSize.
  destruct e as [s|s]; cbn [onBase base Sphere_BaseEntity Sprite_BaseEntity];
    destruct (Hf (Sphere_BaseEntity s)) as (-> & -> & ->) ||
    destruct (Hf (Sprite_BaseEntity s)) as (-> & -> & ->); reflexivity.
Qed.

Lemma identity_SetVelocity (vx vy : F) (e : Entity) :
  identity (SetVelocity vx vy e) = identity e.
Proof. destruct e; reflexivity. Qed.

Lemma identity_SetImmediatePosition (x y : F) (e : Entity) :
  identity (SetImmediatePosition x y e) = identity e.
Proof. destruct e; reflexivity. Qed.

Lemma identity_ApplyForce (fx fy : F) (e : Entity) :
  identity (ApplyForce fx fy e) = identity e.
Proof.
  apply identity_onBase. intros b. unfold BaseEntity_ApplyForce.
  destruct (Mass b >? lit 0); auto.
Qed.

Lemma identity_EntityUpdateAnimation (SpringX SpringY : Spring F) (e : Entity) :
  identity (EntityUpdateAnimation SpringX SpringY e) = identity e.
Proof. destruct e; reflexivity. Qed.

Lemma identity_Update (dt : F) (e : Entity) (r : RandSource F) :
  identity (fst (Update dt e r)) = identity e.
Proof.
  destruct e as [s|s]; [reflexivity|].
  unfold Update, Sprite_Update, rand_Float64.
  destruct (r 0%nat <? lit 0.1); [|reflexivity].
  unfold Sprite_NextFrame. cbn [Animation Sprite_BaseEntity].
  destruct (1 <? Z.of_nat (List.length (Animation s)))%Z; reflexivity.
Qed.

Lemma identity_handleBoundaryCollisions (pe : PhysicsEngine) (e : Entity) :
  identity (handleBoundaryCollisions pe e) = identity e.
Proof.
  rewrite (@handleBoundaryCollisions_by_hit F _ pe e _ _ _ _
             (surjective_pairing _) (surjective_pairing _)).
  destruct (hitX pe e), (hitY pe e);
    rewrite ?identity_SetVelocity, ?identity_SetImmediatePosition;
    rewrite ?identity_SetVelocity, ?identity_SetImmediatePosition;
    reflexivity.
Qed.

Lemma identity_capVelocity (pe : PhysicsEngine) (e : Entity) :
  identity (capVelocity pe e) = identity e.
Proof.
  unfold capVelocity. destruct (GetVelocity e) as [vx vy]. cbv zeta.
  match goal with |- context [if ?c then (_, _) else _] => destruct c end;
  apply identity_SetVelocity.
Qed.

Lemma identity_ApplyPhysics_entity (pe : PhysicsEngine) (e : Entity)
    (r : RandSource F) :
  identity (fst (ApplyPhysics_entity pe e r)) = identity e.
Proof.
  unfold ApplyPhysics_entity, updatePosition, applyAirResistance, applyGravity.
  destruct (GetVelocity (ApplyForce (lit 0) (Gravity pe * DeltaTime pe) e))
    as [vx vy].
  destruct (Update _ _ r) as [e1 r1] eqn:Hup. cbn [fst].
  rewrite identity_capVelocity, identity_handleBoundaryCollisions.
  change e1 with (fst (e1, r1)). rewrite <- Hup.
  now rewrite identity_Update, !identity_ApplyForce.
Qed.

Lemma identity_ApplyPhysics (pe : PhysicsEngine) (entities : list Entity) :
  forall r : RandSource F,
  map identity (fst (ApplyPhysics pe entities r)) = map identity entities.
Proof.
  induction entities as [|e l IH]; intros r; [reflexivity|].
  cbn [ApplyPhysics].
  destruct (ApplyPhysics_entity pe e r) as [e1 r1] eqn:He.
  specialize (IH r1). destruct (ApplyPhysics pe l r1) as [l1 r2].
  cbn [fst map] in *. rewrite IH. f_equal.
  change e1 with (fst (e1, r1)). rewrite <- He.
  apply identity_ApplyPhysics_entity.
Qed.

Lemma identity_resolveCollision (pe : PhysicsEngine) (e1 e2 : Entity)
    (r : RandSource F) :
  identity (fst (fst (resolveCollision pe e1 e2 r))) = identity e1
  /\ identity (snd (fst (resolveCollision pe e1 e2 r))) = identity e2.
Proof.
  unfold resolveCollision, rand_Float64.
  destruct (GetPosition e1) as [x1 y1], (GetPosition e2) as [x2 y2].
  destruct (GetVelocity e1) as [vx1 vy1], (GetVelocity e2) as [vx2 vy2].
  destruct (GetBounds e1) as [[[bx1 by1] w1] h1].
  destruct (GetBounds e2) as [[[bx2 by2] w2] h2].
  cbv zeta.
  repeat match goal with
         | |- context [if ?c then _ else _] => destruct c
         end;
    cbn [fst snd];
    rewrite ?identity_SetVelocity, ?identity_SetImmediatePosition;
    split; reflexivity.
Qed.

Lemma nth_error_store_other (i k : nat) (e : Entity) (l : list Entity) :
  i <> k -> nth_error (store i e l) k = nth_error l k.
Proof.
  revert i k; induction l as [|a l IH]; intros i k Hik.
  - destruct i; reflexivity.
  - destruct i, k; cbn [store nth_error]; try reflexivity; [congruence|].
    apply IH. congruence.
Qed.

Lemma identity_store (i : nat) (e : Entity) (l : list Entity) :
  nth_error (map identity l) i = Some (identity e) ->
  map identity (store i e l) = map identity l.
Proof.
  revert i; induction l as [|a l IH]; intros i Hi.
  - destruct i; reflexivity.
  - destruct i; cbn [store map nth_error] in *.
    + f_equal. congruence.
    + f_equal. now apply IH.
Qed.

Lemma identity_resolvePair (pe : PhysicsEngine)
    (st : list Entity * RandSource F) (p : CollisionPair) :
  map identity (fst (resolvePair pe st p)) = map identity (fst st).
Proof.
  destruct st as [l r], p as [i j]. unfold resolvePair. cbn [fst].
  destruct (nth_error l i) as [e1|] eqn:H1; [|reflexivity].
  destruct (nth_error l j) as [e2|] eqn:H2; [|reflexivity].
  destruct (identity_resolveCollision pe e1 e2 r) as [I1 I2].
  destruct (resolveCollision pe e1 e2 r) as [[e1' e2'] r']. cbn [fst snd] in *.
  assert (Hs1 : map identity (store i e1' l) = map identity l).
  { apply identity_store. rewrite nth_error_map, H1. cbn. now rewrite I1. }
  rewrite identity_store; [exact Hs1|].
  rewrite Hs1, nth_error_map, H2. cbn. now rewrite I2.
Qed.

Lemma untouched_resolvePair (pe : PhysicsEngine)
    (st : list Entity * RandSource F) (p : CollisionPair) (k : nat) :
  fst p <> k -> snd p <> k ->
  nth_error (fst (resolvePair pe st p)) k = nth_error (fst st) k.
Proof.
  destruct st as [l r], p as [i j]. unfold resolvePair. cbn [fst snd].
  intros Hi Hj.
  destruct (nth_error l i) as [e1|]; [|reflexivity].
  destruct (nth_error l j) as [e2|]; [|reflexivity].
  destruct (resolveCollision pe e1 e2 r) as [[e1' e2'] r']. cbn [fst].
  now rewrite !nth_error_store_other.
Qed.

Lemma HandleEntityCollisions_fold (pe : PhysicsEngine) (entities : list Entity)
    (r : RandSource F) :
  HandleEntityCollisions pe entities r
  = fold_left (resolvePair pe) (findCollisions pe entities) (entities, r).
Proof. reflexivity. Qed.

Lemma identity_HandleEntityCollisions (pe : PhysicsEngine)
    (entities : list Entity) (r : RandSource F) :
  map identity (fst (HandleEntityCollisions pe entities r))
  = map identity entities.
Proof.
  rewrite HandleEntityCollisions_fold.
  generalize (findCollisions pe entities) as pairs.
  change entities with (fst (entities, r)) at 2.
  generalize (entities, r) as st.
  intros st pairs; revert st.
  induction pairs as [|p pairs IH]; intros st; [reflexivity|].
  cbn [fold_left]. rewrite IH. apply identity_resolvePair.
Qed.

(** X4.  [HandleEntityCollisions] writes only to the entities of the pairs
    [findCollisions] returned: the entity at any index that is in none of
    these pairs is returned as it was.  No entity is added, dropped or
    moved to another index, and none changes its ID, type or size class;
    without a detected collision the slice is returned unchanged. *)
Theorem HandleEntityCollisions_touches_only_colliding (pe : PhysicsEngine)
    (entities : list Entity) (r : RandSource F) :
  (forall k,
      involved k (findCollisions pe entities) = false ->
      nth_error (fst (HandleEntityCollisions pe entities r)) k
      = nth_error entities k)
  /\ map identity (fst (HandleEntityCollisions pe entities r))
     = map identity entities
  /\ (findCollisions pe entities = [] ->
      HandleEntityCollisions pe entities r = (entities, r)).
Proof.
  split; [|split; [apply identity_HandleEntityCollisions|]].
  - intros k. rewrite HandleEntityCollisions_fold.
    generalize (findCollisions pe entities) as pairs.
    change entities with (fst (entities, r)) at 2.
    generalize (entities, r) as st.
    intros st pairs; revert st.
    induction pairs as [|p pairs IH]; intros st Hk; [reflexivity|].
    cbn [involved existsb] in Hk. apply orb_false_iff in Hk.
    destruct Hk as [Hp Hk]. apply orb_false_iff in Hp. destruct Hp as [Hi Hj].
    apply Nat.eqb_neq in Hi, Hj.
    cbn [fold_left]. rewrite (IH _ Hk). now apply untouched_resolvePair.
  - intros Hnone. rewrite HandleEntityCollisions_fold, Hnone. reflexivity.
Qed.

(** X5.  A tick, paused or not, keeps the registry's entities in number and
    order, each with its ID, type and size class; it leaves the engine's
    parameters and the flags [paused] and [ready] as they were. *)
Theorem Update_tickMsg_keeps_identity (SpringX SpringY : Spring F)
    (m : Model F) (r : RandSource F) :
  let m' := fst (Update_tickMsg SpringX SpringY m r) in
  map identity (GetEntities (entityManager m'))
  = map identity (GetEntities (entityManager m))
  /\ Count (entityManager m') = Count (entityManager m)
  /\ physicsEngine m' = physicsEngine m
  /\ paused m' = paused m
  /\ ready m' = ready m.
Proof.
  cbv zeta.
  assert (Hid : map identity
      (GetEntities (entityManager (fst (Update_tickMsg SpringX SpringY m r))))
    = map identity (GetEntities (entityManager m))).
  { unfold Update_tickMsg, GetEntities.
    destruct (ready m); [|reflexivity].
    destruct (paused m); cbn [negb].
    - cbn [fst entityManager entities].
      rewrite map_map. apply map_ext. apply identity_EntityUpdateAnimation.
    - destruct (ApplyPhysics (physicsEngine m) (entities (entityManager m)) r)
        as [l1 r1] eqn:Hap.
      destruct (HandleEntityCollisions (physicsEngine m) l1 r1) as [l2 r2] eqn:Hc.
      cbn [fst entityManager entities].
      rewrite map_map.
      rewrite (map_ext _ identity (identity_EntityUpdateAnimation SpringX SpringY)).
      change l2 with (fst (l2, r2)). rewrite <- Hc.
      rewrite identity_HandleEntityCollisions.
      change l1 with (fst (l1, r1)). rewrite <- Hap.
      apply identity_ApplyPhysics. }
  split; [exact Hid|].
  split.
  { unfold Count. f_equal. unfold GetEntities in Hid.
    apply (f_equal (@List.length _)) in Hid. now rewrite !length_map in Hid. }
  unfold Update_tickMsg.
  destruct (ready m) eqn:Hr; [|cbn [fst]; auto].
  destruct (if negb (paused m) then _ else _) as [l2 r2].
  cbn [fst physicsEngine paused ready]. auto.
Qed.

(** X23.  [EntityManager.Update] moves every entity, sphere or sprite, by
    its velocity times the timestep and changes no velocity; it keeps the
    entities in number and order, with their IDs, types and size
    classes. *)
Theorem EntityManager_Update_integrates (dt : F) (em : EntityManager F)
    (r : RandSource F) :
  let em' := fst (EntityManager_Update dt em r) in
  map GetPosition (GetEntities em')
  = map (fun e => (fst (GetPosition e) + fst (GetVelocity e) * dt,
                   snd (GetPosition e) + snd (GetVelocity e) * dt))
        (GetEntities em)
  /\ map GetVelocity (GetEntities em') = map GetVelocity (GetEntities em)
  /\ map identity (GetEntities em') = map identity (GetEntities em)
  /\ Count em' = Count em.
Proof.
  cbv zeta. unfold EntityManager_Update, GetEntities, Count.
  assert (Hloop : forall (l : list Entity) (r0 : RandSource F),
    let l' := fst (EntityManager_Update_loop dt l r0) in
    map GetPosition l'
    = map (fun e => (fst (GetPosition e) + fst (GetVelocity e) * dt,
                     snd (GetPosition e) + snd (GetVelocity e) * dt)) l
    /\ map GetVelocity l' = map GetVelocity l
    /\ map identity l' = map identity l
    /\ List.length l' = List.length l).
  { induction l as [|e l IH]; intros r0; cbv zeta; [repeat split|].
    cbn [EntityManager_Update_loop].
    destruct (Update dt e r0) as [e1 r1] eqn:He.
    specialize (IH r1). cbv zeta in IH.
    destruct (EntityManager_Update_loop dt l r1) as [l1 r2].
    cbn [fst map List.length] in *.
    destruct IH as (IH1 & IH2 & IH3 & IH4).
    rewrite IH1, IH2, IH3, IH4.
    change e1 with (fst (e1, r1)). rewrite <- He.
    now rewrite GetPosition_Update, GetVelocity_Update, identity_Update. }
  specialize (Hloop (entities em) r). cbv zeta in Hloop.
  destruct (EntityManager_Update_loop dt (entities em) r) as [l1 r1].
  cbn [fst entities] in *.
  destruct Hloop as (H1 & H2 & H3 & H4). now rewrite H1, H2, H3, H4.
Qed.

End Frame.

(** *** Containment and velocity bounds, in exact arithmetic *)

Section PositionAfterBoundary.

Context (F : Type) `{Float64 F}.
Local Open Scope go_scope.

Lemma GetPosition_handleBoundaryCollisions (pe : PhysicsEngine F) (e : Entity F) :
  let size := ofInt (GetSize e) in
  GetPosition (handleBoundaryCollisions pe e)
  = (clamped (hitX pe e) (MinX pe) (MaxX pe) size (fst (GetPosition e)),
     clamped (hitY pe e) (MinY pe) (MaxY pe) size (snd (GetPosition e))).
Proof.
  cbv zeta.
  rewrite (@handleBoundaryCollisions_by_hit F _ pe e _ _ _ _
             (surjective_pairing _) (surjective_pairing _)).
  destruct (hitX pe e), (hitY pe e); unfold clamped;
    rewrite ?GetPosition_SetVelocity, ?GetPosition_SetImmediatePosition;
    rewrite ?GetPosition_SetVelocity, ?GetPosition_SetImmediatePosition;
    try reflexivity; apply surjective_pairing.
Qed.

Lemma GetSize_identity (e e' : Entity F) :
  identity e' = identity e -> GetSize e' = GetSize e.
Proof. unfold identity. congruence. Qed.

End PositionAfterBoundary.

Section Walls.

Local Open Scope R_scope.

Lemma insideWalls_handleBoundaryCollisions (pe : PhysicsEngine R) (e : Entity R) :
  fitsWalls pe e = true ->
  insideWalls pe (handleBoundaryCollisions pe e) = true.
Proof.
  unfold fitsWalls, insideWalls. intros Hfit.
  rewrite (GetSize_identity (identity_handleBoundaryCollisions pe e)).
  rewrite GetPosition_handleBoundaryCollisions.
  unfold hitX, hitY, clamped.
  destruct (GetPosition e) as [x y]. cbn [fst snd].
  cbn [fadd fsub fdiv fle exact lit ofInt] in *.
  set (s := IZR (GetSize e)) in *.
  assert (H2 : Q2R 2 = 2) by (unfold Q2R; cbn [Qnum Qden]; lra).
  rewrite !H2.
  apply andb_true_iff in Hfit. destruct Hfit as [Hx Hy].
  apply Exact_leb_le in Hx, Hy.
  destruct (Exact.leb (x - s / 2) (MinX pe)) eqn:HxMin;
    [|destruct (Exact.leb (MaxX pe) (x + s / 2)) eqn:HxMax];
    (destruct (Exact.leb (y - s / 2) (MinY pe)) eqn:HyMin;
     [|destruct (Exact.leb (MaxY pe) (y + s / 2)) eqn:HyMax]);
    rewrite ?Exact_leb_le in *; rewrite ?Exact_leb_gt in *;
    repeat (apply andb_true_iff; split); apply Exact_leb_le; lra.
Qed.

Lemma insideWalls_ApplyPhysics_entity (pe : PhysicsEngine R) (e : Entity R)
    (r : RandSource R) :
  fitsWalls pe e = true ->
  insideWalls pe (fst (ApplyPhysics_entity pe e r)) = true.
Proof.
  intros Hfit.
  unfold ApplyPhysics_entity, updatePosition, applyAirResistance, applyGravity.
  destruct (GetVelocity (ApplyForce (lit 0) (Gravity pe * DeltaTime pe)%go e))
    as [vx vy].
  destruct (Update _ _ r) as [e1 r1] eqn:Hup. cbn [fst].
  assert (Hsize : GetSize e1 = GetSize e).
  { change e1 with (fst (e1, r1)). rewrite <- Hup.
    now rewrite GetSize_Update, !GetSize_ApplyForce. }
  assert (Hfit1 : fitsWalls pe e1 = true)
    by (unfold fitsWalls in *; now rewrite Hsize).
  pose proof (insideWalls_handleBoundaryCollisions pe e1 Hfit1) as Hin.
  unfold insideWalls in *.
  now rewrite GetPosition_capVelocity,
    (GetSize_identity (identity_capVelocity pe (handleBoundaryCollisions pe e1))).
Qed.

(** X6.  In exact arithmetic, [ApplyPhysics] leaves every entity for which
    the field is at least as wide and as high as its size class with its
    size box (centre +- size/2) within the walls, wherever the entity was
    and however fast it moved. *)
Theorem ApplyPhysics_keeps_inside_walls (pe : PhysicsEngine R)
    (entities : list (Entity R)) (r : RandSource R) :
  Forall (fun e => fitsWalls pe e = true) entities ->
  Forall (fun e => insideWalls pe e = true) (fst (ApplyPhysics pe entities r)).
Proof.
  intros Hfit. revert r.
  induction Hfit as [|e l He _ IH]; intros r; [constructor|].
  cbn [ApplyPhysics].
  destruct (ApplyPhysics_entity pe e r) as [e1 r1] eqn:Hent.
  specialize (IH r1). destruct (ApplyPhysics pe l r1) as [l1 r2].
  cbn [fst] in *. constructor; [|exact IH].
  change e1 with (fst (e1, r1)). rewrite <- Hent.
  now apply insideWalls_ApplyPhysics_entity.
Qed.

(** X27.  In exact arithmetic, with a restitution in [[0, 1]],
    [handleBoundaryCollisions] never increases the absolute value of a
    velocity component. *)
Theorem handleBoundaryCollisions_never_speeds_up (pe : PhysicsEngine R)
    (e : Entity R) :
  0 <= Restitution pe <= 1 ->
  Rabs (fst (GetVelocity (handleBoundaryCollisions pe e)))
    <= Rabs (fst (GetVelocity e))
  /\ Rabs (snd (GetVelocity (handleBoundaryCollisions pe e)))
     <= Rabs (snd (GetVelocity e)).
Proof.
  intros Hr.
  rewrite (@handleBoundaryCollisions_by_hit R exact pe e _ _ _ _
             (surjective_pairing _) (surjective_pairing _)).
  destruct (GetVelocity e) as [vx vy] eqn:V. cbn [fst snd].
  assert (Hrefl : forall v, Rabs ((- v * Restitution pe)%go) <= Rabs v).
  { intros v. cbn [fmul fneg exact].
    rewrite Rabs_mult, Rabs_Ropp, (Rabs_pos_eq (Restitution pe)) by lra.
    pose proof (Rabs_pos v). nra. }
  destruct (hitX pe e), (hitY pe e);
    rewrite ?GetVelocity_SetVelocity_exact, ?V; cbn [fst snd];
    split; try apply Hrefl; apply Rle_refl.
Qed.

End Walls.

Section VelocityCap.

Local Open Scope R_scope.

Lemma Rabs_copysign (m v : R) : Rabs (Exact.copysign m v) = Rabs m.
Proof.
  unfold Exact.copysign. destruct (Rlt_dec v 0).
  - now rewrite Rabs_Ropp, Rabs_Rabsolu.
  - apply Rabs_Rabsolu.
Qed.

Lemma Rabs_mult_unit (v f b : R) :
  0 <= f <= 1 -> Rabs v <= b -> Rabs (v * f) <= b.
Proof.
  intros Hf Hv. rewrite Rabs_mult, (Rabs_pos_eq f) by lra.
  pose proof (Rabs_pos v). nra.
Qed.

Lemma capVelocity_bounds (pe : PhysicsEngine R) (e : Entity R) :
  0 <= MaxVelocity pe -> 0 <= StaticFriction pe <= 1 ->
  Rabs (fst (GetVelocity (capVelocity pe e))) <= MaxVelocity pe
  /\ Rabs (snd (GetVelocity (capVelocity pe e))) <= MaxVelocity pe.
Proof.
  intros Hmax Hf. unfold capVelocity.
  destruct (GetVelocity e) as [vx vy]. cbv zeta.
  cbn [flt fmul fadd Abs Sqrt Copysign exact].
  set (cx := if Exact.ltb (MaxVelocity pe) (Rabs vx)
             then Exact.copysign (MaxVelocity pe) vx else vx).
  set (cy := if Exact.ltb (MaxVelocity pe) (Rabs vy)
             then Exact.copysign (MaxVelocity pe) vy else vy).
  assert (Hcx : Rabs cx <= MaxVelocity pe).
  { unfold cx. destruct (Exact.ltb (MaxVelocity pe) (Rabs vx)) eqn:E.
    - rewrite Rabs_copysign, Rabs_pos_eq; lra.
    - apply Exact_ltb_ge in E. exact E. }
  assert (Hcy : Rabs cy <= MaxVelocity pe).
  { unfold cy. destruct (Exact.ltb (MaxVelocity pe) (Rabs vy)) eqn:E.
    - rewrite Rabs_copysign, Rabs_pos_eq; lra.
    - apply Exact_ltb_ge in E. exact E. }
  assert (H0 : Rabs (lit 0) <= MaxVelocity pe).
  { unfold lit, exact, Q2R; cbn [Qnum Qden].
    replace (0 * / 1) with 0 by lra. rewrite Rabs_R0. exact Hmax. }
  destruct (Exact.ltb (sqrt (cx * cx + cy * cy)) (MinVelocity pe * lit 3));
    rewrite GetVelocity_SetVelocity_exact; cbn [fst snd];
    split;
    match goal with
    | |- Rabs (if ?c then _ else _) <= _ => destruct c
    end;
    auto using Rabs_mult_unit.
Qed.

(** X7.  In exact arithmetic, for an engine with a non-negative velocity
    cap and a static friction factor in [[0, 1]] (the constructor's 50 and
    0.8), every entity leaves [ApplyPhysics] with both velocity components
    within the cap, in absolute value. *)
Theorem ApplyPhysics_caps_velocity (pe : PhysicsEngine R)
    (entities : list (Entity R)) (r : RandSource R) :
  0 <= MaxVelocity pe -> 0 <= StaticFriction pe <= 1 ->
  Forall (fun e => Rabs (fst (GetVelocity e)) <= MaxVelocity pe
                   /\ Rabs (snd (GetVelocity e)) <= MaxVelocity pe)
    (fst (ApplyPhysics pe entities r)).
Proof.
  intros Hmax Hf. revert r.
  induction entities as [|e l IH]; intros r; [constructor|].
  cbn [ApplyPhysics].
  destruct (ApplyPhysics_entity pe e r) as [e1 r1] eqn:Hent.
  specialize (IH r1). destruct (ApplyPhysics pe l r1) as [l1 r2].
  cbn [fst] in *. constructor; [|exact IH].
  change e1 with (fst (e1, r1)). rewrite <- Hent.
  unfold ApplyPhysics_entity.
  destruct (updatePosition pe _ r) as [e2 r3]. cbn [fst].
  now apply capVelocity_bounds.
Qed.

(** X8.  In exact arithmetic, with draws in [[0, 1)] as [rand.Float64]
    returns them, [AddRandomVelocity] changes each velocity component by at
    most [maxVelocity / 2], leaves the position alone and takes exactly two
    draws from the source. *)
Theorem AddRandomVelocity_bounded (pe : PhysicsEngine R) (e : Entity R)
    (maxVelocity : R) (r : RandSource R) :
  0 <= maxVelocity -> 0 <= r 0%nat < 1 -> 0 <= r 1%nat < 1 ->
  let e' := fst (AddRandomVelocity pe e maxVelocity r) in
  let r' := snd (AddRandomVelocity pe e maxVelocity r) in
  Rabs (fst (GetVelocity e') - fst (GetVelocity e)) <= maxVelocity / 2
  /\ Rabs (snd (GetVelocity e') - snd (GetVelocity e)) <= maxVelocity / 2
  /\ GetPosition e' = GetPosition e
  /\ (forall n, r' n = r (S (S n))).
Proof.
  intros Hmax H0 H1. cbv zeta.
  unfold AddRandomVelocity, rand_Float64.
  destruct (GetVelocity e) as [vx vy] eqn:Hv. cbn [fst snd].
  rewrite GetVelocity_SetVelocity_exact, GetPosition_SetVelocity. cbn [fst snd].
  cbn [fadd fsub fmul exact lit]. unfold Q2R; cbn [Qnum Qden].
  repeat split.
  - apply Rabs_le. nra.
  - apply Rabs_le. nra.
Qed.

End VelocityCap.

Section SlowComponents.

Local Open Scope go_scope.

Lemma stopped_component (v m : float) :
  let v' := if Abs v <? m then lit 0 else v in
  let v'' := if IsInf v' || IsNaN v' then lit 0 else v' in
  finite v'' = true /\ (v'' = lit 0 \/ (Abs v'' <? m) = false).
Proof.
  cbv zeta. destruct (Abs v <? m) eqn:E.
  - split; [reflexivity|left; reflexivity].
  - destruct (IsInf v || IsNaN v) eqn:Fv.
    + split; [reflexivity|left; reflexivity].
    + split; [unfold finite; now rewrite Fv|right; exact E].
Qed.

(** X9.  On binary64, whatever the engine's parameters and the entity's
    velocity (NaN and infinities included), [capVelocity] leaves two
    finite velocity components, each of them zero or not below
    [MinVelocity] in absolute value. *)
Theorem capVelocity_stops_slow_components (pe : PhysicsEngine float) (e : Entity float) :
  let vx := fst (GetVelocity (capVelocity pe e)) in
  let vy := snd (GetVelocity (capVelocity pe e)) in
  finite vx = true /\ finite vy = true
  /\ (vx = lit 0 \/ (Abs vx <? MinVelocity pe) = false)
  /\ (vy = lit 0 \/ (Abs vy <? MinVelocity pe) = false).
Proof.
  cbv zeta. unfold capVelocity.
  destruct (GetVelocity e) as [vx vy]. cbv zeta.
  set (cx := if Abs vx >? MaxVelocity pe then Copysign (MaxVelocity pe) vx else vx).
  set (cy := if Abs vy >? MaxVelocity pe then Copysign (MaxVelocity pe) vy else vy).
  destruct (Sqrt (cx * cx + cy * cy) <? MinVelocity pe * lit 3).
  - pose proof (stopped_component (cx * StaticFriction pe) (MinVelocity pe)) as Hx.
    pose proof (stopped_component (cy * StaticFriction pe) (MinVelocity pe)) as Hy.
    cbv zeta in Hx, Hy. destruct Hx as [Fx Sx], Hy as [Fy Sy].
    rewrite GetVelocity_SetVelocity_raw. cbn [fst snd]. auto.
  - pose proof (stopped_component cx (MinVelocity pe)) as Hx.
    pose proof (stopped_component cy (MinVelocity pe)) as Hy.
    cbv zeta in Hx, Hy. destruct Hx as [Fx Sx], Hy as [Fy Sy].
    rewrite GetVelocity_SetVelocity_raw. cbn [fst snd]. auto.
Qed.

End SlowComponents.

(** *** Separation and symmetry of collisions *)

Section Radii.
Context (F : Type) `{Float64 F}.
Local Open Scope go_scope.

Lemma collisionRadius_SetVelocity (vx vy : F) (e : Entity F) :
  collisionRadius (SetVelocity vx vy e) = collisionRadius e.
Proof. destruct e; reflexivity. Qed.

Lemma collisionRadius_SetImmediatePosition (x y : F) (e : Entity F) :
  collisionRadius (SetImmediatePosition x y e) = collisionRadius e.
Proof. destruct e; reflexivity. Qed.

(** Where [resolveCollision] leaves the two entities and what it leaves of
    their radii, for a pair it moves apart. *)
Lemma resolveCollision_positions (pe : PhysicsEngine F) (e1 e2 : Entity F)
    (r : RandSource F) (x1 y1 x2 y2 : F) :
  GetPosition e1 = (x1, y1) -> GetPosition e2 = (x2, y2) ->
  let dx := x2 - x1 in
  let dy := y2 - y1 in
  let distance := Sqrt (dx * dx + dy * dy) in
  let overlap :=
    (collisionRadius e1 + collisionRadius e2) - ContactTolerance pe - distance in
  (distance =? lit 0) = false -> (overlap >? lit 0) = true ->
  let out := resolveCollision pe e1 e2 r in
  GetPosition (fst (fst out))
  = (x1 - dx / distance * overlap * lit 0.5, y1 - dy / distance * overlap * lit 0.5)
  /\ GetPosition (snd (fst out))
     = (x2 + dx / distance * overlap * lit 0.5, y2 + dy / distance * overlap * lit 0.5)
  /\ collisionRadius (fst (fst out)) = collisionRadius e1
  /\ collisionRadius (snd (fst out)) = collisionRadius e2
  /\ snd out = r.
Proof.
  intros P1 P2. cbv zeta. intros Hd Ho.
  unfold resolveCollision, collisionRadius in *.
  rewrite P1, P2.
  destruct (GetVelocity e1) as [vx1 vy1], (GetVelocity e2) as [vx2 vy2].
  destruct (GetBounds e1) as [[[bx1 by1] w1] h1] eqn:B1.
  destruct (GetBounds e2) as [[[bx2 by2] w2] h2] eqn:B2.
  cbv zeta. rewrite Hd. cbv beta iota zeta. rewrite Ho.
  pose proof (collisionRadius_SetImmediatePosition) as RI.
  pose proof (collisionRadius_SetVelocity) as RV.
  unfold collisionRadius in RI, RV.
  repeat match goal with
         | |- context [if ?c then _ else _] => destruct c
         end;
    cbn [fst snd];
    rewrite ?GetPosition_SetVelocity, ?GetPosition_SetImmediatePosition;
    rewrite ?RV, ?RI, ?B1, ?B2; auto.
Qed.

End Radii.

Section Separation.

Local Open Scope R_scope.

Lemma separated_distance (dx dy o : R) :
  let d := sqrt (dx * dx + dy * dy) in
  d <> 0 -> 0 < o ->
  sqrt ((dx + 2 * (dx / d * o * (1 / 2))) * (dx + 2 * (dx / d * o * (1 / 2)))
        + (dy + 2 * (dy / d * o * (1 / 2))) * (dy + 2 * (dy / d * o * (1 / 2))))
  = d + o.
Proof.
  intros d Hd Ho.
  assert (H0 : 0 <= dx * dx + dy * dy) by apply sum_squares_nonneg.
  pose proof (sqrt_sqrt _ H0) as Hs. fold d in Hs.
  assert (Hpos : 0 < d).
  { pose proof (sqrt_pos (dx * dx + dy * dy)). fold d in H. lra. }
  replace ((dx + 2 * (dx / d * o * (1 / 2))) * (dx + 2 * (dx / d * o * (1 / 2)))
        + (dy + 2 * (dy / d * o * (1 / 2))) * (dy + 2 * (dy / d * o * (1 / 2))))
    with ((d + o) * (d + o)).
  - apply sqrt_square. lra.
  - transitivity ((dx * dx + dy * dy) * ((d + o) / d) * ((d + o) / d)).
    + rewrite <- Hs. field. exact Hd.
    + field. exact Hd.
Qed.


(** X11.  In exact arithmetic [checkEntityCollision] does not depend on the
    order of the two entities. *)
Theorem checkEntityCollision_symmetric (pe : PhysicsEngine R) (e1 e2 : Entity R) :
  checkEntityCollision pe e1 e2 = checkEntityCollision pe e2 e1
  /\ centerDistance e1 e2 = centerDistance e2 e1.
Proof.
  assert (Hd : centerDistance e1 e2 = centerDistance e2 e1).
  { unfold centerDistance.
    destruct (GetPosition e1) as [x1 y1], (GetPosition e2) as [x2 y2].
    cbn [fsub fmul fadd Sqrt exact]. f_equal. ring. }
  split; [|exact Hd].
  rewrite !checkEntityCollision_unfold, Hd.
  cbn [fadd fsub exact]. f_equal. ring.
Qed.

End Separation.

Section BoxSymmetry.

Context (F : Type) `{Float64 F}.
Local Open Scope go_scope.

(** X12.  [CheckCollision] computes the receiver's box with
    [BaseEntity.GetBounds] and the other entity's box with its own
    [GetBounds].  Between entities whose own [GetBounds] is the inherited
    one (every sprite; a sphere whose radius is half its effective size)
    the answer does not depend on which of the two is the receiver. *)
Theorem CheckCollision_symmetric (e1 e2 : Entity F) :
  inheritsBounds e1 -> inheritsBounds e2 ->
  CheckCollision e1 e2 = CheckCollision e2 e1.
Proof.
  unfold inheritsBounds, CheckCollision, BaseEntity_CheckCollision.
  intros H1 H2. rewrite H1, H2.
  destruct (BaseEntity_GetBounds (base e1)) as [[[x1 y1] w1] h1].
  destruct (BaseEntity_GetBounds (base e2)) as [[[x2 y2] w2] h2].
  f_equal.
  destruct (x1 + w1 <? x2), (x2 + w2 <? x1), (y1 + h1 <? y2), (y2 + h2 <? y1);
    reflexivity.
Qed.

Lemma inheritsBounds_sprite (s : Sprite F) : inheritsBounds (ESprite s).
Proof. reflexivity. Qed.

End BoxSymmetry.

Section Detectors.

Local Open Scope R_scope.

Lemma GetBounds_centred (e : Entity R) :
  GetBounds e
  = (fst (GetPosition e) - collisionRadius e, snd (GetPosition e) - collisionRadius e,
     2 * collisionRadius e, 2 * collisionRadius e).
Proof.
  assert (H2 : (lit 2 : R) = 2) by (unfold lit, exact, Q2R; cbn [Qnum Qden]; lra).
  destruct e as [s|s]; unfold collisionRadius, GetBounds, Sphere_GetBounds,
    BaseEntity_GetBounds, GetPosition, BaseEntity_GetPosition;
    cbn [base Sphere_BaseEntity Sprite_BaseEntity fst snd fsub fmul fdiv exact];
    rewrite !H2; repeat (apply pair_equal_spec; split); field.
Qed.

Lemma Rabs_le_sqrt_l (a b : R) : Rabs a <= sqrt (a * a + b * b).
Proof.
  rewrite <- sqrt_Rsqr_abs. apply sqrt_le_1_alt. unfold Rsqr. nra.
Qed.

Lemma Rabs_le_sqrt_r (a b : R) : Rabs b <= sqrt (a * a + b * b).
Proof.
  rewrite <- sqrt_Rsqr_abs. apply sqrt_le_1_alt. unfold Rsqr. nra.
Qed.

Lemma Rabs_bounds (a b : R) : Rabs a <= b -> - b <= a <= b.
Proof. unfold Rabs. destruct (Rcase_abs a); lra. Qed.

(** X26.  In exact arithmetic, with a non-negative contact tolerance, a
    pair the engine's [checkEntityCollision] reports is also reported by
    the entity's [CheckCollision], when the receiver's own [GetBounds] is
    the inherited one: the circle test is at least as strict as the box
    test. *)
Theorem checkEntityCollision_implies_CheckCollision (pe : PhysicsEngine R)
    (e1 e2 : Entity R) :
  0 <= ContactTolerance pe ->
  inheritsBounds e1 ->
  checkEntityCollision pe e1 e2 = true ->
  CheckCollision e1 e2 = true.
Proof.
  intros Htol Hin Hc.
  rewrite checkEntityCollision_unfold in Hc. apply Exact_ltb_lt in Hc.
  cbn [fadd fsub exact] in Hc.
  unfold CheckCollision, BaseEntity_CheckCollision.
  unfold inheritsBounds in Hin. rewrite <- Hin, !GetBounds_centred.
  unfold centerDistance in Hc.
  destruct (GetPosition e1) as [x1 y1], (GetPosition e2) as [x2 y2].
  cbn [fst snd fadd fsub fmul flt Sqrt exact] in *.
  pose proof (Rabs_le_sqrt_l (x2 - x1) (y2 - y1)) as Hx.
  pose proof (Rabs_le_sqrt_r (x2 - x1) (y2 - y1)) as Hy.
  apply Rabs_bounds in Hx. apply Rabs_bounds in Hy.
  set (d := sqrt ((x2 - x1) * (x2 - x1) + (y2 - y1) * (y2 - y1))) in *.
  replace (Exact.ltb (x1 - collisionRadius e1 + 2 * collisionRadius e1)
             (x2 - collisionRadius e2)) with false
    by (symmetry; apply Exact_ltb_ge; lra).
  replace (Exact.ltb (x2 - collisionRadius e2 + 2 * collisionRadius e2)
             (x1 - collisionRadius e1)) with false
    by (symmetry; apply Exact_ltb_ge; lra).
  replace (Exact.ltb (y1 - collisionRadius e1 + 2 * collisionRadius e1)
             (y2 - collisionRadius e2)) with false
    by (symmetry; apply Exact_ltb_ge; lra).
  replace (Exact.ltb (y2 - collisionRadius e2 + 2 * collisionRadius e2)
             (y1 - collisionRadius e1)) with false
    by (symmetry; apply Exact_ltb_ge; lra).
  reflexivity.
Qed.

End Detectors.

(** *** Entities: mass, forces, frames, display position *)

Section FactoryExact.

Local Open Scope R_scope.

Lemma effectiveSize_exact (size : Z) :
  (size <> 0)%Z -> (0 <= size)%Z -> 0 < effectiveSize (F:=R) size.
Proof.
  intros Hne Hpos. unfold effectiveSize.
  assert (H8 : 0 < (lit 0.8 : R)) by (unfold lit, exact, Q2R; cbn [Qnum Qden]; lra).
  destruct size as [|p|p]; [lia| |lia].
  assert (Hp : 0 < IZR (Z.pos p)) by (apply IZR_lt; lia).
  assert (Hgen : 0 < (ofInt (Z.pos p) * lit 0.8)%go).
  { cbn [fmul ofInt exact]. apply Rmult_lt_0_compat; assumption. }
  destruct p as [[[|[]|]|[|[]|]|]|[[|[]|]|[|[]|]|]|]; try exact Hgen;
    unfold lit, exact, Q2R; cbn [Qnum Qden]; lra.
Qed.

(** X13.  In exact arithmetic, a sphere as [NewSphere] makes it has a
    radius of half its mass, and its own [GetBounds] is the inherited one.
    Its mass is positive for every size but 0, and 0 for size 0; a
    negative size gives the sphere of size 1. *)
Theorem NewSphere_mass_and_bounds (x y : R) (size : Z) (color id : string) :
  let s := NewSphere x y size color id in
  Sphere_GetRadius s = Mass (Sphere_BaseEntity s) / 2
  /\ inheritsBounds (ESphere s)
  /\ (size <> 0%Z -> 0 < Mass (Sphere_BaseEntity s))
  /\ (size = 0%Z -> Mass (Sphere_BaseEntity s) = 0)
  /\ ((size < 0)%Z -> s = NewSphere x y 1 color id).
Proof.
  cbv zeta.
  assert (H2 : (lit 2 : R) = 2) by (unfold lit, exact, Q2R; cbn [Qnum Qden]; lra).
  assert (H20 : (lit 2.0 : R) = 2) by (unfold lit, exact, Q2R; cbn [Qnum Qden]; lra).
  split; [|split; [|split; [|split]]].
  - unfold Sphere_GetRadius, NewSphere. cbn [Radius Mass Sphere_BaseEntity fdiv exact].
    now rewrite H20.
  - unfold inheritsBounds, GetBounds, Sphere_GetBounds, BaseEntity_GetBounds, NewSphere.
    cbn [base Radius Size X Y Sphere_BaseEntity fdiv fsub fmul exact].
    rewrite H2, H20.
    set (eff := effectiveSize _).
    repeat (apply pair_equal_spec; split); try reflexivity; field.
  - intros Hne. unfold NewSphere. cbn [Mass Sphere_BaseEntity].
    destruct (size <? 0)%Z eqn:Hneg.
    + apply effectiveSize_exact; lia.
    + apply Z.ltb_ge in Hneg. apply effectiveSize_exact; lia.
  - intros ->. unfold NewSphere. cbn [Mass Sphere_BaseEntity Z.ltb Z.compare effectiveSize].
    cbn [fmul ofInt exact]. lra.
  - intros Hneg. unfold NewSphere. apply Z.ltb_lt in Hneg. rewrite Hneg.
    reflexivity.
Qed.

(** X14.  In exact arithmetic forces superpose: applying two forces one
    after the other gives the entity that applying their sum gives,
    whatever the mass. *)
Theorem ApplyForce_superposes (fx1 fy1 fx2 fy2 : R) (e : Entity R) :
  ApplyForce fx2 fy2 (ApplyForce fx1 fy1 e) = ApplyForce (fx1 + fx2) (fy1 + fy2) e.
Proof.
  assert (Hb : forall b : BaseEntity R,
    BaseEntity_ApplyForce fx2 fy2 (BaseEntity_ApplyForce fx1 fy1 b)
    = BaseEntity_ApplyForce (fx1 + fx2) (fy1 + fy2) b).
  { intros b. unfold BaseEntity_ApplyForce.
    cbn [flt fadd fdiv exact].
    destruct (Exact.ltb (lit 0) (Mass b)) eqn:Hm; cbn [Mass]; rewrite Hm;
      [|reflexivity].
    apply Exact_ltb_lt in Hm.
    unfold lit, exact, Q2R in Hm; cbn [Qnum Qden] in Hm.
    cbn [ID X Y VX VY Size Color Symbol Type_ Mass AnimationState].
    f_equal; field; lra. }
  destruct e as [s|s]; unfold ApplyForce, onBase;
    cbn [Sphere_BaseEntity Sprite_BaseEntity Radius CustomSymbol Animation CurrentFrame];
    now rewrite Hb.
Qed.

End FactoryExact.

Section Frames.

Context (F : Type) `{Float64 F}.
Local Open Scope Z_scope.

Lemma Sprite_NextFrame_step (s : Sprite F) :
  validFrame s ->
  validFrame (Sprite_NextFrame s)
  /\ Animation (Sprite_NextFrame s) = Animation s
  /\ CurrentFrame (Sprite_NextFrame s)
     = (CurrentFrame s + 1) mod Z.of_nat (List.length (Animation s))
  /\ (showsCurrentFrame s -> showsCurrentFrame (Sprite_NextFrame s))
  /\ physicsState (ESprite (Sprite_NextFrame s)) = physicsState (ESprite s).
Proof.
  unfold validFrame, showsCurrentFrame, Sprite_NextFrame. intros Hv.
  destruct (1 <? Z.of_nat (List.length (Animation s))) eqn:Hlen.
  - apply Z.ltb_lt in Hlen.
    cbn [CurrentFrame Animation Sprite_BaseEntity Symbol].
    repeat split; try reflexivity; apply Z.mod_pos_bound; lia.
  - apply Z.ltb_ge in Hlen.
    assert (Hone : Z.of_nat (List.length (Animation s)) = 1) by lia.
    assert (Hzero : CurrentFrame s = 0) by lia.
    repeat split; try tauto; try lia.
    rewrite Hone, Hzero. reflexivity.
Qed.

(** X15.  For a sprite whose [CurrentFrame] is an index of [Animation] and
    whose symbol is that frame, [n] calls of [NextFrame] keep both
    properties and the frame list, leave the frame index at
    (CurrentFrame + n) mod len(Animation), and change neither position nor
    velocity.  (With a non-negative frame index Go's [%] is [mod].) *)
Theorem Sprite_NextFrame_cycles (s : Sprite F) (n : nat) :
  validFrame s -> showsCurrentFrame s ->
  let s' := Sprite_NextFrameTimes n s in
  validFrame s'
  /\ showsCurrentFrame s'
  /\ Animation s' = Animation s
  /\ CurrentFrame s'
     = (CurrentFrame s + Z.of_nat n) mod Z.of_nat (List.length (Animation s))
  /\ physicsState (ESprite s') = physicsState (ESprite s).
Proof.
  cbv zeta. revert s. induction n as [|n IH]; intros s Hv Hs.
  - cbn [Sprite_NextFrameTimes]. repeat split; try apply Hv; try exact Hs.
    rewrite Z.add_0_r, Z.mod_small; [reflexivity|exact Hv].
  - cbn [Sprite_NextFrameTimes].
    destruct (Sprite_NextFrame_step Hv) as (Hv1 & Ha1 & Hc1 & Hs1 & Hp1).
    destruct (IH _ Hv1 (Hs1 Hs)) as (Hv2 & Hs2 & Ha2 & Hc2 & Hp2).
    split; [exact Hv2|]. split; [exact Hs2|].
    split; [congruence|]. split; [|congruence].
    rewrite Hc2, Ha1, Hc1, Z.add_mod_idemp_l.
    + f_equal. lia.
    + unfold validFrame in Hv. lia.
Qed.

(** X16.  A sprite as [NewSprite] makes it has a single frame, its symbol:
    [NextFrame] leaves it unchanged, so [Sprite.Update] moves it as
    [BaseEntity.Update] does and takes one draw from the random source. *)
Theorem NewSprite_single_frame (x y : F) (size : Z)
    (color customSymbol id : string) (pick : nat) (dt : F) (r : RandSource F) :
  let s := NewSprite x y size color customSymbol id pick in
  validFrame s /\ showsCurrentFrame s
  /\ Sprite_NextFrame s = s
  /\ Update dt (ESprite s) r
     = (onBase (BaseEntity_Update dt) (ESprite s), fun n => r (S n)).
Proof.
  cbv zeta. split; [|split; [|split]].
  - unfold validFrame, NewSprite. cbn. lia.
  - reflexivity.
  - reflexivity.
  - unfold Update, Sprite_Update, rand_Float64.
    destruct (flt (r 0%nat) (lit 0.1)); reflexivity.
Qed.

End Frames.

Section Display.

Context (F : Type) `{Float64 F}.
Local Open Scope go_scope.

(** X17.  [SetImmediatePosition] moves the displayed position with the
    physics position: both are the new position, the animation is at rest
    and its target is the new position.  [SetPosition] moves the physics
    position only: an entity with an animation state is still displayed
    where it was. *)
Theorem SetImmediatePosition_syncs_display (x y : F) (e : Entity F) :
  GetPosition (SetImmediatePosition x y e) = (x, y)
  /\ GetDisplayPositionOf (SetImmediatePosition x y e) = (x, y)
  /\ (forall eas,
        GetAnimationState (SetImmediatePosition x y e) = Some eas ->
        IsStillAnimating eas = false /\ GetTarget eas = (x, y))
  /\ GetPosition (SetPosition x y e) = (x, y)
  /\ (GetAnimationState e <> None ->
      GetDisplayPositionOf (SetPosition x y e) = GetDisplayPositionOf e)
  /\ GetAnimationState (SetPosition x y e) = GetAnimationState e.
Proof.
  destruct e as [s|s];
    unfold GetPosition, GetDisplayPositionOf, GetAnimationState,
      SetImmediatePosition, SetPosition, onBase, BaseEntity_GetDisplayPosition,
      BaseEntity_SetImmediatePosition, BaseEntity_SetPosition,
      BaseEntity_GetPosition;
    cbn [base Sphere_BaseEntity Sprite_BaseEntity AnimationState X Y];
    destruct (AnimationState _) as [eas0|]; cbn [option_map].
  all: split; [reflexivity|].
  all: split; [reflexivity|].
  all: split; [intros eas Heas; try discriminate;
               injection Heas as <-; split; reflexivity|].
  all: split; [reflexivity|].
  all: split; [|reflexivity].
  all: intros Hne; try reflexivity; congruence.
Qed.

(** X18.  [Update] leaves an entity with an animation state displayed where
    it was and starts the animation towards the new physics position; a
    coordinate of that position that is NaN or infinite is replaced, as
    target, by the displayed coordinate. *)
Theorem Update_retargets_animation (dt : F) (e : Entity F) (r : RandSource F)
    (eas : EntityAnimationState F) :
  GetAnimationState e = Some eas ->
  let e' := fst (Update dt e r) in
  exists eas',
    GetAnimationState e' = Some eas'
    /\ IsStillAnimating eas' = true
    /\ GetDisplayPosition eas' = GetDisplayPosition eas
    /\ GetTarget eas'
       = (if finite (fst (GetPosition e')) then fst (GetPosition e')
          else DisplayX eas,
          if finite (snd (GetPosition e')) then snd (GetPosition e')
          else DisplayY eas)
    /\ GetDisplayPositionOf e' = GetDisplayPositionOf e.
Proof.
  intros Heas. cbv zeta.
  assert (Hbase : forall b : BaseEntity F, AnimationState b = Some eas ->
    exists eas',
      AnimationState (BaseEntity_Update dt b) = Some eas'
      /\ IsStillAnimating eas' = true
      /\ GetDisplayPosition eas' = GetDisplayPosition eas
      /\ GetTarget eas'
         = (if finite (X (BaseEntity_Update dt b)) then X (BaseEntity_Update dt b)
            else DisplayX eas,
            if finite (Y (BaseEntity_Update dt b)) then Y (BaseEntity_Update dt b)
            else DisplayY eas)
      /\ BaseEntity_GetDisplayPosition (BaseEntity_Update dt b)
         = BaseEntity_GetDisplayPosition b).
  { intros b Hb. unfold BaseEntity_Update, BaseEntity_GetDisplayPosition.
    cbn [AnimationState X Y]. rewrite Hb. cbn [option_map].
    eexists. split; [reflexivity|].
    unfold SetTarget, IsStillAnimating, GetDisplayPosition, GetTarget, finite.
    cbn [IsAnimating DisplayX DisplayY TargetX TargetY].
    repeat split.
    rewrite (orb_comm (IsInf (X b + VX b * dt))),
            (orb_comm (IsInf (Y b + VY b * dt))).
    destruct (IsNaN (X b + VX b * dt) || IsInf (X b + VX b * dt)),
             (IsNaN (Y b + VY b * dt) || IsInf (Y b + VY b * dt));
      reflexivity. }
  destruct e as [s|s].
  - apply (Hbase (Sphere_BaseEntity s) Heas).
  - unfold Update, Sprite_Update, rand_Float64.
    destruct (Hbase (Sprite_BaseEntity s) Heas) as (eas' & H1 & H2 & H3 & H4 & H5).
    exists eas'.
    destruct (r 0%nat <? lit 0.1); cbn [fst];
      [unfold Sprite_NextFrame; cbn [Animation Sprite_BaseEntity];
       destruct (1 <? Z.of_nat (List.length (Animation s)))%Z|];
      unfold GetAnimationState, GetPosition, GetDisplayPositionOf,
        BaseEntity_GetPosition, BaseEntity_GetDisplayPosition in *;
      cbn [base Sprite_BaseEntity AnimationState X Y fst snd] in *;
      auto.
Qed.

(** X24.  An entity whose mass is not greater than 0 (zero, negative or
    NaN) ignores every force: [ApplyForce] returns it unchanged, and so do
    the engine's gravity and air resistance.  [NewSphere] and [NewSprite]
    make such an entity from size 0. *)
Theorem massless_entity_ignores_forces (pe : PhysicsEngine F) (e : Entity F)
    (fx fy : F) :
  (Mass (base e) >? lit 0) = false ->
  ApplyForce fx fy e = e
  /\ applyGravity pe e = e
  /\ applyAirResistance pe e = e.
Proof.
  intros Hm.
  assert (Hforce : forall gx gy, ApplyForce gx gy e = e).
  { intros gx gy. destruct e as [s|s]; unfold ApplyForce, onBase, BaseEntity_ApplyForce;
      cbn [base Sphere_BaseEntity Sprite_BaseEntity] in *; rewrite Hm;
      destruct s; reflexivity. }
  split; [apply Hforce|]. split; [apply Hforce|].
  unfold applyAirResistance. destruct (GetVelocity e). apply Hforce.
Qed.

End Display.

Section Binary64Entities.

Local Open Scope go_scope.

(** X25.  On binary64, for a sphere [NewSphere] makes with a size class
    from 1 to 4, [SetRadius] of its own radius gives back the sphere, size
    class included, and the sphere's own [GetBounds] is the inherited
    one. *)
Theorem Sphere_SetRadius_GetRadius (x y : float) (size : Z) (color id : string) :
  (1 <= size <= 4)%Z ->
  let s := NewSphere x y size color id in
  Sphere_SetRadius (Sphere_GetRadius s) s = s
  /\ inheritsBounds (ESphere s).
Proof.
  intros Hsize. cbv zeta.
  assert (Hcases : size = 1%Z \/ size = 2%Z \/ size = 3%Z \/ size = 4%Z) by lia.
  destruct Hcases as [-> | [-> | [-> | ->]]]; split; reflexivity.
Qed.

End Binary64Entities.

(** *** The model: resizing and keys *)

Section Resize.

Local Open Scope R_scope.

Lemma display_SetImmediatePosition (F : Type) `{Float64 F} (x y : F) (e : Entity F) :
  GetDisplayPositionOf (SetImmediatePosition x y e) = (x, y).
Proof.
  destruct e as [s|s]; unfold GetDisplayPositionOf, SetImmediatePosition, onBase,
    BaseEntity_GetDisplayPosition, BaseEntity_SetImmediatePosition;
    cbn [base Sphere_BaseEntity Sprite_BaseEntity AnimationState X Y];
    match goal with |- context [option_map _ ?a] => destruct a end; reflexivity.
Qed.

Lemma display_SetVelocity (F : Type) `{Float64 F} (vx vy : F) (e : Entity F) :
  GetDisplayPositionOf (SetVelocity vx vy e) = GetDisplayPositionOf e.
Proof. destruct e; reflexivity. Qed.

(** One axis of [handleBoundaryResize]. *)
Lemma resize_axis (x v maxW : R) :
  3 / 2 < maxW ->
  let p := if Exact.leb (maxW - lit 1) x
           then (maxW - lit 1.5,
                 if Exact.ltb (lit 0) v then - Rabs v * lit 0.7 else v)
           else if Exact.ltb x (lit 0)
           then (lit 0.5, if Exact.ltb v (lit 0) then Rabs v * lit 0.7 else v)
           else (x, v) in
  0 <= fst p < maxW - 1
  /\ Rabs (snd p) <= Rabs v
  /\ (maxW - 1 <= x -> snd p <= 0)
  /\ (x < 0 -> 0 <= snd p).
Proof.
  intros Hw. cbv zeta.
  unfold lit, exact, Q2R; cbn [Qnum Qden].
  pose proof (Rabs_pos v) as Habs.
  destruct (Exact.leb (maxW - 1 * / 1) x) eqn:Hr;
    [apply Exact_leb_le in Hr|apply Exact_leb_gt in Hr;
     destruct (Exact.ltb x (0 * / 1)) eqn:Hl;
     [apply Exact_ltb_lt in Hl|apply Exact_ltb_ge in Hl]];
    cbn [fst snd].
  - destruct (Exact.ltb (0 * / 1) v) eqn:Hv;
      [apply Exact_ltb_lt in Hv|apply Exact_ltb_ge in Hv].
    + repeat split; try lra; try nra.
      rewrite Rabs_mult, Rabs_Ropp, Rabs_Rabsolu, (Rabs_pos_eq (7 * / 10)) by lra.
      nra.
    + repeat split; lra.
  - destruct (Exact.ltb v (0 * / 1)) eqn:Hv;
      [apply Exact_ltb_lt in Hv|apply Exact_ltb_ge in Hv].
    + repeat split; try lra; try nra.
      rewrite Rabs_mult, Rabs_Rabsolu, (Rabs_pos_eq (7 * / 10)) by lra. nra.
    + repeat split; lra.
  - repeat split; lra.
Qed.

Lemma handleBoundaryResize_entity_state (maxWidth maxHeight : R) (e : Entity R) :
  let '(x, y) := GetPosition e in
  let '(vx, vy) := GetVelocity e in
  let px := if Exact.leb (maxWidth - lit 1) x
           then (maxWidth - lit 1.5,
                 if Exact.ltb (lit 0) vx then - Rabs vx * lit 0.7 else vx)
           else if Exact.ltb x (lit 0)
           then (lit 0.5, if Exact.ltb vx (lit 0) then Rabs vx * lit 0.7 else vx)
           else (x, vx) in
  let py := if Exact.leb (maxHeight - lit 1) y
           then (maxHeight - lit 1.5,
                 if Exact.ltb (lit 0) vy then - Rabs vy * lit 0.7 else vy)
           else if Exact.ltb y (lit 0)
           then (lit 0.5, if Exact.ltb vy (lit 0) then Rabs vy * lit 0.7 else vy)
           else (y, vy) in
  let e' := handleBoundaryResize_entity maxWidth maxHeight e in
  GetPosition e' = (fst px, fst py)
  /\ GetVelocity e' = (snd px, snd py)
  /\ identity e' = identity e
  /\ (GetPosition e' <> GetPosition e -> GetDisplayPositionOf e' = GetPosition e').
Proof.
  unfold handleBoundaryResize_entity.
  destruct (GetPosition e) as [x y] eqn:P, (GetVelocity e) as [vx vy] eqn:V.
  cbn [fle flt fsub fmul fneg feq Abs exact].
  set (px := if Exact.leb (maxWidth - lit 1) x then _ else _).
  set (py := if Exact.leb (maxHeight - lit 1) y then _ else _).
  cbv zeta.
  destruct px as [newX newVX], py as [newY newVY]. cbn [fst snd].
  destruct (negb (Exact.eqb newX x) || negb (Exact.eqb newY y)) eqn:Hp;
  destruct (negb (Exact.eqb newVX vx) || negb (Exact.eqb newVY vy)) eqn:Hv.
  all: rewrite ?GetPosition_SetVelocity, ?GetPosition_SetImmediatePosition,
         ?GetVelocity_SetVelocity_exact, ?GetVelocity_SetImmediatePosition,
         ?identity_SetVelocity, ?identity_SetImmediatePosition,
         ?display_SetVelocity, ?display_SetImmediatePosition.
  all: try (apply orb_false_iff in Hp; destruct Hp as [Hp1 Hp2];
            apply negb_false_iff, Exact_eqb_eq in Hp1;
            apply negb_false_iff, Exact_eqb_eq in Hp2; subst newX newY).
  all: try (apply orb_false_iff in Hv; destruct Hv as [Hv1 Hv2];
            apply negb_false_iff, Exact_eqb_eq in Hv1;
            apply negb_false_iff, Exact_eqb_eq in Hv2; subst newVX newVY).
  all: rewrite ?P, ?V; repeat split; auto; try congruence.
Qed.

(** X19.  In exact arithmetic, for a field more than 1.5 wide and high,
    [handleBoundaryResize] leaves every entity with 0 <= x < maxWidth - 1
    and 0 <= y < maxHeight - 1.  No velocity component grows in absolute
    value; an entity found at or beyond the right or bottom edge does not
    move towards it afterwards, one found below 0 does not move further
    below.  An entity that was moved is displayed at its new position;
    IDs, types and size classes are unchanged. *)
Theorem handleBoundaryResize_moves_inside (maxWidth maxHeight : R) (m : Model R) :
  3 / 2 < maxWidth -> 3 / 2 < maxHeight ->
  Forall2 (fun e e' =>
      (0 <= fst (GetPosition e') < maxWidth - 1
       /\ 0 <= snd (GetPosition e') < maxHeight - 1)
      /\ (Rabs (fst (GetVelocity e')) <= Rabs (fst (GetVelocity e))
          /\ Rabs (snd (GetVelocity e')) <= Rabs (snd (GetVelocity e)))
      /\ (maxWidth - 1 <= fst (GetPosition e) -> fst (GetVelocity e') <= 0)
      /\ (fst (GetPosition e) < 0 -> 0 <= fst (GetVelocity e'))
      /\ (maxHeight - 1 <= snd (GetPosition e) -> snd (GetVelocity e') <= 0)
      /\ (snd (GetPosition e) < 0 -> 0 <= snd (GetVelocity e'))
      /\ (GetPosition e' <> GetPosition e ->
          GetDisplayPositionOf e' = GetPosition e')
      /\ identity e' = identity e)
    (GetEntities (entityManager m))
    (GetEntities (entityManager (handleBoundaryResize maxWidth maxHeight m))).
Proof.
  intros Hw Hh. unfold handleBoundaryResize, GetEntities. cbn [entityManager entities].
  induction (entities (entityManager m)) as [|e l IH]; cbn [map]; constructor;
    [|exact IH].
  pose proof (handleBoundaryResize_entity_state maxWidth maxHeight e) as Hst.
  destruct (GetPosition e) as [x y], (GetVelocity e) as [vx vy].
  cbv zeta in Hst. destruct Hst as (HP & HV & HI & HD).
  pose proof (@resize_axis x vx maxWidth Hw) as Hx.
  pose proof (@resize_axis y vy maxHeight Hh) as Hy.
  cbv zeta in Hx, Hy.
  destruct Hx as (Hx1 & Hx2 & Hx3 & Hx4), Hy as (Hy1 & Hy2 & Hy3 & Hy4).
  rewrite HP in HD. rewrite HP, HV. cbn [fst snd]. tauto.
Qed.

(** X28.  In exact arithmetic: the window-size handler calls
    [UpdateBounds] and [handleBoundaryResize] with the same width.  An
    entity of non-negative size class found at or beyond [maxWidth - 1] is
    put at [maxWidth - 1.5], which is beyond the right wall
    [maxWidth - 2] that [UpdateBounds] sets: the next
    [handleBoundaryCollisions] finds it at a wall of the X axis. *)
Theorem resize_leaves_entity_at_wall (pe : PhysicsEngine R)
    (maxWidth maxHeight : R) (e : Entity R) :
  (0 <= GetSize e)%Z ->
  maxWidth - 1 <= fst (GetPosition e) ->
  let e' := handleBoundaryResize_entity maxWidth maxHeight e in
  fst (GetPosition e') = maxWidth - 3 / 2
  /\ hitX (UpdateBounds maxWidth maxHeight pe) e' <> HitNone.
Proof.
  intros Hs Hx. cbv zeta.
  pose proof (handleBoundaryResize_entity_state maxWidth maxHeight e) as Hst.
  destruct (GetPosition e) as [x y], (GetVelocity e) as [vx vy].
  cbv zeta in Hst. destruct Hst as (HP & _ & HI & _).
  cbn [fst] in Hx.
  assert (H1 : (lit 1 : R) = 1) by (unfold lit, exact, Q2R; cbn [Qnum Qden]; lra).
  assert (H15 : (lit 1.5 : R) = 3 / 2) by (unfold lit, exact, Q2R; cbn [Qnum Qden]; lra).
  assert (H2 : (lit 2 : R) = 2) by (unfold lit, exact, Q2R; cbn [Qnum Qden]; lra).
  assert (H20 : (lit 2.0 : R) = 2) by (unfold lit, exact, Q2R; cbn [Qnum Qden]; lra).
  rewrite H1, H15 in HP.
  replace (Exact.leb (maxWidth - 1) x) with true in HP
    by (symmetry; apply Exact_leb_le; lra).
  cbn [fst] in HP.
  unfold hitX. rewrite (GetSize_identity HI), HP. cbn [fst].
  split; [reflexivity|].
  cbn [fsub fadd fdiv fle ofInt exact MinX MaxX UpdateBounds].
  rewrite H2, H20.
  assert (Hsz : 0 <= IZR (GetSize e)) by (apply IZR_le; exact Hs).
  destruct (Exact.leb _ (MinX pe)); [discriminate|].
  replace (Exact.leb (maxWidth - 2) (maxWidth - 3 / 2 + IZR (GetSize e) / 2))
    with true by (symmetry; apply Exact_leb_le; lra).
  discriminate.
Qed.

End Resize.

Section PauseKey.

Context (F : Type) `{Float64 F}.
Local Open Scope go_scope.

(** X20.  In a model whose timestep agrees with its pause flag (0 when
    paused, 0.1 when not), the ["p"] key flips the flag and the timestep
    together and leaves the registry alone; pressing it twice gives back
    the model. *)
Theorem Update_key_p_twice (m : Model F) :
  DeltaTime (physicsEngine m) = (if paused m then lit 0 else lit 0.1) ->
  Update_key_p (Update_key_p m) = m
  /\ paused (Update_key_p m) = negb (paused m)
  /\ DeltaTime (physicsEngine (Update_key_p m))
     = (if paused m then lit 0.1 else lit 0)
  /\ entityManager (Update_key_p m) = entityManager m.
Proof.
  destruct m as [em pe p rd].
  destruct pe as [g a rs sf cd mnx mny mxx mxy dtm mxv mnv ct].
  cbn [physicsEngine paused DeltaTime]. intros ->.
  destruct p; repeat split; reflexivity.
Qed.

End PauseKey.

Section Keys.

Local Open Scope go_scope.

(** X21.  On binary64, whatever the model before: after the ["p"] key the
    engine runs exactly when the model is not paused, and the pause flag
    is flipped; after the ["r"] key the registry is empty, the flag is
    cleared and the engine runs, with its gravity and restitution kept;
    the ["c"] key empties the registry and changes neither the flag nor
    the engine. *)
Theorem pause_keys_keep_flag_and_timestep_in_step (m : Model float) :
  IsRunning (physicsEngine (Update_key_p m)) = negb (paused (Update_key_p m))
  /\ paused (Update_key_p m) = negb (paused m)
  /\ IsRunning (physicsEngine (Update_key_r m)) = true
  /\ paused (Update_key_r m) = false
  /\ GetEntities (entityManager (Update_key_r m)) = []
  /\ GetGravity (physicsEngine (Update_key_r m)) = GetGravity (physicsEngine m)
  /\ GetRestitution (physicsEngine (Update_key_r m))
     = GetRestitution (physicsEngine m)
  /\ GetEntities (entityManager (Update_key_c m)) = []
  /\ physicsEngine (Update_key_c m) = physicsEngine m
  /\ paused (Update_key_c m) = paused m.
Proof.
  unfold Update_key_p, Update_key_r, Update_key_c.
  cbn [physicsEngine paused entityManager].
  destruct (paused m); repeat split.
Qed.

Lemma GetRestitution_Update_key_b (m : Model float) :
  GetRestitution (physicsEngine (Update_key_b m))
  = (let bounce := GetRestitution (physicsEngine m) in
     if bounce <=? lit 0.1 then lit 0.3
     else if bounce <=? lit 0.3 then lit 0.7
     else if bounce <=? lit 0.7 then lit 1.0
     else lit 0.1).
Proof.
  cbv zeta. unfold Update_key_b. cbn [physicsEngine].
  destruct (GetRestitution (physicsEngine m) <=? lit 0.1);
    [|destruct (GetRestitution (physicsEngine m) <=? lit 0.3);
      [|destruct (GetRestitution (physicsEngine m) <=? lit 0.7)]];
    reflexivity.
Qed.

(** X22.  On binary64, the ["b"] key sets the restitution to the level
    after the current one (0.3 from at most 0.1, 0.7 from at most 0.3, 1.0
    from at most 0.7, else 0.1, also from NaN); [SetRestitution] accepts
    each of these levels, and from any of the four levels four presses
    lead back to it. *)
Theorem Update_key_b_cycles (m : Model float) :
  let bounce := GetRestitution (physicsEngine m) in
  GetRestitution (physicsEngine (Update_key_b m))
  = (if bounce <=? lit 0.1 then lit 0.3
     else if bounce <=? lit 0.3 then lit 0.7
     else if bounce <=? lit 0.7 then lit 1.0
     else lit 0.1)
  /\ inUnit (GetRestitution (physicsEngine (Update_key_b m))) = true
  /\ (In bounce [lit 0.1; lit 0.3; lit 0.7; lit 1.0] ->
      GetRestitution
        (physicsEngine (Update_key_b (Update_key_b (Update_key_b (Update_key_b m)))))
      = bounce).
Proof.
  cbv zeta. split; [apply GetRestitution_Update_key_b|]. split.
  - rewrite GetRestitution_Update_key_b. cbv zeta.
    destruct (GetRestitution (physicsEngine m) <=? lit 0.1);
      [|destruct (GetRestitution (physicsEngine m) <=? lit 0.3);
        [|destruct (GetRestitution (physicsEngine m) <=? lit 0.7)]];
      reflexivity.
  - intros Hin. rewrite !GetRestitution_Update_key_b. cbv zeta.
    destruct Hin as [<- | [<- | [<- | [<- | []]]]]; reflexivity.
Qed.

End Keys.

(** *** The properties above at concrete entities *)

Section ExactWitnesses.

Import ExactScenario.
Local Open Scope R_scope.

Lemma engine_walls (width height : Q) :
  0 < Q2R width -> 0 < Q2R height ->
  MinX (engine width height) = 1 /\ MinY (engine width height) = 1
  /\ MaxX (engine width height) = Q2R width - 2
  /\ MaxY (engine width height) = Q2R height - 2.
Proof.
  intros Hw Hh. unfold engine, NewPhysicsEngine.
  cbn [MinX MinY MaxX MaxY fle fsub exact lit].
  replace (Exact.leb (Q2R width) (Q2R 0)) with false
    by (symmetry; apply Exact_leb_gt; unfold Q2R at 1; cbn [Qnum Qden]; lra).
  replace (Exact.leb (Q2R height) (Q2R 0)) with false
    by (symmetry; apply Exact_leb_gt; unfold Q2R at 1; cbn [Qnum Qden]; lra).
  unfold Q2R; cbn [Qnum Qden]. repeat split; lra.
Qed.

Lemma Q2R_80 : 0 < Q2R 80. Proof. unfold Q2R; cbn [Qnum Qden]; lra. Qed.
Lemma Q2R_24 : 0 < Q2R 24. Proof. unfold Q2R; cbn [Qnum Qden]; lra. Qed.

(** X6 at a size-1 sphere that starts outside the left wall and moves
    fast. *)
Lemma ApplyPhysics_keeps_inside_walls_fast_sphere :
  Forall (fun e => insideWalls (engine 80 24) e = true)
    (fst (ApplyPhysics (engine 80 24) [sphere 0 3 1 (-40) 30] source)).
Proof.
  apply ApplyPhysics_keeps_inside_walls.
  constructor; [|constructor].
  unfold fitsWalls.
  destruct (engine_walls Q2R_80 Q2R_24) as (-> & -> & -> & ->).
  unfold sphere. rewrite GetSize_SetVelocity.
  cbn [GetSize base Sphere_BaseEntity NewSphere Size Z.ltb Z.compare
       fadd fle ofInt exact].
  apply andb_true_iff; split; apply Exact_leb_le;
    unfold Q2R; cbn [Qnum Qden]; lra.
Defined.

(** X7 at the same sphere. *)
Lemma ApplyPhysics_caps_velocity_fast_sphere :
  Forall (fun e => Rabs (fst (GetVelocity e)) <= MaxVelocity (engine 80 24)
                   /\ Rabs (snd (GetVelocity e)) <= MaxVelocity (engine 80 24))
    (fst (ApplyPhysics (engine 80 24) [sphere 0 3 1 (-90) 30] source)).
Proof.
  apply ApplyPhysics_caps_velocity.
  - cbn [MaxVelocity engine NewPhysicsEngine lit exact].
    unfold Q2R; cbn [Qnum Qden]; lra.
  - cbn [StaticFriction engine NewPhysicsEngine lit exact].
    unfold Q2R; cbn [Qnum Qden]; lra.
Defined.

(** X8 at a sphere at rest, with draws 0.25 and the 5.0 of the ["a"] key. *)
Lemma AddRandomVelocity_bounded_quarter_draws :
  let e' := fst (AddRandomVelocity (engine 80 24) (sphere 10 3 1 0 0) 5 source) in
  Rabs (fst (GetVelocity e') - fst (GetVelocity (sphere 10 3 1 0 0))) <= 5 / 2
  /\ Rabs (snd (GetVelocity e') - snd (GetVelocity (sphere 10 3 1 0 0))) <= 5 / 2
  /\ GetPosition e' = GetPosition (sphere 10 3 1 0 0)
  /\ (forall n, snd (AddRandomVelocity (engine 80 24) (sphere 10 3 1 0 0) 5 source) n
                = source (S (S n))).
Proof.
  apply (@AddRandomVelocity_bounded (engine 80 24) (sphere 10 3 1 0 0) 5 source).
  - lra.
  - unfold source, lit, exact, Q2R; cbn [Qnum Qden]; lra.
  - unfold source, lit, exact, Q2R; cbn [Qnum Qden]; lra.
Defined.

Lemma centerDistance_head_on :
  centerDistance (sphere 10 10 1 5 0) (sphere 10.6 10 1 (-5) 0) = 6 / 10.
Proof.
  unfold centerDistance, sphere. rewrite !GetPosition_SetVelocity.
  cbn [GetPosition base Sphere_BaseEntity NewSphere BaseEntity_GetPosition X Y
       fsub fmul fadd Sqrt exact lit].
  unfold Q2R; cbn [Qnum Qden].
  replace ((106 * / 10 - 10 * / 1) * (106 * / 10 - 10 * / 1)
           + (10 * / 1 - 10 * / 1) * (10 * / 1 - 10 * / 1))
    with (6 / 10 * (6 / 10) + 0 * 0) by field.
  apply Exact_sqrt_square_sum. lra.
Qed.

Lemma collisionRadius_size_1 (x y vx vy : Q) :
  collisionRadius (sphere x y 1 vx vy) = 4 / 10.
Proof.
  unfold collisionRadius, sphere.
  cbn [GetBounds SetVelocity onBase Sphere_GetBounds Radius NewSphere
       Z.ltb Z.compare effectiveSize fdiv fmul exact lit].
  unfold Q2R; cbn [Qnum Qden]. field.
Qed.


(** X19 at a field of 80 by 24 that holds a sphere beyond the right edge,
    moving right, and one above the top edge. *)
Lemma handleBoundaryResize_moves_inside_two_spheres :
  let m := {| entityManager :=
                AddEntity (sphere 10 (-2) 1 0 (-3))
                  (AddEntity (sphere 100 10 1 10 0) (NewEntityManager R));
              physicsEngine := engine 80 24;
              paused := false; ready := true |} in
  Forall (fun e => 0 <= fst (GetPosition e) < 80 - 1
                   /\ 0 <= snd (GetPosition e) < 24 - 1)
    (GetEntities (entityManager (handleBoundaryResize 80 24 m))).
Proof.
  cbv zeta.
  match goal with
  | |- Forall _ (GetEntities (entityManager (handleBoundaryResize _ _ ?m))) =>
      pose proof (@handleBoundaryResize_moves_inside 80 24 m
                    ltac:(lra) ltac:(lra)) as Hall
  end.
  induction Hall as [|e e' l l' He _ IH]; constructor; [tauto|exact IH].
Defined.

Lemma inheritsBounds_exact_sphere (x y : Q) (size : Z) (vx vy : Q) :
  inheritsBounds (sphere x y size vx vy).
Proof.
  unfold sphere, inheritsBounds.
  destruct (@NewSphere_mass_and_bounds (lit x) (lit y) size
              "#00FF00" "sphere_17_4242") as (_ & Hin & _).
  exact Hin.
Qed.

(** X26 at the head-on pair: 0.6 apart with radii 0.4, reported by both
    tests. *)
Lemma checkEntityCollision_implies_CheckCollision_head_on :
  CheckCollision (sphere 10 10 1 5 0) (sphere 10.6 10 1 (-5) 0) = true.
Proof.
  apply (@checkEntityCollision_implies_CheckCollision (engine 100 50)).
  - cbn [ContactTolerance engine NewPhysicsEngine lit exact].
    unfold Q2R; cbn [Qnum Qden]; lra.
  - apply inheritsBounds_exact_sphere.
  - rewrite checkEntityCollision_unfold, centerDistance_head_on,
      !collisionRadius_size_1.
    cbn [flt fadd fsub exact ContactTolerance engine NewPhysicsEngine lit].
    apply Exact_ltb_lt. unfold Q2R; cbn [Qnum Qden]. lra.
Defined.

(** X27 at a sphere that reaches the left wall with velocity (-10, 3). *)
Lemma handleBoundaryCollisions_never_speeds_up_left_wall :
  Rabs (fst (GetVelocity (handleBoundaryCollisions (engine 80 24)
                            (sphere 1 10 1 (-10) 3))))
    <= Rabs (fst (GetVelocity (sphere 1 10 1 (-10) 3)))
  /\ Rabs (snd (GetVelocity (handleBoundaryCollisions (engine 80 24)
                               (sphere 1 10 1 (-10) 3))))
     <= Rabs (snd (GetVelocity (sphere 1 10 1 (-10) 3))).
Proof.
  apply handleBoundaryCollisions_never_speeds_up.
  cbn [Restitution engine NewPhysicsEngine lit exact].
  unfold Q2R; cbn [Qnum Qden]; lra.
Defined.

(** X28 at a size-1 sphere at x = 100 when the field becomes 80 wide. *)
Lemma resize_leaves_entity_at_wall_sphere :
  fst (GetPosition (handleBoundaryResize_entity 80 24 (sphere 100 10 1 10 0)))
  = 80 - 3 / 2
  /\ hitX (UpdateBounds 80 24 (engine 100 50))
          (handleBoundaryResize_entity 80 24 (sphere 100 10 1 10 0))
     <> HitNone.
Proof.
  apply (@resize_leaves_entity_at_wall (engine 100 50) 80 24 (sphere 100 10 1 10 0)).
  - unfold sphere. rewrite GetSize_SetVelocity. cbn. lia.
  - unfold sphere. rewrite GetPosition_SetVelocity.
    cbn [GetPosition base Sphere_BaseEntity NewSphere BaseEntity_GetPosition X fst
         lit exact].
    unfold Q2R; cbn [Qnum Qden]. lra.
Defined.

End ExactWitnesses.

Section Binary64Witnesses.

Import Scenario.
Local Open Scope float_scope.

(** X12 at a size-1 sphere and a size-2 sprite whose boxes overlap. *)
Lemma CheckCollision_symmetric_sphere_sprite :
  CheckCollision (sphere 10 10 1 10 0) (sprite 10.5 10.5 2 (-3) 1)
  = CheckCollision (sprite 10.5 10.5 2 (-3) 1) (sphere 10 10 1 10 0)
  /\ CheckCollision (sphere 10 10 1 10 0) (sprite 10.5 10.5 2 (-3) 1) = true.
Proof.
  split; [|reflexivity].
  apply (@CheckCollision_symmetric float binary64); reflexivity.
Defined.

(** X15 at a sprite given three frames: four calls of [NextFrame] leave it
    at the second frame. *)
Lemma Sprite_NextFrame_cycles_three_frames :
  let s := Sprite_SetAnimation ["a"; "b"; "c"]%string
             (NewSprite (lit 30 : float) (lit 12) 2 "#FF00FF" "*" "sprite_9_77" 0) in
  CurrentFrame (Sprite_NextFrameTimes 4 s) = 1%Z
  /\ Symbol (Sprite_BaseEntity (Sprite_NextFrameTimes 4 s)) = "b"%string.
Proof.
  cbv zeta.
  destruct (@Sprite_NextFrame_cycles float
              (Sprite_SetAnimation ["a"; "b"; "c"]%string
                 (NewSprite (lit 30 : float) (lit 12) 2 "#FF00FF" "*" "sprite_9_77" 0))
              4)
    as (_ & Hs & Ha & Hc & _).
  - unfold validFrame. cbn. lia.
  - reflexivity.
  - split; [rewrite Hc; reflexivity|].
    unfold showsCurrentFrame in Hs. rewrite Hs, Hc, Ha. reflexivity.
Defined.

(** X18 at a sphere at (10, 10) with velocity (10, 0) and timestep 0.1:
    displayed at (10, 10), animated towards (11, 10). *)
Lemma Update_retargets_animation_moving_sphere :
  exists eas',
    GetAnimationState (fst (Update (lit 0.1) (sphere 10 10 1 10 0) source))
    = Some eas'
    /\ IsStillAnimating eas' = true
    /\ GetDisplayPosition eas' = (10, 10)
    /\ GetTarget eas' = (11, 10).
Proof.
  destruct (@Update_retargets_animation float binary64 (lit 0.1)
              (sphere 10 10 1 10 0) source
              (NewEntityAnimationState (lit 10) (lit 10)) eq_refl)
    as (eas' & H1 & H2 & H3 & H4 & _).
  exists eas'. split; [exact H1|]. split; [exact H2|].
  split; [rewrite H3; reflexivity|rewrite H4; reflexivity].
Defined.

(** X20 at the running model of the scenarios. *)
Lemma Update_key_p_twice_running :
  Update_key_p (Update_key_p running) = running
  /\ paused (Update_key_p running) = true
  /\ DeltaTime (physicsEngine (Update_key_p running)) = 0.
Proof.
  destruct (@Update_key_p_twice float binary64 running eq_refl)
    as (H1 & H2 & H3 & _).
  split; [exact H1|]. split; [exact H2|]. rewrite H3. reflexivity.
Defined.

(** X24 at a sphere and a sprite of size 0. *)
Lemma massless_entity_ignores_forces_size_zero :
  applyAirResistance (engine 80 24)
    (applyGravity (engine 80 24) (sphere 10 10 0 3 0))
  = sphere 10 10 0 3 0
  /\ ApplyForce 1 1 (sprite 30 12 0 0 0) = sprite 30 12 0 0 0.
Proof.
  destruct (@massless_entity_ignores_forces float binary64 (engine 80 24)
              (sphere 10 10 0 3 0) 0 0 eq_refl) as (_ & Hg & Ha).
  destruct (@massless_entity_ignores_forces float binary64 (engine 80 24)
              (sprite 30 12 0 0 0) 1 1 eq_refl) as (Hf & _ & _).
  split; [now rewrite Hg, Ha|exact Hf].
Defined.

(** X25 at a sphere of size 3, radius 0.65. *)
Lemma Sphere_SetRadius_GetRadius_medium :
  Sphere_SetRadius 0.65 (NewSphere 10 10 3 "#00FF00" "sphere_17_4242")
  = NewSphere 10 10 3 "#00FF00" "sphere_17_4242".
Proof.
  exact (proj1 (@Sphere_SetRadius_GetRadius 10 10 3 "#00FF00" "sphere_17_4242"
                  ltac:(lia))).
Defined.

End Binary64Witnesses.
